(** * Kindle Highlights Reminder: the highlight store and the selector

    A shallow embedding of [src/lib/database.js] (class [Database]) and of
    the [HighlightSelector] class ([src/unnamed/part_007]).

    Modelling choices:
    - JavaScript values are [jsval]; numbers are integers ([Z]) plus [NaN];
      fractional numbers only appear as scores, which are [Q] ([None] is NaN).
    - A stored record is a JavaScript object, a [gmap string jsval]; an own
      property holding [undefined] is [Some JUndef], an absent one [None].
    - An IndexedDB object store is a [gmap string obj] from the record's key
      to the record; keys are strings (the keys this code generates).
    - [Date.now()] is a parameter [now] of each operation; [Math.random()] is a
      stream [rnd : nat -> Q] read through a counter (values in [0,1)).
    - Strings are ASCII; [toLowerCase] and [\s] are their ASCII versions. *)

From Stdlib Require Import QArith Qround Qminmax Sorting.Sorted Lqa.
From stdpp Require Import base gmap strings list pretty.

Open Scope string_scope.
Set Warnings "-register-all".

(* ------------------------------------------------------------------ *)
(** ** JavaScript values *)

Module Js.

Inductive jsval : Type :=
| JUndef
| JNull
| JBool (b : bool)
| JNum (n : Z)
| JFrac (q : Q)
| JNaN
| JStr (s : string)
| JArr (l : list jsval).

(** A record: own enumerable properties. *)
Abbreviation obj := (gmap string jsval).

(** [o.k] *)
Definition get (o : obj) (k : string) : jsval :=
  match o !! k with Some v => v | None => JUndef end.

(** ToBoolean *)
Definition truthy (v : jsval) : bool :=
  match v with
  | JUndef | JNull | JNaN => false
  | JBool b => b
  | JNum n => negb (Z.eqb n 0)
  | JFrac q => negb (Qeq_bool q 0)
  | JStr s => negb (String.eqb s "")
  | JArr _ => true
  end.

(** [a || b] *)
Definition js_or (a b : jsval) : jsval := if truthy a then a else b.

(** [a === b]; arrays are compared by reference, and two arrays read out
    of records are never the same reference here. *)
Definition strict_eq (a b : jsval) : bool :=
  match a, b with
  | JUndef, JUndef | JNull, JNull => true
  | JBool x, JBool y => Bool.eqb x y
  | JNum x, JNum y => Z.eqb x y
  | JFrac x, JFrac y => Qeq_bool x y
  | JStr x, JStr y => String.eqb x y
  | _, _ => false
  end.

(** SameValueZero, used by [Array.prototype.includes]. *)
Definition same_value_zero (a b : jsval) : bool :=
  match a, b with
  | JNaN, JNaN => true
  | _, _ => strict_eq a b
  end.

(** ToNumber, as an optional rational ([None] is NaN); numeric strings are
    not parsed (they give NaN here). *)
Definition to_num (v : jsval) : option Q :=
  match v with
  | JNull => Some 0%Q
  | JBool b => Some (if b then 1 else 0)%Q
  | JNum n => Some (inject_Z n)
  | JFrac q => Some q
  | _ => None
  end.

(** ToString *)
Definition num_to_string (n : Z) : string := pretty n.

(** Non-integers are only scores here, which the code never prints; they
    are rendered as a quotient rather than as a decimal expansion. *)
Definition frac_to_string (q : Q) : string :=
  pretty (Qnum q) +:+ "/" +:+ pretty (Zpos (Qden q)).

(** A number as a value: [JNum] for integers, [JFrac] otherwise. *)
Definition of_num (x : option Q) : jsval :=
  match x with
  | None => JNaN
  | Some q => let q' := Qred q in
      if Pos.eqb (Qden q') 1 then JNum (Qnum q') else JFrac q'
  end.

Fixpoint to_string (v : jsval) : string :=
  match v with
  | JUndef => "undefined"
  | JNull => "null"
  | JBool b => if b then "true" else "false"
  | JNum n => num_to_string n
  | JFrac q => frac_to_string q
  | JNaN => "NaN"
  | JStr s => s
  | JArr l =>
      (* [Array.prototype.join]: holes, undefined and null print as "" *)
      (fix join (l : list jsval) : string :=
         match l with
         | [] => ""
         | x :: r =>
             let e := match x with JUndef | JNull => "" | _ => to_string x end in
             match r with [] => e | _ => e +:+ "," +:+ join r end
         end) l
  end.

(** [v + n] for a number literal [n] on the right. *)
Definition plus_num (v : jsval) (n : Z) : jsval :=
  match v with
  | JNum m => JNum (m + n)
  | JNull => JNum n
  | JBool b => JNum ((if b then 1 else 0) + n)
  | JFrac q => of_num (Some (q + inject_Z n)%Q)
  | JUndef | JNaN => JNaN
  | JStr _ | JArr _ => JStr (to_string v +:+ num_to_string n)
  end.

(** Outcome of a call: resolved or rejected (a thrown error). *)
Inductive result (A : Type) : Type :=
| Ok (a : A)
| Err (e : string).
Arguments Ok {A} a.
Arguments Err {A} e.

#[global] Instance result_ret : MRet result := @Ok.
#[global] Instance result_bind : MBind result :=
  fun A B f m => match m with Ok a => f a | Err e => Err e end.

(** ASCII [toLowerCase] *)
Definition lower_char (c : Ascii.ascii) : Ascii.ascii :=
  let n := Ascii.nat_of_ascii c in
  if (65 <=? n)%nat && (n <=? 90)%nat then Ascii.ascii_of_nat (n + 32)%nat else c.

Fixpoint lower (s : string) : string :=
  match s with
  | EmptyString => EmptyString
  | String c r => String (lower_char c) (lower r)
  end.

Fixpoint starts_with (p s : string) : bool :=
  match p, s with
  | EmptyString, _ => true
  | String c p', String d s' => Ascii.eqb c d && starts_with p' s'
  | String _ _, EmptyString => false
  end.

(** [s.includes(t)] *)
Fixpoint includes (s t : string) : bool :=
  starts_with t s ||
  match s with
  | EmptyString => false
  | String _ s' => includes s' t
  end.

(** [v.toLowerCase()]: only strings have the method. *)
Definition toLowerCase (v : jsval) : result string :=
  match v with
  | JStr s => Ok (lower s)
  | JUndef | JNull => Err "TypeError: Cannot read properties of undefined"
  | _ => Err "TypeError: toLowerCase is not a function"
  end.

End Js.

(* ------------------------------------------------------------------ *)
(** ** Helpers shared by both classes *)

Module Aux.
Import Js.

(** [arr.filter(p)] with a predicate that may throw. *)
Fixpoint filter_r {A} (p : A -> result bool) (l : list A) : result (list A) :=
  match l with
  | [] => Ok []
  | x :: r => b ← p x; r' ← filter_r p r; Ok (if (b : bool) then x :: r' else r')
  end.

(** [arr.some(p)] with a predicate that may throw (stops at the first hit). *)
Fixpoint some_r {A} (p : A -> result bool) (l : list A) : result bool :=
  match l with
  | [] => Ok false
  | x :: r => b ← p x; if (b : bool) then Ok true else some_r p r
  end.

(** [Array.prototype.sort] with a comparator: a stable insertion sort.
    A NaN comparison counts as 0, as in SortCompare. *)
Fixpoint insert_by {A} (cmp : A -> A -> Q) (x : A) (l : list A) : list A :=
  match l with
  | [] => [x]
  | y :: r => if Qlt_le_dec (cmp x y) 0 then x :: y :: r else y :: insert_by cmp x r
  end.

Definition sort_by {A} (cmp : A -> A -> Q) (l : list A) : list A :=
  fold_left (fun acc x => insert_by cmp x acc) l [].

(** [a - b] on numbers, NaN as 0 once it is a comparison result. *)
Definition num_diff (a b : option Q) : Q :=
  match a, b with Some x, Some y => (x - y)%Q | _, _ => 0%Q end.

End Aux.

(* ------------------------------------------------------------------ *)
(** ** [Database] (src/lib/database.js) *)

Module Db.
Import Js Aux.

(** The [books] (key path [asin]) and [highlights] (key path [id]) stores. *)
Record db : Type := mkDb {
  books : gmap string obj;
  highlights : gmap string obj
}.

(** [store.put(o)]: the key is the record's key-path property; a value that
    is not a (string) key is refused with a DataError. *)
Definition put (keyPath : string) (o : obj) (st : gmap string obj)
  : result (gmap string obj) :=
  match get o keyPath with
  | JStr k => Ok (<[k := o]> st)
  | _ => Err "DataError"
  end.

(** [store.get(key)] *)
Definition store_get (key : jsval) (st : gmap string obj) : result (option obj) :=
  match key with
  | JStr k => Ok (st !! k)
  | _ => Err "DataError"
  end.

(** [addBook(book)]: [{asin, title, author, coverUrl || '', lastUpdated: now, ...book}] *)
Definition addBook (now : Z) (book : obj) (d : db) : result db :=
  let bookData : obj :=
    book ∪ <["asin" := get book "asin"]> (<["title" := get book "title"]>
      (<["author" := get book "author"]>
      (<["coverUrl" := js_or (get book "coverUrl") (JStr "")]>
      (<["lastUpdated" := JNum now]> ∅)))) in
  bs ← put "asin" bookData (books d);
  Ok (mkDb bs (highlights d)).

Definition getBook (asin : jsval) (d : db) : result (option obj) :=
  store_get asin (books d).

(** The object built by [addHighlight(highlight)] before the put:
    the defaults, then [...highlight] on top. *)
Definition highlightData (now : Z) (uuid : string) (h : obj) : obj :=
  h ∪ <["id" := js_or (get h "id") (JStr uuid)]>
    (<["bookAsin" := get h "bookAsin"]>
    (<["text" := get h "text"]>
    (<["location" := js_or (get h "location") (JStr "")]>
    (<["page" := js_or (get h "page") (JStr "")]>
    (<["dateHighlighted" := js_or (get h "dateHighlighted") (JNum now)]>
    (<["dateAdded" := JNum now]>
    (<["color" := js_or (get h "color") (JStr "yellow")]>
    (<["note" := js_or (get h "note") (JStr "")]>
    (<["tags" := js_or (get h "tags") (JArr [])]>
    (<["lastSentInEmail" := JNull]> ∅)))))))))).

(** [addHighlight(highlight)]; [uuid] is what [generateUUID()] returns. *)
Definition addHighlight (now : Z) (uuid : string) (h : obj) (d : db) : result db :=
  hs ← put "id" (highlightData now uuid h) (highlights d);
  Ok (mkDb (books d) hs).

Definition getHighlight (id : jsval) (d : db) : result (option obj) :=
  store_get id (highlights d).

(** [updateHighlight(id, updates)]: [{...highlight, ...updates}] *)
Definition updateHighlight (id : string) (updates : obj) (d : db) : result db :=
  match highlights d !! id with
  | None => Err ("Highlight with ID " +:+ id +:+ " not found")
  | Some h =>
      hs ← put "id" (updates ∪ h) (highlights d);
      Ok (mkDb (books d) hs)
  end.

(** [markHighlightAsSent(id)] *)
Definition markHighlightAsSent (now : Z) (id : string) (d : db) : result db :=
  updateHighlight id {[ "lastSentInEmail" := JNum now ]} d.

(** [bulkUpdateHighlights(ids, updates)]: every [get] request is queued
    before the first [put] (the puts are issued from the get callbacks), so
    all reads see the store as it was at the call; then the puts run in
    order. Resolves with the updated records. *)
Fixpoint bulk_puts (found : list obj) (updates : obj) (st : gmap string obj)
  : result (list obj * gmap string obj) :=
  match found with
  | [] => Ok ([], st)
  | h :: r =>
      let u := updates ∪ h in
      st' ← put "id" u st;
      res ← bulk_puts r updates st';
      Ok (u :: res.1, res.2)
  end.

Definition bulkUpdateHighlights (ids : list string) (updates : obj) (d : db)
  : result (list obj * db) :=
  match ids with
  | [] => Ok ([], d)
  | _ =>
      let found := omap (fun id => highlights d !! id) ids in
      res ← bulk_puts found updates (highlights d);
      Ok (res.1, mkDb (books d) res.2)
  end.

(** [bulkDeleteHighlights(ids)]: [store.delete(id)] succeeds whether or not
    the key exists; resolves with the number of completed requests. *)
Definition bulkDeleteHighlights (ids : list string) (d : db) : result (nat * db) :=
  match ids with
  | [] => Ok (0%nat, d)
  | _ => Ok (length ids, mkDb (books d) (foldl (fun st id => delete id st) (highlights d) ids))
  end.

End Db.

(** ** Export and import *)

Module Snapshot.
Import Js Aux Db.

(** [{version, exportDate, data: {books, highlights, ...}}]; a missing
    [data.books] or [data.highlights] array is [None]. Sync and e-mail
    history are exported but never imported, so they are left out. *)
Record snapshot : Type := mkSnapshot {
  version : jsval;
  exportDate : jsval;
  data_books : option (list obj);
  data_highlights : option (list obj)
}.

(** The version [exportAllData] writes. *)
Definition export_version : jsval := JStr "1.0".

(** [exportAllData()]; [getAll] lists records in key order, which the
    [gmap] does not fix, so the order of the lists is left to [map_to_list]. *)
Definition exportAllData (exportDate : string) (d : db) : snapshot :=
  mkSnapshot export_version (JStr exportDate)
    (Some (map snd (map_to_list (books d))))
    (Some (map snd (map_to_list (highlights d)))).

Record counts : Type := mkCounts { imported : nat; skipped : nat; errors : nat }.

Definition count_imported c := mkCounts (S (imported c)) (skipped c) (errors c).
Definition count_skipped c := mkCounts (imported c) (S (skipped c)) (errors c).
Definition count_error c := mkCounts (imported c) (skipped c) (S (errors c)).

(** [results]; the error messages pushed into [results.errors] are
    represented by the error counts. *)
Record import_results : Type := mkResults { books_res : counts; highlights_res : counts }.

Definition zero_counts := mkCounts 0 0 0.

(** One item of an import loop: [existing = await get(key)]; skip when
    [existing && !overwrite && skipDuplicates]; otherwise [await add(item)];
    any thrown error is caught and counted. *)
Definition import_one (overwrite skipDuplicates : bool)
    (lookup : db -> result (option obj)) (add : db -> result db)
    (c : counts) (d : db) : counts * db :=
  match lookup d with
  | Err _ => (count_error c, d)
  | Ok existing =>
      if bool_decide (is_Some existing) && negb overwrite && skipDuplicates
      then (count_skipped c, d)
      else match add d with
           | Ok d' => (count_imported c, d')
           | Err _ => (count_error c, d)
           end
  end.

Fixpoint import_books (overwrite skipDuplicates : bool) (now : Z) (l : list obj)
    (c : counts) (d : db) : counts * db :=
  match l with
  | [] => (c, d)
  | b :: r =>
      let '(c', d') := import_one overwrite skipDuplicates
                         (getBook (get b "asin")) (addBook now b) c d in
      import_books overwrite skipDuplicates now r c' d'
  end.

(** [uuid i] is the UUID [addHighlight] would generate for the [i]-th record. *)
Fixpoint import_highlights (overwrite skipDuplicates : bool) (now : Z)
    (uuid : nat -> string) (i : nat) (l : list obj) (c : counts) (d : db)
    : counts * db :=
  match l with
  | [] => (c, d)
  | h :: r =>
      let '(c', d') := import_one overwrite skipDuplicates
                         (getHighlight (get h "id")) (addHighlight now (uuid i) h) c d in
      import_highlights overwrite skipDuplicates now uuid (S i) r c' d'
  end.

(** [importData(importData, {overwrite = false, skipDuplicates = true})] *)
Definition importData (overwrite skipDuplicates : bool) (now : Z)
    (uuid : nat -> string) (s : snapshot) (d : db) : import_results * db :=
  let '(cb, d1) :=
    match data_books s with
    | Some l => import_books overwrite skipDuplicates now l zero_counts d
    | None => (zero_counts, d)
    end in
  let '(ch, d2) :=
    match data_highlights s with
    | Some l => import_highlights overwrite skipDuplicates now uuid 0 l zero_counts d1
    | None => (zero_counts, d1)
    end in
  (mkResults cb ch, d2).

End Snapshot.

(** ** Queries: [searchHighlights] and the location comparator *)

Module Query.
Import Js Aux Db.

(** The text-search predicate of [searchHighlights]:
    [text.toLowerCase().includes(t) || note.toLowerCase().includes(t) ||
     (tags && tags.some(tag => tag.toLowerCase().includes(t)))],
    with JavaScript's left-to-right short circuit. *)
Definition matches_term (term : string) (h : obj) : result bool :=
  t ← toLowerCase (get h "text");
  if includes t term then Ok true else
  n ← toLowerCase (get h "note");
  if includes n term then Ok true else
  let tags := get h "tags" in
  if truthy tags then
    match tags with
    | JArr l => some_r (fun tag => x ← toLowerCase tag; Ok (includes x term)) l
    | _ => Err "TypeError: highlight.tags.some is not a function"
    end
  else Ok false.

(** [searchHighlights(query)] with the default [filters = {}]: the text
    search, then the sort by [dateHighlighted] descending. *)
Definition searchHighlights (query : jsval) (d : db) : result (list obj) :=
  let all := map snd (map_to_list (highlights d)) in
  filtered ←
    (if truthy query then
       term ← toLowerCase query;
       filter_r (matches_term term) all
     else Ok all);
  Ok (sort_by (fun a b => num_diff (to_num (get b "dateHighlighted"))
                                   (to_num (get a "dateHighlighted"))) filtered).

(** *** [extractPageNumber]: [location.match(/(?:page|p\.?)\s*(\d+)/i)] *)

Definition is_space (c : Ascii.ascii) : bool :=
  let n := Ascii.nat_of_ascii c in
  (n =? 32)%nat || ((9 <=? n)%nat && (n <=? 13)%nat).

Definition is_digit (c : Ascii.ascii) : bool :=
  let n := Ascii.nat_of_ascii c in (48 <=? n)%nat && (n <=? 57)%nat.

Fixpoint skip_spaces (s : string) : string :=
  match s with
  | String c r => if is_space c then skip_spaces r else s
  | EmptyString => s
  end.

(** Greedy [\d+]: the longest run of digits at the front. *)
Fixpoint digits (s : string) : string :=
  match s with
  | String c r => if is_digit c then String c (digits r) else EmptyString
  | EmptyString => EmptyString
  end.

(** [\s*(\d+)] at the front of [s]: the captured digits. *)
Definition space_digits (s : string) : option string :=
  match digits (skip_spaces s) with
  | EmptyString => None
  | ds => Some ds
  end.

(** Case-insensitive literal at the front of [s]: the rest after it. *)
Fixpoint lit_ci (p s : string) : option string :=
  match p, s with
  | EmptyString, _ => Some s
  | String c p', String d s' =>
      if Ascii.eqb (lower_char c) (lower_char d) then lit_ci p' s' else None
  | String _ _, EmptyString => None
  end.

(** The pattern at the front of [s], alternatives in order:
    [page], then [p\.] (the greedy [\.?]), then [p]. *)
Definition match_at (s : string) : option string :=
  match lit_ci "page" s ≫= space_digits with
  | Some ds => Some ds
  | None =>
      match lit_ci "p." s ≫= space_digits with
      | Some ds => Some ds
      | None => lit_ci "p" s ≫= space_digits
      end
  end.

(** Leftmost match; [match[1]] or [null]. *)
Fixpoint extractPageNumber (location : string) : option string :=
  match match_at location with
  | Some ds => Some ds
  | None =>
      match location with
      | String _ r => extractPageNumber r
      | EmptyString => None
      end
  end.

(** [parseInt] of a run of decimal digits. *)
Definition parseInt (ds : string) : Z :=
  foldl (fun acc c => 10 * acc + (Z.of_nat (Ascii.nat_of_ascii c) - 48))%Z 0%Z
    (String.list_ascii_of_string ds).

(** Lexicographic order of character codes: the order of IndexedDB string
    keys. *)
Fixpoint codeUnitCompare (a b : string) : Z :=
  match a, b with
  | EmptyString, EmptyString => 0
  | EmptyString, String _ _ => -1
  | String _ _, EmptyString => 1
  | String c a', String d b' =>
      let x := Ascii.nat_of_ascii c in
      let y := Ascii.nat_of_ascii d in
      if (x <? y)%nat then -1 else if (y <? x)%nat then 1 else codeUnitCompare a' b'
  end.

Section Collation.

(** [a.localeCompare(b)]: the collation of the host's locale (ECMA-402),
    which is not the order of character codes ('apple' comes before
    'Banana'). It is left as a parameter: what follows holds whatever the
    collation. *)
Variable localeCompare : string -> string -> Z.

(** [compareLocations(locA, locB)]; both page strings are non-empty digit
    runs, hence truthy, whenever they are found. *)
Definition compareLocations (locA locB : string) : Z :=
  match extractPageNumber locA, extractPageNumber locB with
  | Some pa, Some pb => parseInt pa - parseInt pb
  | _, _ => localeCompare locA locB
  end.

(** The comparator of [getHighlightsByBook(asin, 'location')]:
    [(a, b) => this.compareLocations(a.location, b.location)];
    [location.match] throws on a non-string. *)
Definition location_cmp (a b : obj) : result Z :=
  match get a "location", get b "location" with
  | JStr la, JStr lb => Ok (compareLocations la lb)
  | _, _ => Err "TypeError: location.match is not a function"
  end.

End Collation.

(** The meaning of [/(?:page|p\.?)\s*(\d+)/i], read off the pattern: a
    marker [page], [p.] or [p] in any case, white space, then the longest
    run of digits, which is the capture [ds]. *)
Definition marker (m : string) : Prop :=
  lower m = "page" \/ lower m = "p." \/ lower m = "p".

Definition all_chars (f : Ascii.ascii -> bool) (s : string) : Prop :=
  Forall (fun c => f c = true) (String.list_ascii_of_string s).

Definition starts_digit (s : string) : bool :=
  match s with
  | String c _ => is_digit c
  | EmptyString => false
  end.

(** The pattern matches at the front of [s] with capture [ds]. *)
Definition match_front (s ds : string) : Prop :=
  exists m sp rest, s = (m ++ sp ++ ds ++ rest)%string /\ marker m /\
    all_chars is_space sp /\ ds <> "" /\ all_chars is_digit ds /\
    starts_digit rest = false.

(** [ds] is the capture of the leftmost match in [s]. *)
Definition first_page (s ds : string) : Prop :=
  exists pre s', s = (pre ++ s')%string /\ match_front s' ds /\
    forall pre' s'', s = (pre' ++ s'')%string ->
      String.length pre' < String.length pre -> forall ds', ~ match_front s'' ds'.

(** The pattern matches nowhere in [s]. *)
Definition no_page (s : string) : Prop :=
  forall pre s' ds, s = (pre ++ s')%string -> ~ match_front s' ds.

End Query.

(* ------------------------------------------------------------------ *)
(** ** [HighlightSelector] (src/unnamed/part_007) *)

Module Selector.
Import Js Aux Db.

(** *** Numbers with NaN *)

Definition oadd (a b : option Q) : option Q :=
  match a, b with Some x, Some y => Some (x + y)%Q | _, _ => None end.
Definition omul (a b : option Q) : option Q :=
  match a, b with Some x, Some y => Some (x * y)%Q | _, _ => None end.
(** Division; the divisors here are non-zero constants and ladder steps. *)
Definition odiv (a b : option Q) : option Q :=
  match a, b with
  | Some x, Some y => if Qeq_bool y 0 then None else Some (x / y)%Q
  | _, _ => None
  end.
(** [a > b]; false on NaN. *)
Definition ogt (a b : option Q) : bool :=
  match a, b with Some x, Some y => negb (Qle_bool x y) | _, _ => false end.
(** [Math.max(0, a)]; NaN stays NaN. *)
Definition omax0 (a : option Q) : option Q :=
  match a with Some x => Some (Qmax 0 x) | None => None end.
Definition cst (q : Q) : option Q := Some q.

Definition day_ms : Q := inject_Z 86400000.

(** *** The random source *)

(** A computation that reads [Math.random()]: the [k]-th call returns
    [rnd k]; it may throw. *)
Definition M (A : Type) : Type := (nat -> Q) -> nat -> result (A * nat).

#[global] Instance M_ret : MRet M := fun A x rnd k => Ok (x, k).
#[global] Instance M_bind : MBind M := fun A B f m rnd k =>
  match m rnd k with Ok (a, k') => f a rnd k' | Err e => Err e end.

Definition random : M Q := fun rnd k => Ok (rnd k, S k).
Definition lift {A} (r : result A) : M A :=
  fun _ k => match r with Ok a => Ok (a, k) | Err e => Err e end.

(** [Math.floor(Math.random() * len)] *)
Definition rand_index (r : Q) (len : nat) : nat :=
  Z.to_nat (Qfloor (r * inject_Z (Z.of_nat len))).

Fixpoint mapM {A B} (f : A -> M B) (l : list A) : M (list B) :=
  match l with
  | [] => mret []
  | x :: r => y ← f x; ys ← mapM f r; mret (y :: ys)
  end.

(** *** Field tests that may throw *)

(** [h.note && h.note.trim()] as a boolean; [trim] only exists on strings. *)
Fixpoint has_non_space (s : string) : bool :=
  match s with
  | EmptyString => false
  | String c r => negb (Query.is_space c) || has_non_space r
  end.

Definition note_nonblank (h : obj) : result bool :=
  let n := get h "note" in
  if truthy n then
    match n with
    | JStr s => Ok (has_non_space s)
    | _ => Err "TypeError: highlight.note.trim is not a function"
    end
  else Ok false.

(** [h.tags && h.tags.length > 0] as a boolean. *)
Definition has_tags (h : obj) : bool :=
  let t := get h "tags" in
  truthy t &&
  match t with
  | JArr l => Nat.ltb 0 (length l)
  | JStr s => Nat.ltb 0 (String.length s)
  | _ => false
  end.

(** *** Spaced repetition *)

Definition spacedRepetitionIntervals : list Z := [1; 3; 7; 14; 30; 90; 180; 365]%Z.

(** [this.spacedRepetitionIntervals[Math.min(timesShown, 7)]] *)
Definition targetInterval (timesShown : option Q) : option Q :=
  match timesShown with
  | None => None
  | Some t =>
      let i := Qfloor (Qmin t 7) in
      if Qeq_bool (inject_Z i) (Qmin t 7) && (0 <=? i)%Z
      then option_map inject_Z (spacedRepetitionIntervals !! Z.to_nat i)
      else None
  end.

(** [(now - lastShown) / (24*60*60*1000)] when [lastShown > 0], else 999. *)
Definition daysSinceLastShown (h : obj) (now : Z) : option Q :=
  let lastShown := to_num (js_or (get h "lastShown") (JNum 0)) in
  if ogt lastShown (cst 0)
  then odiv (oadd (cst (inject_Z now)) (omul (cst (-1)) lastShown)) (cst day_ms)
  else cst 999.

(** The overdue ratio [daysSinceLastShown / targetInterval]. *)
Definition overdueRatio (h : obj) (now : Z) : option Q :=
  let timesShown := to_num (js_or (get h "timesShown") (JNum 0)) in
  odiv (daysSinceLastShown h now) (targetInterval timesShown).

(** [calculateSpacedRepetitionScore] up to the random tie-breaker. *)
Definition sr_base (h : obj) (now : Z) : result (option Q) :=
  let timesShown := to_num (js_or (get h "timesShown") (JNum 0)) in
  let score := overdueRatio h now in
  withNote ← note_nonblank h;
  let score := if (withNote : bool) then omul score (cst (3 # 2)) else score in
  let score := if has_tags h then omul score (cst (6 # 5)) else score in
  let score := if ogt timesShown (cst 5) then omul score (cst (4 # 5)) else score in
  Ok score.

(** [calculateSpacedRepetitionScore(highlight, now)] *)
Definition calculateSpacedRepetitionScore (h : obj) (now : Z) : M (option Q) :=
  score ← lift (sr_base h now);
  r ← random;
  mret (oadd score (cst (r * (1 # 10)))).

Definition by_score_desc (key : string) (a b : obj) : Q :=
  num_diff (to_num (get b key)) (to_num (get a key)).

(** [for (i = 0; i < Math.min(count, candidatesCopy.length); i++)
      selected.push(candidatesCopy.splice(randomIndex, 1)[0])];
    [fuel] is [count - i], so [i < count] is [fuel > 0]; the bound is
    re-read against the shrinking copy at each test. *)
Fixpoint sr_pick (fuel i : nat) (copy : list obj) : M (list obj) :=
  match fuel with
  | O => mret []
  | S f =>
      if Nat.ltb i (length copy) then
        r ← random;
        let idx := rand_index r (length copy) in
        match copy !! idx with
        | Some x => rest ← sr_pick f (S i) (delete idx copy); mret (x :: rest)
        | None => mret []   (* not reached while Math.random() is in [0,1) *)
        end
      else mret []
  end.

(** [selectBySpacedRepetition(highlights, count)] *)
Definition selectBySpacedRepetition (now : Z) (hs : list obj) (count : nat) : M (list obj) :=
  scored ← mapM (fun h => s ← calculateSpacedRepetitionScore h now;
                          mret (<["spacedRepetitionScore" := of_num s]> h)) hs;
  let sorted := sort_by (by_score_desc "spacedRepetitionScore") scored in
  let topCandidates := take (Nat.min (count * 2) (length sorted)) sorted in
  sr_pick count 0 topCandidates.

(** *** Weighted score *)

(** [calculateWeightedScore(highlight, now)] with weights
    0.4 / 0.2 / 0.15 / 0.1 / 0.1 / 0.05. *)
Definition calculateWeightedScore (h : obj) (now : Z) : M (option Q) :=
  spacedScore ← calculateSpacedRepetitionScore h now;
  let total := omul spacedScore (cst (2 # 5)) in
  withNote ← lift (note_nonblank h);
  let total := oadd total (cst (if (withNote : bool) then 1 # 5 else 0)) in
  let days := odiv (oadd (cst (inject_Z now))
                         (omul (cst (-1)) (to_num (get h "dateHighlighted")))) (cst day_ms) in
  let recency := omax0 (oadd (cst 1) (omul (cst (-1)) (odiv days (cst 365)))) in
  let total := oadd total (omul recency (cst (3 # 20))) in
  let timesShown := to_num (js_or (get h "timesShown") (JNum 0)) in
  let frequency := omax0 (oadd (cst 1) (omul (cst (-1)) (odiv timesShown (cst 10)))) in
  let total := oadd total (omul frequency (cst (1 # 10))) in
  let total := oadd total (cst (if has_tags h then 1 # 10 else 0)) in
  r ← random;
  mret (oadd total (cst (r * (1 # 20)))).

(** [selectByWeightedScore(highlights, count)] *)
Definition selectByWeightedScore (now : Z) (hs : list obj) (count : nat) : M (list obj) :=
  scored ← mapM (fun h => s ← calculateWeightedScore h now;
                          mret (<["weightedScore" := of_num s]> h)) hs;
  mret (take count (sort_by (by_score_desc "weightedScore") scored)).

(** *** Random, oldest-first and newest-first *)

(** [sort] with a comparator that reads [Math.random()], called in
    insertion-sort order. *)
Fixpoint insert_m {A} (cmp : A -> A -> M Q) (x : A) (l : list A) : M (list A) :=
  match l with
  | [] => mret [x]
  | y :: r =>
      c ← cmp x y;
      if Qlt_le_dec c 0 then mret (x :: y :: r)
      else r' ← insert_m cmp x r; mret (y :: r')
  end.

Fixpoint sort_m_go {A} (cmp : A -> A -> M Q) (acc l : list A) : M (list A) :=
  match l with
  | [] => mret acc
  | x :: r => acc' ← insert_m cmp x acc; sort_m_go cmp acc' r
  end.

(** [[...highlights].sort(() => Math.random() - 0.5).slice(0, count)] *)
Definition selectRandomly (hs : list obj) (count : nat) : M (list obj) :=
  shuffled ← sort_m_go (fun _ _ => (r ← random; mret (r - (1 # 2))%Q) : M Q) [] hs;
  mret (take count shuffled).

Definition dateHighlighted (h : obj) : option Q := to_num (get h "dateHighlighted").

(** [selectOldestFirst] / [selectNewestFirst] *)
Definition selectOldestFirst (hs : list obj) (count : nat) : list obj :=
  take count (sort_by (fun a b => num_diff (dateHighlighted a) (dateHighlighted b)) hs).

Definition selectNewestFirst (hs : list obj) (count : nat) : list obj :=
  take count (sort_by (fun a b => num_diff (dateHighlighted b) (dateHighlighted a)) hs).

(** *** Most-highlighted books (round robin over the books) *)

(** [bookGroups[highlight.bookAsin].push(highlight)]; the entries keep
    insertion order (no book key here is an array index). *)
Fixpoint add_to_group (k : string) (h : obj) (gs : list (string * list obj))
  : list (string * list obj) :=
  match gs with
  | [] => [(k, [h])]
  | (k', g) :: r => if String.eqb k k' then (k', app g [h]) :: r
                    else (k', g) :: add_to_group k h r
  end.

Definition bookGroups (hs : list obj) : list (string * list obj) :=
  foldl (fun gs h => add_to_group (to_string (get h "bookAsin")) h gs) [] hs.

(** [Object.entries(bookGroups).sort(([, a], [, b]) => b.length - a.length)] *)
Definition sortedBooks (hs : list obj) : list (string * list obj) :=
  sort_by (fun a b => inject_Z (Z.of_nat (length b.2) - Z.of_nat (length a.2)))
    (bookGroups hs).

Definition unshown (bh : list obj) : list obj :=
  List.filter (fun h => negb (truthy (get h "lastShown"))) bh.

(** One pass of the [while] body from book [bi]: the new [selected]. *)
Definition mh_pick (r : Q) (bh : list obj) (selected : list obj) : list obj :=
  let u := unshown bh in
  let candidate :=
    if Nat.ltb 0 (length u) then u !! rand_index r (length u)
    else bh !! rand_index r (length bh) in
  match candidate with
  | Some c =>
      if existsb (fun s => strict_eq (get s "id") (get c "id")) selected
      then selected else app selected [c]
  | None => selected
  end.

(** The [while (selected.length < count && bookIndex < sortedBooks.length)]
    loop, run for at most [fuel] iterations; [None] when it has not left
    the loop by then. *)
Fixpoint mh_loop (fuel count : nat) (books : list (string * list obj))
    (selected : list obj) (bookIndex : nat) : M (option (list obj)) :=
  match fuel with
  | O => mret None
  | S f =>
      if Nat.ltb (length selected) count && Nat.ltb bookIndex (length books) then
        match books !! bookIndex with
        | Some (_, bh) =>
            r ← random;
            let selected' := mh_pick r bh selected in
            let bookIndex' := S bookIndex in
            let bookIndex'' :=
              if Nat.leb (length books) bookIndex' && Nat.ltb (length selected') count
              then 0%nat else bookIndex' in
            mh_loop f count books selected' bookIndex''
        | None => mret None   (* not reached: bookIndex < length books *)
        end
      else mret (Some selected)
  end.

(** [selectFromMostHighlightedBooks(highlights, count)] *)
Definition selectFromMostHighlightedBooks (fuel : nat) (hs : list obj) (count : nat)
  : M (option (list obj)) :=
  mh_loop fuel count (sortedBooks hs) [] 0.

(** *** Filtering and dispatch *)

(** The [userSettings] read by the selector; an empty list stands for an
    absent or empty preference array. *)
Record settings : Type := mkSettings {
  preferredBooks : list jsval;
  preferredColors : list jsval;
  minHighlightAge : jsval;
  requiredTags : list jsval;
  highlightSelectionMode : jsval
}.

(** [arr.includes(v)] *)
Definition arr_includes (l : list jsval) (v : jsval) : bool :=
  existsb (fun x => same_value_zero x v) l.

(** [a <= b]; false on NaN. *)
Definition ole (a b : option Q) : bool :=
  match a, b with Some x, Some y => Qle_bool x y | _, _ => false end.

(** The [requiredTags] test of one highlight. *)
Definition tags_ok (req : list jsval) (h : obj) : result bool :=
  let t := get h "tags" in
  if negb (truthy t) then Ok false else
  match t with
  | JArr [] => Ok false
  | JArr l => Ok (existsb (fun tag => arr_includes l tag) req)
  | JStr s => Ok (existsb (fun tag => includes s (to_string tag)) req)
  | _ => Err "TypeError: h.tags.includes is not a function"
  end.

(** [filterHighlights(highlights, userSettings)] *)
Definition filterHighlights (now : Z) (st : settings) (hs : list obj) : result (list obj) :=
  let f1 := match preferredBooks st with
            | [] => hs
            | pb => List.filter (fun h => arr_includes pb (get h "bookAsin")) hs
            end in
  let f2 := match preferredColors st with
            | [] => f1
            | pc => List.filter (fun h => arr_includes pc (get h "color")) f1
            end in
  let minAge := to_num (js_or (minHighlightAge st) (JNum 0)) in
  let f3 := if ogt minAge (cst 0) then
              let minDate := oadd (cst (inject_Z now)) (omul (cst (-1)) (omul minAge (cst day_ms))) in
              List.filter (fun h => ole (dateHighlighted h) minDate) f2
            else f2 in
  match requiredTags st with
  | [] => Ok f3
  | req => filter_r (tags_ok req) f3
  end.

(** [selectByAlgorithm(highlights, count, algorithm)]; [None] when the
    most-highlighted loop has not finished within [fuel] iterations. *)
Definition selectByAlgorithm (fuel : nat) (now : Z) (hs : list obj) (count : nat)
    (algorithm : jsval) : M (option (list obj)) :=
  let some_of (m : M (list obj)) : M (option (list obj)) := l ← m; mret (Some l) in
  match algorithm with
  | JStr "random" => some_of (selectRandomly hs count)
  | JStr "oldest-first" => mret (Some (selectOldestFirst hs count))
  | JStr "newest-first" => mret (Some (selectNewestFirst hs count))
  | JStr "most-highlighted" => selectFromMostHighlightedBooks fuel hs count
  | JStr "weighted-smart" => some_of (selectByWeightedScore now hs count)
  | _ => some_of (selectBySpacedRepetition now hs count)
  end.

(** The object [selectHighlights] resolves with. *)
Record sel_result : Type := mkSel { status : string; selected : list obj }.

(** [selectHighlights(count, userSettings)]: [None] when it does not
    return within [fuel] loop iterations; a thrown error is caught and
    reported as [status: 'error']. [rnd] and [k] give [Math.random()]. *)
Definition selectHighlights (fuel : nat) (now : Z) (count : nat) (st : settings)
    (d : db) (rnd : nat -> Q) (k : nat) : option sel_result :=
  let allHighlights := map snd (map_to_list (highlights d)) in
  match allHighlights with
  | [] => Some (mkSel "success" [])
  | _ =>
      match filterHighlights now st allHighlights with
      | Err _ => Some (mkSel "error" [])
      | Ok [] => Some (mkSel "success" [])
      | Ok filtered =>
          let mode := js_or (highlightSelectionMode st) (JStr "spaced-repetition") in
          match selectByAlgorithm fuel now filtered count mode rnd k with
          | Err _ => Some (mkSel "error" [])
          | Ok (None, _) => None
          | Ok (Some l, _) => Some (mkSel "success" l)
          end
      end
  end.

(** *** Show statistics *)

(** The loop of [markHighlightsAsShown(highlightIds)]; on a thrown error
    the loop stops with the updates made so far ([false]). *)
Fixpoint mark_loop (now : Z) (ids : list string) (d : db) : bool * db :=
  match ids with
  | [] => (true, d)
  | id :: r =>
      match getHighlight (JStr id) d with
      | Err _ => (false, d)
      | Ok None => mark_loop now r d
      | Ok (Some h) =>
          let updates : obj :=
            <["lastShown" := JNum now]>
              {[ "timesShown" := plus_num (js_or (get h "timesShown") (JNum 0)) 1 ]} in
          match updateHighlight id updates d with
          | Err _ => (false, d)
          | Ok d' => mark_loop now r d'
          end
      end
  end.

Definition markHighlightsAsShown (now : Z) (ids : list string) (d : db) : string * db :=
  let '(ok, d') := mark_loop now ids d in
  ((if ok then "success" else "error"), d').

End Selector.

(* ------------------------------------------------------------------ *)
(** ** More of [Database] (src/lib/database.js) *)

Module DbMore.
Import Js Aux Db Query.

(** [store.delete(key)]: deleting an absent key succeeds. *)
Definition store_delete (key : jsval) (st : gmap string obj) : result (gmap string obj) :=
  match key with
  | JStr k => Ok (delete k st)
  | _ => Err "DataError"
  end.

(** [deleteHighlight(id)] *)
Definition deleteHighlight (id : jsval) (d : db) : result db :=
  hs ← store_delete id (highlights d);
  Ok (mkDb (books d) hs).

(** [deleteBook(asin)] *)
Definition deleteBook (asin : jsval) (d : db) : result db :=
  bs ← store_delete asin (books d);
  Ok (mkDb bs (highlights d)).

(** [updateBook(asin, updates)]: [{...book, ...updates, lastUpdated: now}] *)
Definition updateBook (now : Z) (asin : jsval) (updates : obj) (d : db) : result db :=
  b ← getBook asin d;
  match b with
  | None => Err ("Book with ASIN " +:+ to_string asin +:+ " not found")
  | Some book =>
      bs ← put "asin" (<["lastUpdated" := JNum now]> (updates ∪ book)) (books d);
      Ok (mkDb bs (highlights d))
  end.

(** *** [cleanup(options)], its last phase

    With the default [removeOrphanedHighlights = true]; the two phases
    before it only delete from the sync and e-mail history stores. *)

(** [highlights.filter(h => !bookAsins.has(h.bookAsin))] with
    [bookAsins = new Set(books.map(book => book.asin))]. *)
Definition orphanedHighlights (d : db) : list obj :=
  let bookAsins := map (fun b => get b "asin") (map snd (map_to_list (books d))) in
  List.filter
    (fun h => negb (existsb (fun a => same_value_zero a (get h "bookAsin")) bookAsins))
    (map snd (map_to_list (highlights d))).

(** [for (h of orphaned) { await this.deleteHighlight(h.id); removed++; }] *)
Fixpoint delete_each (l : list obj) (removed : nat) (d : db) : result (nat * db) :=
  match l with
  | [] => Ok (removed, d)
  | h :: r => d' ← deleteHighlight (get h "id") d; delete_each r (S removed) d'
  end.

(** [results.orphanedHighlightsRemoved] and the store after the phase. *)
Definition cleanupOrphans (d : db) : result (nat * db) :=
  delete_each (orphanedHighlights d) 0 d.

(** *** [getHighlightsByBook(asin, sortBy = 'dateHighlighted')]

    The second definition in the class, which overrides the first. *)

(** [Array.prototype.sort] with a comparator that may throw: the same
    insertion order as [sort_by]. *)
Fixpoint insert_r {A} (cmp : A -> A -> result Q) (x : A) (l : list A) : result (list A) :=
  match l with
  | [] => Ok [x]
  | y :: r =>
      c ← cmp x y;
      if Qlt_le_dec c 0 then Ok (x :: y :: r)
      else r' ← insert_r cmp x r; Ok (y :: r')
  end.

Fixpoint sort_r_go {A} (cmp : A -> A -> result Q) (acc l : list A) : result (list A) :=
  match l with
  | [] => Ok acc
  | x :: r => acc' ← insert_r cmp x acc; sort_r_go cmp acc' r
  end.

Definition sort_r {A} (cmp : A -> A -> result Q) (l : list A) : result (list A) :=
  sort_r_go cmp [] l.

(** [index('bookAsin').openCursor(IDBKeyRange.only(asin))]: the records
    whose [bookAsin] is the key [asin], in primary-key order; string keys
    are ordered by code units. *)
Definition book_cursor (asin : string) (d : db) : list obj :=
  map snd (sort_by (fun a b => inject_Z (codeUnitCompare a.1 b.1))
    (List.filter (fun kh => strict_eq (get kh.2 "bookAsin") (JStr asin))
       (map_to_list (highlights d)))).

Section Collation.

(** The host's [String.prototype.localeCompare], as in [Query]. *)
Variable localeCompare : string -> string -> Z.

(** The comparator of the [switch (sortBy)]. *)
Definition by_book_cmp (sortBy : string) (a b : obj) : result Q :=
  if String.eqb sortBy "location" then
    c ← location_cmp localeCompare a b; Ok (inject_Z c)
  else if String.eqb sortBy "dateAdded" then
    Ok (num_diff (to_num (get b "dateAdded")) (to_num (get a "dateAdded")))
  else if String.eqb sortBy "color" then
    match get a "color" with
    | JStr ca => Ok (inject_Z (localeCompare ca (to_string (get b "color"))))
    | _ => Err "TypeError: a.color.localeCompare is not a function"
    end
  else Ok (num_diff (to_num (get b "dateHighlighted")) (to_num (get a "dateHighlighted"))).

Definition getHighlightsByBook (asin : string) (sortBy : string) (d : db) : result (list obj) :=
  sort_r (by_book_cmp sortBy) (book_cursor asin d).

End Collation.

(** *** Statistics helpers *)

(** [Math.round(x)] *)
Definition js_round (x : Q) : Z := Qfloor (x + (1 # 2)).

(** [bookHighlightCounts[k] = (bookHighlightCounts[k] || 0) + 1]; entries in
    insertion order (as for [bookGroups]). *)
Fixpoint bump (k : string) (counts : list (string * Z)) : list (string * Z) :=
  match counts with
  | [] => [(k, 1%Z)]
  | (k', c) :: r => if String.eqb k k' then (k', (c + 1)%Z) :: r else (k', c) :: bump k r
  end.

Definition bookHighlightCounts (hs : list obj) : list (string * Z) :=
  foldl (fun acc h => bump (to_string (get h "bookAsin")) acc) [] hs.

(** The object [findMostHighlightedBook] returns. *)
Record most_book : Type := mkMostBook {
  mb_asin : jsval; mb_title : jsval; mb_author : jsval; mb_count : Z
}.

(** The [for ... of Object.entries(bookHighlightCounts)] loop:
    [(maxCount, mostHighlightedAsin)]. *)
Fixpoint max_entry (entries : list (string * Z)) (maxCount : Z) (best : option string)
  : Z * option string :=
  match entries with
  | [] => (maxCount, best)
  | (asin, c) :: r =>
      if Z.ltb maxCount c then max_entry r c (Some asin) else max_entry r maxCount best
  end.

(** [findMostHighlightedBook(books, bookHighlightCounts)]; [None] is [null]. *)
Definition findMostHighlightedBook (books : list obj) (entries : list (string * Z))
  : option most_book :=
  let '(maxCount, best) := max_entry entries 0 None in
  match best with
  | Some asin =>
      if truthy (JStr asin) then
        match List.find (fun b => strict_eq (get b "asin") (JStr asin)) books with
        | Some book => Some (mkMostBook (get book "asin") (get book "title")
                                        (get book "author") maxCount)
        | None => None
        end
      else None
  | None => None
  end.

Record book_stats : Type := mkBookStats {
  booksWithHighlights : nat;
  averageHighlightsPerBook : Q;
  mostHighlightedBook : option most_book;
  booksWithoutHighlights : Z
}.

(** [calculateBookStats(books, highlights)] *)
Definition calculateBookStats (books : list obj) (hs : list obj) : book_stats :=
  let counts := bookHighlightCounts hs in
  let highlightCounts := map snd counts in
  mkBookStats (length counts)
    (if Nat.ltb 0 (length highlightCounts)
     then (inject_Z (js_round (inject_Z (foldl Z.add 0%Z highlightCounts)
                                / inject_Z (Z.of_nat (length highlightCounts)) * 10)) / 10)%Q
     else 0%Q)
    (findMostHighlightedBook books counts)
    (Z.of_nat (length books) - Z.of_nat (length counts)).

Record time_stats : Type := mkTimeStats {
  oldestHighlight : jsval;
  newestHighlight : jsval;
  highlightingSpan : option Q;
  averageHighlightsPerDay : option Q;
  lastSyncStatus : jsval;
  totalSyncs : option nat   (* absent from the object for no highlights *)
}.

(** [Math.max(1, Math.ceil(x))] on a number or NaN. *)
Definition span_of (x : option Q) : option Q :=
  match x with
  | Some q => Some (Qmax 1 (inject_Z (Qceiling q)))
  | None => None
  end.

(** [calculateTimeStats(highlights, syncHistory)] *)
Definition calculateTimeStats (hs : list obj) (syncHistory : list obj) : time_stats :=
  match hs with
  | [] => mkTimeStats JNull JNull (Some 0%Q) (Some 0%Q) (JStr "never_synced") None
  | _ =>
      let dates := List.filter truthy (map (fun h => get h "dateHighlighted") hs) in
      let sorted := sort_by (fun a b => num_diff (to_num a) (to_num b)) dates in
      let oldest := match sorted with [] => JUndef | x :: _ => x end in
      let newest := match last sorted with Some x => x | None => JUndef end in
      let spanDays :=
        span_of (match to_num newest, to_num oldest with
                 | Some n, Some o => Some ((n - o) / inject_Z 86400000)%Q
                 | _, _ => None
                 end) in
      let avg :=
        match spanDays with
        | Some s => Some (inject_Z (js_round (inject_Z (Z.of_nat (length hs)) / s * 10)) / 10)%Q
        | None => None
        end in
      mkTimeStats oldest newest spanDays avg
        (match syncHistory with [] => JStr "never_synced" | s :: _ => get s "status" end)
        (Some (length syncHistory))
  end.

(** *** [generateUUID()]

    ['xxxxxxxx-xxxx-4xxx-yxxx-xxxxxxxxxxxx'.replace(/[xy]/g, c => ...)]
    with [r = Math.random() * 16 | 0] and [v = c === 'x' ? r : (r & 0x3 | 0x8)]. *)

(** ['x'] is character 120, ['y'] 121 and ['-'] 45. *)
Definition uuid_template : string := "xxxxxxxx-xxxx-4xxx-yxxx-xxxxxxxxxxxx".

(** ToInt32 *)
Definition to_int32 (z : Z) : Z := (Z.modulo (z + 2 ^ 31) (2 ^ 32) - 2 ^ 31)%Z.

(** [x | 0] on a number: truncation towards zero, then ToInt32. *)
Definition or_zero (x : Q) : Z :=
  to_int32 (if Qle_bool 0 x then Qfloor x else (- Qfloor (- x))%Z).

(** The digit [n] (from 0 to 35) as [Number.prototype.toString] prints it. *)
Definition digit_char (n : Z) : Ascii.ascii :=
  if Z.ltb n 10 then Ascii.ascii_of_nat (48 + Z.to_nat n)
  else Ascii.ascii_of_nat (87 + Z.to_nat n).

(** [n.toString(16)] for [0 <= n < 16], the only case here where it is
    given a non-negative number; a negative [n] prints with a minus sign. *)
Definition hex_string (n : Z) : string :=
  if Z.ltb n 0 then String (Ascii.ascii_of_nat 45) (String (digit_char (- n)) EmptyString)
  else String (digit_char n) EmptyString.

Fixpoint uuid_fill (t : string) : Selector.M string :=
  match t with
  | EmptyString => mret EmptyString
  | String c r =>
      if Ascii.eqb c (Ascii.ascii_of_nat 120) || Ascii.eqb c (Ascii.ascii_of_nat 121) then
        rnd ← Selector.random;
        let r16 := or_zero (rnd * 16)%Q in
        let v := if Ascii.eqb c (Ascii.ascii_of_nat 120) then r16 else Z.lor (Z.land r16 3) 8 in
        rest ← uuid_fill r;
        mret (hex_string v +:+ rest)
      else
        rest ← uuid_fill r;
        mret (String c rest)
  end.

Definition generateUUID : Selector.M string := uuid_fill uuid_template.

End DbMore.

(* ------------------------------------------------------------------ *)
(** ** [KindleParser] helpers (src/content-scripts/parser.js) *)

Module Parser.
Import Js Query DbMore.

(** [simpleHash(str)]: [hash = ((hash << 5) - hash) + char; hash = hash & hash]
    over the character codes, then [Math.abs(hash)]. [<<] and [&] work on
    ToInt32 of their operands; the subtraction and the addition are exact. *)
Definition hash_step (hash : Z) (c : Ascii.ascii) : Z :=
  to_int32 (to_int32 (to_int32 hash * 32) - hash + Z.of_nat (Ascii.nat_of_ascii c)).

Definition simpleHash (str : string) : Z :=
  Z.abs (foldl hash_step 0%Z (String.list_ascii_of_string str)).

(** [n.toString(36)] for [n >= 0]: one digit per division by 36; the
    number of digits is at most the number of bits. *)
Fixpoint radix36_go (fuel : nat) (n : Z) (acc : string) : string :=
  match fuel with
  | O => acc
  | S f =>
      let acc' := String (digit_char (n mod 36)) acc in
      if Z.ltb n 36 then acc' else radix36_go f (n / 36) acc'
  end.

Definition radix36 (n : Z) : string := radix36_go (S (Z.to_nat (Z.log2 n))) n EmptyString.

(** ASCII [toUpperCase] *)
Definition upper_char (c : Ascii.ascii) : Ascii.ascii :=
  let n := Ascii.nat_of_ascii c in
  if (97 <=? n)%nat && (n <=? 122)%nat then Ascii.ascii_of_nat (n - 32)%nat else c.

Fixpoint upper (s : string) : string :=
  match s with
  | EmptyString => EmptyString
  | String c r => String (upper_char c) (upper r)
  end.

(** [s.padStart(9, '0')] *)
Definition padStart9 (s : string) : string :=
  if (9 <=? String.length s)%nat then s
  else String.append (String.string_of_list_ascii (repeat (Ascii.ascii_of_nat 48) (9 - String.length s))) s.

(** [generatePseudoASIN(title)] *)
Definition generatePseudoASIN (title : string) : string :=
  String (Ascii.ascii_of_nat 66)
    (String.substring 0 9 (padStart9 (upper (radix36 (simpleHash (lower title)))))).

(** [s.replace(/^book-/, '')] *)
Definition strip_book (s : string) : string :=
  if starts_with "book-" s then String.substring 5 (String.length s - 5) s else s.

(** Line terminators, which [.] does not match. *)
Definition is_line_terminator (c : Ascii.ascii) : bool :=
  let n := Ascii.nat_of_ascii c in (n =? 10)%nat || (n =? 13)%nat.

(** [s.replace(/_.*$/, '')]: the leftmost ['_'] after which no line
    terminator follows starts the match, which runs to the end. *)
Fixpoint cut_underscore (s : string) : string :=
  match s with
  | EmptyString => EmptyString
  | String c r =>
      if Ascii.eqb c (Ascii.ascii_of_nat 95) &&
         negb (existsb is_line_terminator (String.list_ascii_of_string r))
      then EmptyString else String c (cut_underscore r)
  end.

Definition is_upper_or_digit (c : Ascii.ascii) : bool :=
  let n := Ascii.nat_of_ascii c in
  is_digit c || ((65 <=? n)%nat && (n <=? 90)%nat).

(** [/^[B][0-9A-Z]{9}$/.test(s)] *)
Definition asin_shape (s : string) : bool :=
  match s with
  | String c r => Ascii.eqb c (Ascii.ascii_of_nat 66) && (String.length r =? 9)%nat &&
                  forallb is_upper_or_digit (String.list_ascii_of_string r)
  | EmptyString => false
  end.

(** [isValidASIN(asin)] *)
Definition isValidASIN (asin : string) : bool := asin_shape (cut_underscore (strip_book asin)).

(** *** [cleanText(text)]

    [text.trim().replace(/\s+/g, ' ')]; the four replacements after it
    change nothing in ASCII text (the two character classes hold only the
    character they put back, and the other two patterns are not ASCII). *)

Fixpoint trim_end (s : string) : string :=
  match s with
  | EmptyString => EmptyString
  | String c r =>
      let r' := trim_end r in
      if is_space c && String.eqb r' "" then EmptyString else String c r'
  end.

Definition trim (s : string) : string := trim_end (skip_spaces s).

(** [replace(/\s+/g, ' ')]; [in_run] is set inside a run of white space. *)
Fixpoint collapse_go (in_run : bool) (s : string) : string :=
  match s with
  | EmptyString => EmptyString
  | String c r =>
      if is_space c then
        (if in_run then collapse_go true r
         else String (Ascii.ascii_of_nat 32) (collapse_go true r))
      else String c (collapse_go false r)
  end.

Definition cleanText (text : jsval) : result string :=
  if negb (truthy text) then Ok ""
  else match text with
       | JStr s => Ok (collapse_go false (trim s))
       | _ => Err "TypeError: text.trim is not a function"
       end.

(** *** [extractPageNumber(location)] of the parser *)

(** [(?:location|loc\.?)\s*(\d+)] at the front of [s], case-insensitive. *)
Definition loc_match_at (s : string) : option string :=
  match lit_ci "location" s ≫= space_digits with
  | Some ds => Some ds
  | None =>
      match lit_ci "loc." s ≫= space_digits with
      | Some ds => Some ds
      | None => lit_ci "loc" s ≫= space_digits
      end
  end.

Fixpoint extractLocationNumber (location : string) : option string :=
  match loc_match_at location with
  | Some ds => Some ds
  | None =>
      match location with
      | String _ r => extractLocationNumber r
      | EmptyString => None
      end
  end.

(** The page pattern is the one of [Database.extractPageNumber]. *)
Definition extractPageNumber (location : jsval) : result string :=
  if negb (truthy location) then Ok ""
  else match location with
       | JStr s =>
           match Query.extractPageNumber s with
           | Some p => Ok p
           | None =>
               match extractLocationNumber s with
               | Some l => Ok ("loc:" +:+ l)
               | None => Ok s
               end
           end
       | _ => Err "TypeError: location.match is not a function"
       end.

(** *** [extractTags(text, note)] *)

(** A token of the five tag patterns: a literal or [\s*]. *)
Inductive tok : Type := Lit (w : string) | Spaces.

(** [\w] *)
Definition is_word (c : Ascii.ascii) : bool :=
  let n := Ascii.nat_of_ascii c in
  is_digit c || ((65 <=? n)%nat && (n <=? 90)%nat) || ((97 <=? n)%nat && (n <=? 122)%nat)
  || (n =? 95)%nat.

Definition word_at (s : string) (i : nat) : bool :=
  match String.get i s with Some c => is_word c | None => false end.

(** [\b] at position [i] *)
Definition boundary (s : string) (i : nat) : bool :=
  match i with
  | O => word_at s 0
  | S j => xorb (word_at s j) (word_at s i)
  end.

Fixpoint spaces_from (s : string) (i : nat) (fuel : nat) : nat :=
  match fuel with
  | O => 0
  | S f => match String.get i s with
           | Some c => if is_space c then S (spaces_from s (S i) f) else 0
           | None => 0
           end
  end.

(** The end positions of the matches of a token sequence from [i], in
    backtracking order ([\s*] is greedy). *)
Fixpoint match_toks (ts : list tok) (s : string) (i : nat) : list nat :=
  match ts with
  | [] => [i]
  | Lit w :: r =>
      if String.eqb (String.substring i (String.length w) s) w
      then match_toks r s (i + String.length w) else []
  | Spaces :: r =>
      let n := spaces_from s i (String.length s) in
      flat_map (fun k => match_toks r s (i + k)) (rev (seq 0 (S n)))
  end.

(** [/\b(alt1|alt2|...)\b/.test(s)] *)
Definition regex_test (alts : list (list tok)) (s : string) : bool :=
  existsb (fun i => boundary s i &&
             existsb (fun alt => existsb (boundary s) (match_toks alt s i)) alts)
    (seq 0 (S (String.length s))).

(** The five patterns: their [source] and their alternatives. *)
Definition tagPatterns : list (string * list (list tok)) :=
  [ ("\b(important|key|critical|remember)\b",
       [[Lit "important"]; [Lit "key"]; [Lit "critical"]; [Lit "remember"]]);
    ("\b(quote|quotation)\b", [[Lit "quote"]; [Lit "quotation"]]);
    ("\b(idea|concept|theory)\b", [[Lit "idea"]; [Lit "concept"]; [Lit "theory"]]);
    ("\b(todo|action|follow\s*up)\b",
       [[Lit "todo"]; [Lit "action"]; [Lit "follow"; Spaces; Lit "up"]]);
    ("\b(question|doubt|unclear)\b", [[Lit "question"]; [Lit "doubt"]; [Lit "unclear"]]) ].

Definition is_lower (c : Ascii.ascii) : bool :=
  let n := Ascii.nat_of_ascii c in (97 <=? n)%nat && (n <=? 122)%nat.

(** [source.replace(/\\b|\(|\)|[^a-z|]/g, '')] *)
Fixpoint strip_source (s : string) : string :=
  match s with
  | EmptyString => EmptyString
  | String c r =>
      let n := Ascii.nat_of_ascii c in
      match r with
      | String d r' =>
          if (n =? 92)%nat && (Ascii.nat_of_ascii d =? 98)%nat then strip_source r'
          else if is_lower c || (n =? 124)%nat then String c (strip_source r) else strip_source r
      | EmptyString =>
          if is_lower c || (n =? 124)%nat then String c EmptyString else EmptyString
      end
  end.

(** [.split('|')[0]] *)
Fixpoint before_bar (s : string) : string :=
  match s with
  | EmptyString => EmptyString
  | String c r => if (Ascii.nat_of_ascii c =? 124)%nat then EmptyString else String c (before_bar r)
  end.

Definition tag_name (source : string) : string := before_bar (strip_source source).

(** [extractTags(text, note)] *)
Definition extractTags (text note : jsval) : list string :=
  let combinedText := lower (to_string text +:+ " " +:+ to_string note) in
  map (fun p => tag_name p.1) (List.filter (fun p => regex_test p.2 combinedText) tagPatterns).

(** *** [generateHighlightId(text, bookAsin)] *)

Definition is_alnum_lower (c : Ascii.ascii) : bool := is_lower c || is_digit c.

Fixpoint keep_alnum (s : string) : string :=
  match s with
  | EmptyString => EmptyString
  | String c r => if is_alnum_lower c then String c (keep_alnum r) else keep_alnum r
  end.

(** [`highlight_${bookAsin}_${simpleHash(text.toLowerCase().replace(/[^a-z0-9]/g, '') + bookAsin)}`] *)
Definition generateHighlightId (text bookAsin : jsval) : result string :=
  t ← toLowerCase text;
  let cleanText := keep_alnum t in
  let hash := simpleHash (cleanText +:+ to_string bookAsin) in
  Ok ("highlight_" +:+ to_string bookAsin +:+ "_" +:+ num_to_string hash).

End Parser.

(* ------------------------------------------------------------------ *)
(** ** Shapes of stored records *)

Module Shapes.
Import Js Db Snapshot.

(** All the records one import pass looked at. *)
Definition total (c : counts) : nat := imported c + skipped c + errors c.

(** The fields [addBook] and [addHighlight] always set. *)
Definition book_fields : list string :=
  ["asin"; "title"; "author"; "coverUrl"; "lastUpdated"].

Definition highlight_fields : list string :=
  ["id"; "bookAsin"; "text"; "location"; "page"; "dateHighlighted"; "dateAdded";
   "color"; "note"; "tags"; "lastSentInEmail"].

(** A store as [addBook] and [addHighlight] leave it: every record under its
    own key, with all the fields these two functions set. *)
Definition well_formed (d : db) : Prop :=
  map_Forall (fun k b => get b "asin" = JStr k /\ Forall (fun f => is_Some (b !! f)) book_fields)
    (books d) /\
  map_Forall (fun k h => get h "id" = JStr k /\ Forall (fun f => is_Some (h !! f)) highlight_fields)
    (highlights d).

End Shapes.

(* ------------------------------------------------------------------ *)
(** ** Facts about the helpers *)

Module AuxFacts.
Import Js Aux.

Lemma elem_of_insert_by {A} (cmp : A -> A -> Q) x (l : list A) y :
  y ∈ insert_by cmp x l <-> y = x \/ y ∈ l.
Proof.
  induction l as [|z r IH]; simpl.
  - rewrite list_elem_of_singleton. split; [tauto|intros [->|H]; [done|inversion H]].
  - destruct (Qlt_le_dec (cmp x z) 0); rewrite !elem_of_cons; try rewrite IH; tauto.
Qed.

Lemma length_insert_by {A} (cmp : A -> A -> Q) x (l : list A) :
  length (insert_by cmp x l) = S (length l).
Proof.
  induction l as [|z r IH]; simpl; [done|].
  destruct (Qlt_le_dec (cmp x z) 0); simpl; auto.
Qed.

Lemma sort_by_perm {A} (cmp : A -> A -> Q) (l : list A) : sort_by cmp l ≡ₚ l.
Proof.
  unfold sort_by.
  assert (Hg : forall acc, fold_left (fun acc x => insert_by cmp x acc) l acc ≡ₚ l ++ acc).
  { induction l as [|x r IH]; intros acc; simpl; [done|].
    rewrite IH.
    assert (Hi : insert_by cmp x acc ≡ₚ x :: acc).
    { clear. induction acc as [|z r IH]; simpl; [done|].
      destruct (Qlt_le_dec (cmp x z) 0); [done|].
      rewrite IH. apply Permutation_swap. }
    rewrite Hi. symmetry. apply Permutation_middle. }
  rewrite Hg. by rewrite app_nil_r.
Qed.

End AuxFacts.

(* ------------------------------------------------------------------ *)
(** ** Facts about the store *)

Module DbFacts.
Import Js Aux Db.

Lemma highlightData_id now uuid (h : obj) k :
  h !! "id" = Some (JStr k) -> get (highlightData now uuid h) "id" = JStr k.
Proof.
  intros H. unfold get, highlightData. by rewrite (lookup_union_Some_l _ _ _ _ H).
Qed.

Lemma addHighlight_ok now uuid (h : obj) k d :
  h !! "id" = Some (JStr k) ->
  addHighlight now uuid h d =
    Ok (mkDb (books d) (<[k := highlightData now uuid h]> (highlights d))).
Proof.
  intros H. unfold addHighlight, put. by rewrite (highlightData_id _ _ _ _ H).
Qed.

Lemma highlightData_dateAdded now uuid (h : obj) :
  h !! "dateAdded" = None -> get (highlightData now uuid h) "dateAdded" = JNum now.
Proof.
  intros H. unfold get, highlightData. rewrite (lookup_union_r _ _ _ H).
  by simplify_map_eq.
Qed.

Lemma foldl_delete_lookup (ids : list string) (st : gmap string obj) k :
  foldl (fun st id => delete id st) st ids !! k =
    if decide (k ∈ ids) then None else st !! k.
Proof.
  revert st. induction ids as [|x r IH]; intros st; simpl.
  - destruct (decide (k ∈ [])) as [Hin|]; [inversion Hin|done].
  - rewrite IH. destruct (decide (k ∈ r)) as [Hr|Hr];
      destruct (decide (k ∈ x :: r)) as [Hxr|Hxr]; try done.
    + exfalso. apply Hxr. by apply elem_of_cons; right.
    + destruct (decide (x = k)) as [->|Hne].
      * by rewrite lookup_delete_eq.
      * exfalso. apply elem_of_cons in Hxr. destruct Hxr; [congruence|done].
    + destruct (decide (x = k)) as [->|Hne].
      * exfalso. apply Hxr. by apply elem_of_cons; left.
      * by rewrite lookup_delete_ne.
Qed.

End DbFacts.

Module QueryFacts.
Import Js Aux Db Query.

Lemma filter_r_err {A} (p : A -> result bool) (l : list A) x e :
  In x l -> p x = Err e -> exists e', filter_r p l = Err e'.
Proof.
  induction l as [|y r IH]; simpl; [done|].
  intros [->|Hin] Hx.
  - rewrite Hx. by eexists.
  - destruct (p y) as [b|e']; simpl; [|by eexists].
    destruct (IH Hin Hx) as [e'' ->]. by eexists.
Qed.

Lemma in_all_highlights (d : db) k h :
  highlights d !! k = Some h -> In h (map snd (map_to_list (highlights d))).
Proof.
  intros Hk. apply (in_map snd _ (k, h)). apply list_elem_of_In.
  by apply elem_of_map_to_list.
Qed.

Lemma matches_term_bad_note term (h : obj) t :
  get h "text" = JStr t -> includes (lower t) term = false ->
  (forall s, get h "note" <> JStr s) ->
  exists e, matches_term term h = Err e.
Proof.
  intros Ht Hinc Hn. unfold matches_term. rewrite Ht. simpl. rewrite Hinc.
  destruct (get h "note") eqn:E; simpl; try by eexists.
  exfalso. by apply (Hn s).
Qed.

End QueryFacts.

Module RegexFacts.
Import Js Aux Db Query.

(** The model of [extractPageNumber] against the meaning of its regular
    expression: [match_at] decides [match_front], and the scan returns the
    capture of the leftmost match. *)


Lemma lit_ci_sound p s r : lit_ci p s = Some r ->
  exists m, s = (m ++ r)%string /\ lower m = lower p.
Proof.
  revert s. induction p as [|c p IH]; intros s H; simpl in H.
  - injection H as <-. by exists "".
  - destruct s as [|d s]; [discriminate|].
    destruct (Ascii.eqb (lower_char c) (lower_char d)) eqn:E; [|discriminate].
    apply Ascii.eqb_eq in E. destruct (IH s H) as [m [-> Hm]].
    exists (String d m). simpl. rewrite Hm, E. done.
Qed.

Lemma lit_ci_complete p m t : lower m = lower p -> lit_ci p (m ++ t) = Some t.
Proof.
  revert m. induction p as [|c p IH]; intros m H; destruct m as [|d m]; simpl in *;
    try discriminate; [done|].
  injection H as Hc Hm. rewrite Hc, Ascii.eqb_refl. by apply IH.
Qed.

Lemma skip_spaces_split s : exists sp, s = (sp ++ skip_spaces s)%string /\ all_chars is_space sp.
Proof.
  induction s as [|c r IH]; simpl.
  - exists "". split; [done|constructor].
  - destruct (is_space c) eqn:E.
    + destruct IH as [sp [Hs Hsp]]. exists (String c sp). split; [|by constructor].
      transitivity (String c (sp ++ skip_spaces r)); [by f_equal|reflexivity].
    + exists "". split; [done|constructor].
Qed.

Lemma digits_split s : exists rest, s = (digits s ++ rest)%string /\
  all_chars is_digit (digits s) /\ starts_digit rest = false.
Proof.
  induction s as [|c r IH]; simpl.
  - exists "". repeat split; constructor.
  - destruct (is_digit c) eqn:E.
    + destruct IH as [rest [Hs [Hd Hr]]]. exists rest. split; [|split; [by constructor|done]].
      transitivity (String c (digits r ++ rest)); [by f_equal|reflexivity].
    + exists (String c r). simpl. split; [done|]. split; [constructor|done].
Qed.

Lemma space_digits_sound r ds : space_digits r = Some ds ->
  exists sp rest, r = (sp ++ ds ++ rest)%string /\ all_chars is_space sp /\
    ds <> "" /\ all_chars is_digit ds /\ starts_digit rest = false.
Proof.
  unfold space_digits. intros H.
  assert (Hne : digits (skip_spaces r) <> "" /\ digits (skip_spaces r) = ds).
  { destruct (digits (skip_spaces r)); [discriminate|]. by injection H as <-. }
  destruct Hne as [Hne <-].
  destruct (skip_spaces_split r) as [sp [Hr Hsp]].
  destruct (digits_split (skip_spaces r)) as [rest [Hd [Hdd Hrest]]].
  exists sp, rest. split; [|done]. rewrite Hr at 1. rewrite Hd at 1. done.
Qed.

Lemma digit_char c : is_digit c = true ->
  is_space c = false /\ lower_char c = c /\ c <> Ascii.ascii_of_nat 97 /\ c <> Ascii.ascii_of_nat 46.
Proof.
  destruct c as [[] [] [] [] [] [] [] []]; vm_compute; intros H;
    first [discriminate H | repeat split; discriminate].
Qed.

Lemma space_char c : is_space c = true ->
  lower_char c = c /\ c <> Ascii.ascii_of_nat 97 /\ c <> Ascii.ascii_of_nat 46.
Proof.
  destruct c as [[] [] [] [] [] [] [] []]; vm_compute; intros H;
    first [discriminate H | repeat split; discriminate].
Qed.

Lemma skip_spaces_app sp t : all_chars is_space sp ->
  (match t with String c _ => is_space c = false | EmptyString => True end) ->
  skip_spaces (sp ++ t) = t.
Proof.
  induction sp as [|c sp IH]; simpl; intros Hsp Ht.
  - destruct t; simpl; [done|]. by rewrite Ht.
  - inversion Hsp as [|? ? Hc Hr]; subst. rewrite Hc. by apply IH.
Qed.

Lemma digits_app ds rest : all_chars is_digit ds -> starts_digit rest = false ->
  digits (ds ++ rest) = ds.
Proof.
  induction ds as [|c ds IH]; simpl; intros Hd Hr.
  - destruct rest; simpl in *; [done|]. by rewrite Hr.
  - inversion Hd as [|? ? Hc Hr']; subst. rewrite Hc. f_equal. by apply IH.
Qed.

Lemma space_digits_complete sp ds rest :
  all_chars is_space sp -> ds <> "" -> all_chars is_digit ds -> starts_digit rest = false ->
  space_digits (sp ++ ds ++ rest) = Some ds.
Proof.
  intros Hsp Hne Hd Hr. unfold space_digits.
  rewrite skip_spaces_app; [|done|].
  - rewrite digits_app by done. destruct ds; [done|reflexivity].
  - destruct ds as [|c ds]; [done|]. simpl. inversion Hd; subst.
    by apply digit_char.
Qed.

(** The first character after the marker is a space or a digit. *)
Lemma after_marker sp ds rest : all_chars is_space sp -> ds <> "" -> all_chars is_digit ds ->
  exists c t, (sp ++ ds ++ rest)%string = String c t /\
    lower_char c = c /\ c <> Ascii.ascii_of_nat 97 /\ c <> Ascii.ascii_of_nat 46.
Proof.
  intros Hsp Hne Hd. destruct sp as [|c sp].
  - destruct ds as [|c ds]; [done|]. inversion Hd; subst.
    destruct (digit_char c) as (_ & ? & ? & ?); [done|]. by exists c, (ds ++ rest)%string.
  - inversion Hsp; subst. destruct (space_char c) as (? & ? & ?); [done|].
    by exists c, (sp ++ ds ++ rest)%string.
Qed.

Lemma alt_sound p s ds : (lit_ci p s ≫= space_digits) = Some ds ->
  exists m sp rest, s = (m ++ sp ++ ds ++ rest)%string /\ lower m = lower p /\
    all_chars is_space sp /\ ds <> "" /\ all_chars is_digit ds /\ starts_digit rest = false.
Proof.
  destruct (lit_ci p s) as [r|] eqn:E; simpl; [|discriminate]. intros H.
  destruct (lit_ci_sound _ _ _ E) as [m [-> Hm]].
  destruct (space_digits_sound _ _ H) as (sp & rest & -> & ?).
  by exists m, sp, rest.
Qed.

Lemma match_at_sound s ds : match_at s = Some ds -> match_front s ds.
Proof.
  unfold match_at. intros H.
  destruct (lit_ci "page" s ≫= space_digits) as [d1|] eqn:E1.
  { injection H as <-. destruct (alt_sound _ _ _ E1) as (m & sp & rest & -> & Hm & ?).
    exists m, sp, rest. split; [done|]. split; [by left|done]. }
  destruct (lit_ci "p." s ≫= space_digits) as [d2|] eqn:E2.
  { injection H as <-. destruct (alt_sound _ _ _ E2) as (m & sp & rest & -> & Hm & ?).
    exists m, sp, rest. split; [done|]. split; [by right; left|done]. }
  destruct (alt_sound _ _ _ H) as (m & sp & rest & -> & Hm & ?).
  exists m, sp, rest. split; [done|]. split; [by right; right|done].
Qed.

Lemma append_cons c s t : (String c s ++ t)%string = String c (s ++ t).
Proof. reflexivity. Qed.

Lemma append_nil_l t : ("" ++ t)%string = t.
Proof. reflexivity. Qed.

Lemma eqb_closed_ne (x c : Ascii.ascii) : c <> x -> Ascii.eqb x c = false.
Proof. intros H. destruct (Ascii.eqb_spec x c); [congruence|done]. Qed.

Lemma match_at_complete s ds : match_front s ds -> match_at s = Some ds.
Proof.
  intros (m & sp & rest & -> & Hm & Hsp & Hne & Hd & Hr).
  pose proof (space_digits_complete sp ds rest Hsp Hne Hd Hr) as HS.
  destruct (after_marker sp ds rest Hsp Hne Hd) as (c & t & Ht & Hlc & Ha & Hdot).
  unfold match_at.
  destruct Hm as [Hm|[Hm|Hm]].
  - rewrite (lit_ci_complete "page" m) by done. simpl. by rewrite HS.
  - assert (A1 : lit_ci "page" (m ++ sp ++ ds ++ rest) = None).
    { destruct m as [|c1 [|c2 m]]; try discriminate.
      simpl in Hm. injection Hm as H1 H2 _.
      rewrite !append_cons. cbn [lit_ci]. rewrite H1, H2.
      rewrite (eqb_closed_ne _ (Ascii.ascii_of_nat 46)) by discriminate.
      by destruct (Ascii.eqb _ _). }
    rewrite A1, (lit_ci_complete "p." m) by done. simpl. by rewrite HS.
  - destruct m as [|c1 [|c2 m]]; try discriminate.
    simpl in Hm. injection Hm as H1.
    assert (A1 : lit_ci "page" (String c1 "" ++ sp ++ ds ++ rest) = None).
    { rewrite append_cons, append_nil_l, Ht. cbn [lit_ci]. rewrite H1, Hlc.
      rewrite (eqb_closed_ne _ c) by (vm_compute; exact Ha).
      by destruct (Ascii.eqb _ _). }
    assert (A2 : lit_ci "p." (String c1 "" ++ sp ++ ds ++ rest) = None).
    { rewrite append_cons, append_nil_l, Ht. cbn [lit_ci]. rewrite H1, Hlc.
      rewrite (eqb_closed_ne _ c) by (vm_compute; exact Hdot).
      by destruct (Ascii.eqb _ _). }
    rewrite A1, A2, (lit_ci_complete "p" (String c1 "")) by (simpl; by rewrite H1).
    simpl. by rewrite HS.
Qed.

Lemma match_front_nil ds : ~ match_front "" ds.
Proof. intros H. apply match_at_complete in H. discriminate. Qed.

Lemma extract_first s ds : extractPageNumber s = Some ds <-> first_page s ds.
Proof.
  revert ds. induction s as [|c r IH]; intros ds.
  - simpl. split; [discriminate|].
    intros (pre & s' & Hs & Hm & _). destruct pre; [|discriminate].
    rewrite append_nil_l in Hs. subst s'. by apply match_front_nil in Hm.
  - simpl. destruct (match_at (String c r)) as [d0|] eqn:E.
    + split.
      * intros [= <-]. exists "", (String c r). split; [done|]. split.
        -- by apply match_at_sound.
        -- intros pre' s'' _ Hl. simpl in Hl. lia.
      * intros (pre & s' & Hs & Hm & Hl). destruct pre as [|c' pre].
        -- rewrite append_nil_l in Hs. subst s'. apply match_at_complete in Hm. congruence.
        -- exfalso. apply (Hl "" (String c r) eq_refl) with d0; [simpl; lia|].
           by apply match_at_sound.
    + rewrite IH. split.
      * intros (pre & s' & Hs & Hm & Hl). exists (String c pre), s'.
        split; [rewrite append_cons; by rewrite Hs|]. split; [done|].
        intros pre' s'' Hs' Hlen ds' Hm'. destruct pre' as [|c' pre'].
        -- rewrite append_nil_l in Hs'. subst s''. apply match_at_complete in Hm'. congruence.
        -- rewrite append_cons in Hs'. injection Hs' as <- Hr.
           apply (Hl pre' s'' Hr) with ds'; [simpl in Hlen; lia|done].
      * intros (pre & s' & Hs & Hm & Hl). destruct pre as [|c' pre].
        -- rewrite append_nil_l in Hs. subst s'. apply match_at_complete in Hm. congruence.
        -- rewrite append_cons in Hs. injection Hs as <- Hr. exists pre, s'.
           split; [done|]. split; [done|].
           intros pre' s'' Hs' Hlen ds' Hm'.
           apply (Hl (String c pre') s'') with ds'; [rewrite append_cons; by rewrite Hs'|simpl; lia|done].
Qed.

Lemma extract_none s : extractPageNumber s = None <-> no_page s.
Proof.
  induction s as [|c r IH].
  - simpl. split; [|done]. intros _ pre s' ds Hs Hm.
    destruct pre; [|discriminate]. rewrite append_nil_l in Hs. subst s'. by apply match_front_nil in Hm.
  - simpl. destruct (match_at (String c r)) as [d0|] eqn:E.
    + split; [discriminate|]. intros H. exfalso.
      apply (H "" (String c r) d0 eq_refl). by apply match_at_sound.
    + rewrite IH. split.
      * intros H pre s' ds Hs Hm. destruct pre as [|c' pre].
        -- rewrite append_nil_l in Hs. subst s'. apply match_at_complete in Hm. congruence.
        -- rewrite append_cons in Hs. injection Hs as <- Hr. by apply (H pre s' ds Hr).
      * intros H pre s' ds Hr Hm. apply (H (String c pre) s' ds); [rewrite append_cons; by rewrite Hr|done].
Qed.

End RegexFacts.

(* ------------------------------------------------------------------ *)
(** ** Ingestion, bulk deletion, import, location order, search *)

Module StoreClaims.
Import Js Aux Db Snapshot Query Selector DbFacts QueryFacts RegexFacts.

Definition empty_db : db := mkDb ∅ ∅.

(** A record as the extractor hands it over, without a [dateAdded]. *)
Definition h_sample : obj :=
  <["id" := JStr "h1"]> (<["bookAsin" := JStr "B1"]> {[ "text" := JStr "First line" ]}).

Definition field_of (k : string) (id : string) (d : db) : option jsval :=
  (fun o => get o k) <$> highlights d !! id.

(** C1 (counterexample): ingesting [h_sample] at time 1000 and again at
    time 2000 leaves [dateAdded = 2000], not the first-seen 1000; a
    [timesShown] recorded in between is dropped by the second ingestion. *)
Lemma reingest_overwrites_dateAdded :
  (d1 ← addHighlight 1000 "u1" h_sample empty_db;
   Ok (field_of "dateAdded" "h1" d1)) = Ok (Some (JNum 1000)) /\
  (d1 ← addHighlight 1000 "u1" h_sample empty_db;
   d2 ← addHighlight 2000 "u2" h_sample d1;
   Ok (field_of "dateAdded" "h1" d2)) = Ok (Some (JNum 2000)) /\
  (d1 ← addHighlight 1000 "u1" h_sample empty_db;
   let d2 := (markHighlightsAsShown 1500 ["h1"] d1).2 in
   d3 ← addHighlight 2000 "u2" h_sample d2;
   Ok (field_of "timesShown" "h1" d2, field_of "timesShown" "h1" d3))
    = Ok (Some (JNum 1), Some JUndef).
Proof. split; [|split]; vm_compute; reflexivity. Qed.

(** C1 (amended): ingesting a record whose [id] is [k] twice leaves one
    record under [k], the one built by the second ingestion, and the store
    is as if only the second ingestion had happened; when the record has no
    [dateAdded] of its own, [dateAdded] is the second ingestion's time. *)
Theorem reingest_replaces_record (t1 t2 : Z) (u1 u2 k : string) (h : obj) (d : db)
    (Hid : h !! "id" = Some (JStr k)) :
  (d1 ← addHighlight t1 u1 h d; addHighlight t2 u2 h d1) = addHighlight t2 u2 h d /\
  addHighlight t2 u2 h d =
    Ok (mkDb (books d) (<[k := highlightData t2 u2 h]> (highlights d))) /\
  (h !! "dateAdded" = None -> get (highlightData t2 u2 h) "dateAdded" = JNum t2).
Proof.
  rewrite !(addHighlight_ok _ _ _ _ _ Hid). simpl.
  rewrite (addHighlight_ok _ _ _ _ _ Hid). simpl.
  split; [by rewrite insert_insert_eq|split; [done|]].
  apply highlightData_dateAdded.
Qed.

Lemma reingest_replaces_record_witness :
  h_sample !! "id" = Some (JStr "h1") /\
  ((d1 ← addHighlight 1000 "u1" h_sample empty_db; addHighlight 2000 "u2" h_sample d1)
     = addHighlight 2000 "u2" h_sample empty_db /\
   addHighlight 2000 "u2" h_sample empty_db =
     Ok (mkDb (books empty_db)
           (<["h1" := highlightData 2000 "u2" h_sample]> (highlights empty_db))) /\
   (h_sample !! "dateAdded" = None ->
    get (highlightData 2000 "u2" h_sample) "dateAdded" = JNum 2000)).
Proof.
  split; [reflexivity|].
  apply (reingest_replaces_record 1000 2000 "u1" "u2" "h1" h_sample empty_db).
  reflexivity.
Defined.

Definition rec_of (id : string) : obj :=
  <["id" := JStr id]> (<["bookAsin" := JStr "B1"]> {[ "text" := JStr id ]}).

Definition db_h1_h2 : db :=
  mkDb ∅ (<["h1" := rec_of "h1"]> {[ "h2" := rec_of "h2" ]}).

Definition db_h1_h2_missing : db :=
  mkDb ∅ (<["h1" := rec_of "h1"]> (<["h2" := rec_of "h2"]> {[ "missing" := rec_of "missing" ]})).

(** C7 (counterexample): on a store holding only [h1] and [h2],
    [bulkDeleteHighlights(["h1","h2","missing"])] resolves with the single
    count 3, exactly what it resolves with when ["missing"] does exist:
    no per-id result, and nothing reports ["missing"] as not found. *)
Lemma bulkDelete_no_per_id_report :
  bulkDeleteHighlights ["h1"; "h2"; "missing"] db_h1_h2 = Ok (3%nat, empty_db) /\
  bulkDeleteHighlights ["h1"; "h2"; "missing"] db_h1_h2_missing = Ok (3%nat, empty_db).
Proof. split; vm_compute; reflexivity. Qed.

(** C7 (amended): [bulkDeleteHighlights(ids)] never rejects; it removes
    every listed id from the store, ignores listed ids that are absent,
    keeps every other record, and resolves with [ids.length], a count in
    which absent ids count as deleted. *)
Theorem bulkDelete_removes_listed (ids : list string) (d : db) :
  exists d', bulkDeleteHighlights ids d = Ok (length ids, d') /\
    books d' = books d /\
    forall k, highlights d' !! k = if decide (k ∈ ids) then None else highlights d !! k.
Proof.
  destruct ids as [|x r] eqn:E.
  - exists d. split; [done|split; [done|]].
    intros k. destruct (decide (k ∈ [])) as [Hin|]; [inversion Hin|done].
  - exists (mkDb (books d) (foldl (fun st id => delete id st) (highlights d) (x :: r))).
    split; [reflexivity|]. split; [done|].
    intros k. apply foldl_delete_lookup.
Qed.

(** A snapshot with a version the exporter never writes. *)
Definition snapshot_v2 : snapshot :=
  mkSnapshot (JStr "2.0") (JStr "2026-01-01T00:00:00.000Z") (Some []) (Some [h_sample]).

(** C8 (counterexample): a snapshot whose [version] is ["2.0"], not the
    exported ["1.0"], is imported: its highlight is written to the store. *)
Lemma import_accepts_unknown_version :
  version snapshot_v2 <> export_version /\
  imported (highlights_res (importData false true 5 (fun _ => "u") snapshot_v2 empty_db).1) = 1%nat /\
  is_Some (highlights (importData false true 5 (fun _ => "u") snapshot_v2 empty_db).2 !! "h1").
Proof.
  split; [discriminate|split]; [vm_compute; reflexivity|].
  vm_compute. by eexists.
Qed.

(** C8 (amended): [importData] never reads [version]: two snapshots that
    differ only in their version import identically (same results, same
    writes), whatever the options. *)
Theorem importData_ignores_version (overwrite skipDuplicates : bool) (now : Z)
    (uuid : nat -> string) (s : snapshot) (v : jsval) (d : db) :
  importData overwrite skipDuplicates now uuid
    (mkSnapshot v (exportDate s) (data_books s) (data_highlights s)) d =
  importData overwrite skipDuplicates now uuid s d.
Proof. destruct s. reflexivity. Qed.

Definition at_location (loc : string) (dh : Z) : obj :=
  <["location" := JStr loc]> {[ "dateHighlighted" := JNum dh ]}.

(** C9 (counterexample): whatever the collation [localeCompare], two
    highlights at ["page 5"] with dates 1 and 2 compare as 0 both ways:
    equal positions are not ordered by date. *)
Lemma location_cmp_no_date_tiebreak :
  (fun lc : string -> string -> Z =>
     location_cmp lc (at_location "page 5" 1) (at_location "page 5" 2)) = (fun _ => Ok 0%Z) /\
  (fun lc : string -> string -> Z =>
     location_cmp lc (at_location "page 5" 2) (at_location "page 5" 1)) = (fun _ => Ok 0%Z).
Proof. split; vm_compute; reflexivity. Qed.

(** C9 (amended): for two highlights with string locations and any
    collation [localeCompare], the location comparator returns the
    difference of the integers captured after the first [page], [p.] or [p]
    marker (any case, optional white space) of each label when both labels
    have one, and [localeCompare la lb] when either has none (every label
    is in one of the two cases); it reads nothing but the two locations, so
    equal positions compare as 0 whatever the dates. *)
Theorem location_cmp_spec (localeCompare : string -> string -> Z) (a b : obj) (la lb : string)
    (Ha : get a "location" = JStr la) (Hb : get b "location" = JStr lb) :
  (forall pa pb, first_page la pa -> first_page lb pb ->
     location_cmp localeCompare a b = Ok (parseInt pa - parseInt pb)%Z) /\
  (no_page la \/ no_page lb -> location_cmp localeCompare a b = Ok (localeCompare la lb)) /\
  ((exists pa, first_page la pa) \/ no_page la) /\
  ((exists pb, first_page lb pb) \/ no_page lb) /\
  (forall a' b', get a' "location" = JStr la -> get b' "location" = JStr lb ->
     location_cmp localeCompare a' b' = location_cmp localeCompare a b).
Proof.
  assert (Hcov : forall s, (exists ds, first_page s ds) \/ no_page s).
  { intros s. destruct (extractPageNumber s) as [ds|] eqn:E.
    - left. exists ds. by apply extract_first.
    - right. by apply extract_none. }
  unfold location_cmp. rewrite Ha, Hb. unfold compareLocations.
  split; [|split; [|split; [apply Hcov|split; [apply Hcov|]]]].
  - intros pa pb Hpa Hpb. apply extract_first in Hpa, Hpb. by rewrite Hpa, Hpb.
  - intros [Hn|Hn]; apply extract_none in Hn; rewrite Hn; [done|].
    by destruct (extractPageNumber la).
  - intros a' b' Ha' Hb'. by rewrite Ha', Hb'.
Qed.

Lemma location_cmp_spec_witness :
  get (at_location "p. 12" 1) "location" = JStr "p. 12" /\
  get (at_location "Page 7" 2) "location" = JStr "Page 7" /\
  ((forall pa pb, first_page "p. 12" pa -> first_page "Page 7" pb ->
     location_cmp codeUnitCompare (at_location "p. 12" 1) (at_location "Page 7" 2)
       = Ok (parseInt pa - parseInt pb)%Z) /\
   (no_page "p. 12" \/ no_page "Page 7" ->
     location_cmp codeUnitCompare (at_location "p. 12" 1) (at_location "Page 7" 2)
       = Ok (codeUnitCompare "p. 12" "Page 7")) /\
   ((exists pa, first_page "p. 12" pa) \/ no_page "p. 12") /\
   ((exists pb, first_page "Page 7" pb) \/ no_page "Page 7") /\
   (forall a' b', get a' "location" = JStr "p. 12" -> get b' "location" = JStr "Page 7" ->
     location_cmp codeUnitCompare a' b'
       = location_cmp codeUnitCompare (at_location "p. 12" 1) (at_location "Page 7" 2))).
Proof.
  split; [reflexivity|split; [reflexivity|]].
  apply (location_cmp_spec codeUnitCompare _ _ "p. 12" "Page 7"); reflexivity.
Defined.

(** A record whose note was set to [undefined] (by [bulkUpdateHighlights]
    with the patch [{note: undefined}]). *)
Definition rec_no_note (id text : string) : obj :=
  <["id" := JStr id]> (<["text" := JStr text]> {[ "note" := JUndef ]}).

Definition db_no_note : db :=
  mkDb ∅ {[ "h1" := rec_no_note "h1" "Deep Work" ]}.

(** C10 (counterexample): with a stored highlight whose note is
    [undefined], the query ["deep"] (found in its text) resolves with that
    highlight, because the note is never read; only a query that misses the
    text (["zzz"]) rejects. *)
Lemma search_bad_note_not_always_fatal :
  searchHighlights (JStr "deep") db_no_note = Ok [rec_no_note "h1" "Deep Work"] /\
  (exists e, searchHighlights (JStr "zzz") db_no_note = Err e).
Proof. split; [vm_compute; reflexivity|eexists; vm_compute; reflexivity]. Qed.

(** C10 (amended): if some stored highlight has a string text that does not
    contain the lower-cased query and a note that is not a string, then
    [searchHighlights] with that non-empty string query rejects as a whole;
    a highlight whose text contains the query is matched without its note
    being read. *)
Theorem search_rejects_on_unread_bad_note (d : db) (k q t : string) (h : obj)
    (Hk : highlights d !! k = Some h) (Hq : q <> "")
    (Ht : get h "text" = JStr t) (Hn : forall s, get h "note" <> JStr s) :
  (includes (lower t) (lower q) = false ->
     exists e, searchHighlights (JStr q) d = Err e) /\
  (includes (lower t) (lower q) = true -> matches_term (lower q) h = Ok true).
Proof.
  split.
  - intros Hinc. unfold searchHighlights.
    assert (Htr : truthy (JStr q) = true).
    { simpl. destruct (String.eqb_spec q ""); [contradiction|reflexivity]. }
    rewrite Htr. simpl.
    destruct (matches_term_bad_note (lower q) h t Ht Hinc Hn) as [e He].
    destruct (filter_r_err _ _ h e (in_all_highlights d k h Hk) He) as [e' ->].
    by eexists.
  - intros Hinc. unfold matches_term. rewrite Ht. simpl. by rewrite Hinc.
Qed.

Lemma search_rejects_on_unread_bad_note_witness :
  ((includes (lower "Deep Work") (lower "zzz") = false ->
      exists e, searchHighlights (JStr "zzz") db_no_note = Err e) /\
   (includes (lower "Deep Work") (lower "zzz") = true ->
      matches_term (lower "zzz") (rec_no_note "h1" "Deep Work") = Ok true)) /\
  highlights db_no_note !! "h1" = Some (rec_no_note "h1" "Deep Work").
Proof.
  split; [|reflexivity].
  apply (search_rejects_on_unread_bad_note db_no_note "h1" "zzz" "Deep Work").
  - reflexivity.
  - discriminate.
  - reflexivity.
  - intros s. vm_compute. discriminate.
Defined.
End StoreClaims.

(* ------------------------------------------------------------------ *)
(** ** Facts about the selector *)

Module SelectorFacts.
Import Js Aux Db Selector.

Lemma get_insert_other (o : obj) k k' v :
  k <> k' -> get (<[k := v]> o) k' = get o k'.
Proof. intros Hne. unfold get. by rewrite lookup_insert_ne. Qed.

Lemma targetInterval_pos t ti : targetInterval t = Some ti -> (0 < ti)%Q.
Proof.
  unfold targetInterval. destruct t as [t|]; [|discriminate].
  destruct (_ && _); [|discriminate].
  destruct (spacedRepetitionIntervals !! _) as [z|] eqn:E; simpl; [|discriminate].
  intros [= <-].
  assert (Hall : Forall (fun z => (0 < z)%Z) spacedRepetitionIntervals).
  { repeat constructor. }
  pose proof (Forall_lookup_1 _ _ _ _ Hall E) as Hz.
  cbn in Hz. unfold Qlt. simpl. lia.
Qed.

Lemma day_ms_nonzero : Qeq_bool day_ms 0 = false.
Proof. reflexivity. Qed.

Lemma days_when_shown (h : obj) (now a : Z) :
  (0 < a)%Z ->
  daysSinceLastShown (<["lastShown" := JNum a]> h) now =
    Some ((inject_Z now + (-1) * inject_Z a) / day_ms)%Q.
Proof.
  intros Ha. unfold daysSinceLastShown, get. rewrite lookup_insert_eq.
  unfold js_or. simpl.
  destruct (Z.eqb_spec a 0) as [E|E]; [lia|]. simpl.
  destruct (Qle_bool (inject_Z a) 0) eqn:Hle.
  - apply Qle_bool_iff in Hle. unfold Qle in Hle. simpl in Hle. lia.
  - simpl. reflexivity.
Qed.

Lemma overdue_pair (h : obj) (now a b : Z) :
  (0 < a)%Z -> (a < b)%Z ->
  (overdueRatio (<["lastShown" := JNum a]> h) now = None /\
   overdueRatio (<["lastShown" := JNum b]> h) now = None) \/
  exists x y, overdueRatio (<["lastShown" := JNum a]> h) now = Some x /\
              overdueRatio (<["lastShown" := JNum b]> h) now = Some y /\ (y <= x)%Q.
Proof.
  intros Ha Hab. unfold overdueRatio.
  rewrite !get_insert_other by discriminate.
  rewrite !days_when_shown by lia.
  destruct (targetInterval _) as [ti|] eqn:Hti; [|left; split; reflexivity].
  pose proof (targetInterval_pos _ _ Hti) as Hpos.
  assert (Hnz : Qeq_bool ti 0 = false).
  { destruct (Qeq_bool ti 0) eqn:E; [|reflexivity].
    apply Qeq_bool_iff in E. rewrite E in Hpos. discriminate. }
  right. unfold odiv. rewrite Hnz. do 2 eexists. split; [reflexivity|split; [reflexivity|]].
  unfold Qdiv. apply Qmult_le_compat_r; [|apply Qlt_le_weak, Qinv_lt_0_compat, Hpos].
  apply Qmult_le_compat_r; [|vm_compute; discriminate].
  apply Qplus_le_compat; [apply Qle_refl|].
  rewrite !Qmult_comm with (x := (-1)%Q).
  rewrite <- !(Qmult_comm (-1)%Q).
  unfold Qle, Qmult. simpl. lia.
Qed.

Lemma omul_mono x y c : (y <= x)%Q -> (0 <= c)%Q -> (y * c <= x * c)%Q.
Proof. intros. by apply Qmult_le_compat_r. Qed.


Lemma note_nonblank_lastShown (h : obj) v :
  note_nonblank (<["lastShown" := v]> h) = note_nonblank h.
Proof. unfold note_nonblank. by rewrite get_insert_other. Qed.

Lemma has_tags_lastShown (h : obj) v :
  has_tags (<["lastShown" := v]> h) = has_tags h.
Proof. unfold has_tags. by rewrite get_insert_other. Qed.

End SelectorFacts.

(* ------------------------------------------------------------------ *)
(** ** Spaced-repetition score *)

Module ScoreClaims.
Import Js Aux Db Selector SelectorFacts.

(** C5: for two highlights identical except for [lastShown], both shown
    before ([lastShown > 0]) with the same [timesShown], the one shown
    longer ago ([a < b]) has an overdue ratio [daysSinceLastShown /
    targetInterval] at least that of the other, and so has its score
    before the random tie-breaker (the note, tag and repetition factors
    being the same); both are NaN together. *)
Theorem overdue_score_monotone (h : obj) (now a b : Z)
    (Ha : (0 < a)%Z) (Hab : (a < b)%Z) :
  match overdueRatio (<["lastShown" := JNum a]> h) now,
        overdueRatio (<["lastShown" := JNum b]> h) now with
  | Some x, Some y => (y <= x)%Q
  | None, None => True
  | _, _ => False
  end /\
  match sr_base (<["lastShown" := JNum a]> h) now,
        sr_base (<["lastShown" := JNum b]> h) now with
  | Ok (Some x), Ok (Some y) => (y <= x)%Q
  | Ok None, Ok None => True
  | Err _, Err _ => True
  | _, _ => False
  end.
Proof.
  destruct (overdue_pair h now a b Ha Hab) as [[Ea Eb]|(x & y & Ea & Eb & Hxy)].
  - rewrite Ea, Eb. split; [exact I|].
    unfold sr_base. rewrite !note_nonblank_lastShown, !has_tags_lastShown.
    rewrite !get_insert_other by discriminate. rewrite Ea, Eb.
    destruct (note_nonblank h) as [w|e]; [|exact I]. simpl.
    destruct w, (has_tags h), (ogt _ _); exact I.
  - rewrite Ea, Eb. split; [exact Hxy|].
    unfold sr_base. rewrite !note_nonblank_lastShown, !has_tags_lastShown.
    rewrite !get_insert_other by discriminate. rewrite Ea, Eb.
    destruct (note_nonblank h) as [w|e]; [|exact I]. simpl.
    destruct w, (has_tags h), (ogt _ _); simpl;
      repeat (apply omul_mono; [|vm_compute; discriminate]); exact Hxy.
Qed.

Lemma overdue_score_monotone_witness :
  (0 < 1000)%Z /\ (1000 < 2000)%Z /\
  match overdueRatio (<["lastShown" := JNum 1000]> (∅ : obj)) 500000000,
        overdueRatio (<["lastShown" := JNum 2000]> (∅ : obj)) 500000000 with
  | Some x, Some y => (y <= x)%Q
  | None, None => True
  | _, _ => False
  end /\
  match sr_base (<["lastShown" := JNum 1000]> (∅ : obj)) 500000000,
        sr_base (<["lastShown" := JNum 2000]> (∅ : obj)) 500000000 with
  | Ok (Some x), Ok (Some y) => (y <= x)%Q
  | Ok None, Ok None => True
  | Err _, Err _ => True
  | _, _ => False
  end.
Proof.
  split; [lia|split; [lia|]].
  apply (overdue_score_monotone ∅ 500000000 1000 2000); lia.
Defined.

End ScoreClaims.

(* ------------------------------------------------------------------ *)
(** ** Show statistics *)

Module ShownClaims.
Import Js Aux Db Selector DbFacts SelectorFacts StoreClaims.

(** [highlight.timesShown || 0] *)
Definition ts_value (o : obj) : jsval := js_or (get o "timesShown") (JNum 0).

(** [timesShown] is an integer [n >= 0], and [n = 0] exactly when
    [lastShown] is unset (falsy, as the selector reads it). *)
Definition shown_consistent (o : obj) : Prop :=
  match ts_value o with
  | JNum n => (0 <= n)%Z /\ (n = 0%Z <-> truthy (get o "lastShown") = false)
  | _ => False
  end.

(** Every record sits under its own [id] and is consistent. *)
Definition store_inv (d : db) : Prop :=
  forall k o, highlights d !! k = Some o -> get o "id" = JStr k /\ shown_consistent o.

Lemma store_inv_insert (d : db) k o :
  store_inv d -> get o "id" = JStr k -> shown_consistent o ->
  store_inv (mkDb (books d) (<[k := o]> (highlights d))).
Proof.
  intros Hd Hid Hc k' o' H. simpl in H.
  destruct (decide (k = k')) as [<-|Hne].
  - rewrite lookup_insert_eq in H. injection H as <-. done.
  - rewrite lookup_insert_ne in H by done. by apply Hd.
Qed.

Lemma mark_updates_consistent (now : Z) (h : obj) :
  (0 < now)%Z -> shown_consistent h ->
  shown_consistent
    ((<["lastShown" := JNum now]>
        {[ "timesShown" := plus_num (js_or (get h "timesShown") (JNum 0)) 1 ]}) ∪ h).
Proof.
  intros Hnow Hc. unfold shown_consistent, ts_value in *.
  destruct (js_or (get h "timesShown") (JNum 0)) as [| |b|n|q| |s|l]; try contradiction.
  destruct Hc as [Hn _].
  unfold get. rewrite lookup_union_Some_l with (x := JNum (n + 1)); last first.
  { rewrite lookup_insert_ne by discriminate. by rewrite lookup_singleton_eq. }
  rewrite lookup_union_Some_l with (x := JNum now); last by rewrite lookup_insert_eq.
  unfold js_or. simpl.
  destruct (Z.eqb_spec (n + 1) 0) as [E|E]; [lia|]. simpl.
  destruct (Z.eqb_spec now 0) as [E'|E']; [lia|]. simpl.
  split; [lia|split; [lia|discriminate]].
Qed.

Lemma mark_loop_inv (now : Z) (ids : list string) (d : db) :
  (0 < now)%Z -> store_inv d -> store_inv (mark_loop now ids d).2.
Proof.
  intros Hnow. revert d. induction ids as [|id r IH]; intros d Hd; simpl; [done|].
  destruct (highlights d !! id) as [h|] eqn:Eh; [|by apply IH].
  destruct (Hd id h Eh) as [Hid Hc].
  unfold updateHighlight. rewrite Eh. unfold put.
  set (u := (<["lastShown" := JNum now]>
        {[ "timesShown" := plus_num (js_or (get h "timesShown") (JNum 0)) 1 ]}) ∪ h).
  assert (Hu : get u "id" = JStr id).
  { unfold u, get. rewrite lookup_union_r; [by apply Hid|].
    rewrite lookup_insert_ne by discriminate. by rewrite lookup_singleton_ne. }
  rewrite Hu. simpl. apply IH. apply store_inv_insert; [done|done|].
  by apply mark_updates_consistent.
Qed.

Lemma sent_updates_consistent (now : Z) (h : obj) :
  shown_consistent h -> shown_consistent ({[ "lastSentInEmail" := JNum now ]} ∪ h).
Proof.
  unfold shown_consistent, ts_value, get.
  rewrite !lookup_union_r by (by rewrite lookup_singleton_ne). done.
Qed.


Lemma highlightData_fresh_consistent now uuid (h : obj) :
  h !! "timesShown" = None -> h !! "lastShown" = None ->
  shown_consistent (highlightData now uuid h).
Proof.
  intros Ht Hl. unfold shown_consistent, ts_value, get, highlightData.
  rewrite !lookup_union_r by done.
  rewrite !lookup_insert_ne by discriminate. rewrite !lookup_empty. simpl.
  split; [lia|split; reflexivity].
Qed.

(** C2 (counterexample): [markHighlightAsSent] sets [lastSentInEmail] on a
    freshly ingested highlight and leaves [timesShown] unset (0). *)
Lemma sent_without_times_shown :
  (d1 ← addHighlight 1000 "u1" h_sample empty_db;
   d2 ← markHighlightAsSent 2000 "h1" d1;
   Ok (field_of "timesShown" "h1" d2, field_of "lastSentInEmail" "h1" d2))
  = Ok (Some JUndef, Some (JNum 2000)).
Proof. vm_compute. reflexivity. Qed.

(** C2 (amended): for the pair ([timesShown], [lastShown]) the invariant
    "[timesShown] is an integer >= 0 (absent counts as 0), and it is 0 exactly
    when [lastShown] is unset" (with every record under its own id) is
    established by [addHighlight] of a record carrying neither field and
    preserved by [markHighlightsAsShown] (at a time [now > 0]) and by
    [markHighlightAsSent]; the latter sets [lastSentInEmail] without
    changing [timesShown], so [lastSentInEmail] is not tied to it. *)
Theorem shown_pair_preserved (now : Z) (Hnow : (0 < now)%Z) :
  (forall d ids, store_inv d -> store_inv (markHighlightsAsShown now ids d).2) /\
  (forall d id d', store_inv d -> markHighlightAsSent now id d = Ok d' -> store_inv d') /\
  (forall d uuid (h : obj) k d', store_inv d -> h !! "id" = Some (JStr k) ->
     h !! "timesShown" = None -> h !! "lastShown" = None ->
     addHighlight now uuid h d = Ok d' -> store_inv d').
Proof.
  split; [|split].
  - intros d ids Hd. unfold markHighlightsAsShown.
    pose proof (mark_loop_inv now ids d Hnow Hd) as H.
    destruct (mark_loop now ids d) as [ok d']. exact H.
  - intros d id d' Hd Hs. unfold markHighlightAsSent, updateHighlight in Hs.
    destruct (highlights d !! id) as [h|] eqn:Eh; [|discriminate].
    destruct (Hd id h Eh) as [Hid Hc].
    unfold put in Hs.
    assert (Hu : get ({[ "lastSentInEmail" := JNum now ]} ∪ h) "id" = JStr id).
    { unfold get. rewrite lookup_union_r by (by rewrite lookup_singleton_ne). apply Hid. }
    rewrite Hu in Hs. simpl in Hs. injection Hs as <-.
    apply store_inv_insert; [done|done|]. by apply sent_updates_consistent.
  - intros d uuid h k d' Hd Hid Ht Hl Ha.
    rewrite (addHighlight_ok _ _ _ _ _ Hid) in Ha. injection Ha as <-.
    apply store_inv_insert; [done| |].
    + by apply highlightData_id.
    + by apply highlightData_fresh_consistent.
Qed.

Lemma shown_pair_preserved_witness :
  (0 < 1)%Z /\
  ((forall d ids, store_inv d -> store_inv (markHighlightsAsShown 1 ids d).2) /\
   (forall d id d', store_inv d -> markHighlightAsSent 1 id d = Ok d' -> store_inv d') /\
   (forall d uuid (h : obj) k d', store_inv d -> h !! "id" = Some (JStr k) ->
      h !! "timesShown" = None -> h !! "lastShown" = None ->
      addHighlight 1 uuid h d = Ok d' -> store_inv d')).
Proof. split; [lia|]. apply (shown_pair_preserved 1). lia. Defined.

End ShownClaims.

(* ------------------------------------------------------------------ *)
(** ** Facts about the selection loops *)

Module PickFacts.
Import Js Aux Db Selector AuxFacts.

(** [Math.floor(r * len)] is an index of the array when [0 <= r < 1]. *)
Lemma rand_index_lt (r : Q) (len : nat) :
  (0 <= r)%Q -> (r < 1)%Q -> (0 < len)%nat -> (rand_index r len < len)%nat.
Proof.
  intros H0 H1 Hlen. unfold rand_index.
  set (L := inject_Z (Z.of_nat len)).
  assert (HL : (0 < L)%Q).
  { unfold L, Qlt. simpl. lia. }
  assert (Hx : (r * L < L)%Q).
  { apply Qlt_le_trans with (1 * L)%Q.
    - apply Qmult_lt_r; assumption.
    - rewrite Qmult_1_l. apply Qle_refl. }
  pose proof (Qfloor_le (r * L)) as Hf.
  assert (Hz : (Qfloor (r * L) < Z.of_nat len)%Z).
  { rewrite Zlt_Qlt. fold L. eapply Qle_lt_trans; eassumption. }
  lia.
Qed.

(** The sampling loop of [selectBySpacedRepetition] from iteration [i]:
    each pass removes one element of the copy, and the loop test
    [i < Math.min(count, candidatesCopy.length)] reads the shrunk copy. *)
Lemma sr_pick_spec (rnd : nat -> Q) (Hr : forall j, (0 <= rnd j)%Q /\ (rnd j < 1)%Q) :
  forall fuel i (copy : list obj) k,
  exists sel k', sr_pick fuel i copy rnd k = Ok (sel, k') /\
    sel ⊆+ copy /\ length sel = Nat.min fuel ((length copy - i + 1) / 2).
Proof.
  induction fuel as [|f IH]; intros i copy k.
  - exists [], k. split; [reflexivity|]. split; [apply submseteq_nil_l|reflexivity].
  - cbn [sr_pick]. destruct (Nat.ltb_spec i (length copy)) as [Hi|Hi].
    + destruct (Hr k) as [Hr0 Hr1].
      assert (Hidx : (rand_index (rnd k) (length copy) < length copy)%nat)
        by (apply rand_index_lt; auto; lia).
      destruct (lookup_lt_is_Some_2 copy _ Hidx) as [x Hx].
      unfold mbind at 1, M_bind at 1, random. cbv beta iota. rewrite Hx.
      destruct (IH (S i) (delete (rand_index (rnd k) (length copy)) copy) (S k))
        as (sel & k' & Heq & Hsub & Hlen).
      unfold mbind, M_bind. rewrite Heq. unfold mret, M_ret.
      exists (x :: sel), k'. split; [reflexivity|]. split.
      * rewrite (delete_Permutation copy _ x Hx). by apply submseteq_skip.
      * rewrite length_delete in Hlen by done.
        assert (E : ((length copy - i + 1) / 2 = S ((length copy - 1 - S i + 1) / 2))%nat).
        { destruct (Nat.eq_dec (length copy) (S i)) as [Hl|Hl].
          - rewrite Hl. replace (S i - i + 1)%nat with 2%nat by lia.
            replace (S i - 1 - S i + 1)%nat with 1%nat by lia. reflexivity.
          - replace (length copy - i + 1)%nat with (1 * 2 + (length copy - 1 - S i + 1))%nat by lia.
            rewrite Nat.div_add_l by lia. reflexivity. }
        rewrite E. cbn [length Nat.min]. rewrite Hlen. reflexivity.
    + exists [], k. split; [reflexivity|]. split; [apply submseteq_nil_l|].
      replace (length copy - i)%nat with 0%nat by lia. simpl. lia.
Qed.

Lemma mapM_ok {A B} (f : A -> M B) (l : list A) (rnd : nat -> Q) :
  (forall x k, x ∈ l -> exists y k', f x rnd k = Ok (y, k')) ->
  forall k, exists ys k', mapM f l rnd k = Ok (ys, k') /\ length ys = length l.
Proof.
  induction l as [|x r IH]; intros Hf k.
  - exists [], k. split; reflexivity.
  - destruct (Hf x k) as (y & k1 & Hy); [by apply elem_of_cons; left|].
    destruct (IH (fun z k z_in => Hf z k (proj2 (elem_of_cons _ _ _) (or_intror z_in))) k1)
      as (ys & k' & Hys & Hlen).
    exists (y :: ys), k'. cbn [mapM]. unfold mbind, M_bind. rewrite Hy, Hys.
    split; [reflexivity|]. simpl. by rewrite Hlen.
Qed.

(** The scoring step of [selectBySpacedRepetition]. *)
Definition sr_scored (now : Z) : obj -> M obj :=
  fun h => s ← calculateSpacedRepetitionScore h now;
           mret (<["spacedRepetitionScore" := of_num s]> h).

Lemma selectBySpacedRepetition_unfold now hs count :
  selectBySpacedRepetition now hs count =
    (scored ← mapM (sr_scored now) hs;
     let sorted := sort_by (by_score_desc "spacedRepetitionScore") scored in
     sr_pick count 0 (take (Nat.min (count * 2) (length sorted)) sorted)).
Proof. reflexivity. Qed.

Lemma sr_scored_ok now (h : obj) b rnd k :
  sr_base h now = Ok b -> exists y k', sr_scored now h rnd k = Ok (y, k').
Proof.
  intros Hb. unfold sr_scored, calculateSpacedRepetitionScore, mbind, M_bind, lift.
  rewrite Hb. do 2 eexists. reflexivity.
Qed.

Lemma sr_select_spec now hs count (rnd : nat -> Q) k
  (Hr : forall j, (0 <= rnd j)%Q /\ (rnd j < 1)%Q)
  (Hs : Forall (fun h => exists b, sr_base h now = Ok b) hs) :
  exists scored k1 sel k',
    mapM (sr_scored now) hs rnd k = Ok (scored, k1) /\
    length scored = length hs /\
    selectBySpacedRepetition now hs count rnd k = Ok (sel, k') /\
    sel ⊆+ take (Nat.min (count * 2) (length hs))
                (sort_by (by_score_desc "spacedRepetitionScore") scored) /\
    length sel = Nat.min count ((Nat.min (count * 2) (length hs) + 1) / 2).
Proof.
  destruct (mapM_ok (sr_scored now) hs rnd) with (k := k) as (scored & k1 & Hm & Hlen).
  { intros x k0 Hx. rewrite Forall_forall in Hs. destruct (Hs x Hx) as [b Hb].
    by eapply sr_scored_ok. }
  set (sorted := sort_by (by_score_desc "spacedRepetitionScore") scored).
  assert (Hsorted : length sorted = length hs).
  { unfold sorted. rewrite (Permutation_length (sort_by_perm _ _)). exact Hlen. }
  destruct (sr_pick_spec rnd Hr count 0
              (take (Nat.min (count * 2) (length sorted)) sorted) k1)
    as (sel & k' & Hp & Hsub & Hsel).
  exists scored, k1, sel, k'. split; [exact Hm|]. split; [exact Hlen|]. split.
  { rewrite selectBySpacedRepetition_unfold. unfold mbind at 1, M_bind at 1.
    rewrite Hm. exact Hp. }
  rewrite Hsorted in Hsub, Hsel. split; [exact Hsub|].
  rewrite Hsel, length_take, Hsorted. f_equal. f_equal. f_equal. lia.
Qed.

Lemma add_to_group_all (P : obj -> Prop) k h gs :
  (forall kg, kg ∈ gs -> Forall P kg.2) -> P h ->
  forall kg, kg ∈ add_to_group k h gs -> Forall P kg.2.
Proof.
  intros Hgs Hh. induction gs as [|[k' g] r IH]; cbn [add_to_group]; intros kg Hkg.
  - apply list_elem_of_singleton in Hkg. subst kg. simpl. by constructor.
  - destruct (String.eqb k k').
    + apply elem_of_cons in Hkg as [->|Hkg].
      * simpl. apply Forall_app. split; [|by constructor].
        apply (Hgs (k', g)). apply elem_of_cons. by left.
      * apply Hgs. apply elem_of_cons. by right.
    + apply elem_of_cons in Hkg as [->|Hkg].
      * apply (Hgs (k', g)). apply elem_of_cons. by left.
      * apply IH; [|done]. intros kg' Hkg'. apply Hgs. apply elem_of_cons. by right.
Qed.

Lemma bookGroups_all (P : obj -> Prop) hs :
  Forall P hs -> forall kg, kg ∈ bookGroups hs -> Forall P kg.2.
Proof.
  unfold bookGroups. intros Hhs.
  assert (G : forall gs, (forall kg, kg ∈ gs -> Forall P kg.2) ->
    forall kg, kg ∈ foldl (fun gs h => add_to_group (to_string (get h "bookAsin")) h gs) gs hs ->
    Forall P kg.2).
  { induction Hhs as [|h r Hh Hr IH]; intros gs Hgs; simpl; [done|].
    apply IH. by apply add_to_group_all. }
  apply G. intros kg Hkg. inversion Hkg.
Qed.

Lemma add_to_group_nonempty k h gs : add_to_group k h gs <> [].
Proof. destruct gs as [|[k' g] r]; simpl; [done|]. by destruct (String.eqb k k'). Qed.

Lemma bookGroups_nonempty hs : hs <> [] -> bookGroups hs <> [].
Proof.
  unfold bookGroups.
  assert (G : forall gs (l : list obj), gs <> [] \/ l <> [] ->
    foldl (fun gs h => add_to_group (to_string (get h "bookAsin")) h gs) gs l <> []).
  { intros gs l. revert gs. induction l as [|h r IH]; intros gs Hgs; cbn [foldl].
    - destruct Hgs; done.
    - apply IH. left. apply add_to_group_nonempty. }
  intros Hne. apply G. by right.
Qed.

(** Every record has a string [id]. *)
Definition string_ids (hs : list obj) : Prop :=
  Forall (fun h => exists s, get h "id" = JStr s) hs.

Lemma mh_pick_inv (hs : list obj) r (bh selected : list obj) :
  string_ids hs -> Forall (fun x => x ∈ hs) bh ->
  Forall (fun x => x ∈ hs) selected -> NoDup selected ->
  Forall (fun x => x ∈ hs) (mh_pick r bh selected) /\ NoDup (mh_pick r bh selected).
Proof.
  intros Hids Hbh Hsel Hnd. unfold mh_pick.
  assert (Hc : forall c, (if Nat.ltb 0 (length (unshown bh))
                          then unshown bh !! rand_index r (length (unshown bh))
                          else bh !! rand_index r (length bh)) = Some c -> c ∈ bh).
  { intros c. destruct (Nat.ltb 0 _); intros Hl; apply list_elem_of_lookup_2 in Hl; [|done].
    unfold unshown in Hl. apply list_elem_of_In, filter_In in Hl as [Hl _].
    by apply list_elem_of_In. }
  destruct (if Nat.ltb 0 _ then _ else _) as [c|]; [|done].
  specialize (Hc c eq_refl).
  destruct (existsb _ selected) eqn:He; [done|].
  rewrite Forall_forall in Hbh.
  split.
  - apply Forall_app. split; [done|]. constructor; [by apply Hbh|constructor].
  - apply NoDup_app. split; [done|]. split; [|apply NoDup_singleton].
    intros x Hx Hx'. apply list_elem_of_singleton in Hx'. subst x.
    unfold string_ids in Hids. rewrite Forall_forall in Hids. destruct (Hids c (Hbh c Hc)) as [s Hs].
    assert (existsb (fun s0 => strict_eq (get s0 "id") (get c "id")) selected = true).
    { apply existsb_exists. exists c. split; [by apply list_elem_of_In|].
      rewrite Hs. simpl. apply String.eqb_refl. }
    congruence.
Qed.

Lemma selected_bound (hs selected : list obj) :
  Forall (fun x => x ∈ hs) selected -> NoDup selected -> length selected <= length hs.
Proof.
  intros Hin Hnd. apply submseteq_length, NoDup_submseteq; [done|].
  by apply Forall_forall.
Qed.

(** The round-robin loop never leaves while fewer than [count] distinct
    records exist: [selected] stays below [count] and the wrap-around keeps
    [bookIndex] in range. *)
Lemma mh_loop_none (hs : list obj) count (rnd : nat -> Q)
  (Hids : string_ids hs) (Hcount : length hs < count) :
  forall fuel books selected bi k,
  (forall kg, kg ∈ books -> Forall (fun x => x ∈ hs) kg.2) ->
  bi < length books ->
  Forall (fun x => x ∈ hs) selected -> NoDup selected ->
  exists k', mh_loop fuel count books selected bi rnd k = Ok (None, k').
Proof.
  induction fuel as [|f IH]; intros books selected bi k Hbooks Hbi Hsel Hnd.
  - by exists k.
  - pose proof (selected_bound hs selected Hsel Hnd) as Hb.
    cbn [mh_loop].
    replace (Nat.ltb (length selected) count) with true by (symmetry; apply Nat.ltb_lt; lia).
    replace (Nat.ltb bi (length books)) with true by (symmetry; apply Nat.ltb_lt; lia).
    destruct (lookup_lt_is_Some_2 books bi Hbi) as [[key bh] Hkb].
    cbn [andb]. rewrite Hkb. unfold mbind at 1, M_bind at 1, random. cbv beta iota.
    assert (Hbh : Forall (fun x => x ∈ hs) bh).
    { apply (Hbooks (key, bh)). by eapply list_elem_of_lookup_2. }
    destruct (mh_pick_inv hs (rnd k) bh selected Hids Hbh Hsel Hnd) as [Hsel' Hnd'].
    pose proof (selected_bound hs _ Hsel' Hnd') as Hb'.
    apply IH; try done.
    destruct (Nat.leb_spec (length books) (S bi)); simpl; [|lia].
    replace (Nat.ltb _ count) with true by (symmetry; apply Nat.ltb_lt; lia). lia.
Qed.

Lemma most_highlighted_none fuel (hs : list obj) count (rnd : nat -> Q) k :
  hs <> [] -> string_ids hs -> length hs < count ->
  exists k', selectFromMostHighlightedBooks fuel hs count rnd k = Ok (None, k').
Proof.
  intros Hne Hids Hcount. unfold selectFromMostHighlightedBooks.
  apply (mh_loop_none hs); try done.
  - intros kg Hkg. unfold sortedBooks in Hkg. rewrite (sort_by_perm _ _) in Hkg.
    apply (bookGroups_all (fun x => x ∈ hs) hs); [|done]. by apply Forall_forall.
  - unfold sortedBooks. rewrite (Permutation_length (sort_by_perm _ _)).
    pose proof (bookGroups_nonempty hs Hne). destruct (bookGroups hs); simpl; [done|lia].
  - constructor.
Qed.

Lemma filterHighlights_nil now st : filterHighlights now st [] = Ok [].
Proof.
  unfold filterHighlights.
  destruct (preferredBooks st), (preferredColors st), (ogt _ _), (requiredTags st);
    reflexivity.
Qed.

Lemma selectHighlights_filtered fuel now count st d rnd k (l : list obj) :
  filterHighlights now st (map snd (map_to_list (highlights d))) = Ok l -> l <> [] ->
  selectHighlights fuel now count st d rnd k =
    match selectByAlgorithm fuel now l count
            (js_or (highlightSelectionMode st) (JStr "spaced-repetition")) rnd k with
    | Err _ => Some (mkSel "error" [])
    | Ok (None, _) => None
    | Ok (Some sel, _) => Some (mkSel "success" sel)
    end.
Proof.
  intros Hf Hne. unfold selectHighlights.
  destruct (map snd (map_to_list (highlights d))) as [|x r] eqn:Eall.
  { rewrite filterHighlights_nil in Hf. congruence. }
  cbv beta iota zeta. rewrite Hf. destruct l as [|y l']; [done|]. reflexivity.
Qed.

End PickFacts.

(* ------------------------------------------------------------------ *)
(** ** Selection claims *)

Module SelectClaims.
Import Js Aux Db Selector PickFacts.

(** A never-shown highlight of book [B1] whose text is its id. *)
Definition sel_rec (id : string) : obj :=
  <["id" := JStr id]> (<["bookAsin" := JStr "B1"]> {[ "text" := JStr id ]}).

(** Settings with no preference, and with the 'most-highlighted' mode. *)
Definition no_prefs : settings := mkSettings [] [] JUndef [] JUndef.
Definition most_highlighted : settings := mkSettings [] [] JUndef [] (JStr "most-highlighted").

(** Stores holding one and three such highlights. *)
Definition db_one : db := mkDb ∅ {[ "a" := sel_rec "a" ]}.
Definition db_three : db :=
  mkDb ∅ (<["a" := sel_rec "a"]> (<["b" := sel_rec "b"]> {[ "c" := sel_rec "c" ]})).

Definition five : list obj := map sel_rec ["a"; "b"; "c"; "d"; "e"].

(** C3 (code bug): in the 'most-highlighted' mode, when the filtered
    highlights [l] are not empty, all have string ids, and are fewer than
    [count], [selectHighlights] does not return within any number [fuel] of
    loop iterations: the wrap-around sets [bookIndex] back to 0 while
    [selected] holds at most [length l < count] records, so the loop test
    stays true. *)
Theorem most_highlighted_never_returns (fuel : nat) (now : Z) (count : nat)
    (st : settings) (d : db) (rnd : nat -> Q) (k : nat) (l : list obj)
    (Hmode : highlightSelectionMode st = JStr "most-highlighted")
    (Hf : filterHighlights now st (map snd (map_to_list (highlights d))) = Ok l)
    (Hne : l <> []) (Hids : string_ids l) (Hcount : length l < count) :
  selectHighlights fuel now count st d rnd k = None.
Proof.
  rewrite (selectHighlights_filtered fuel now count st d rnd k l Hf Hne), Hmode.
  destruct (most_highlighted_none fuel l count rnd k Hne Hids Hcount) as [k' E].
  simpl. rewrite E. reflexivity.
Qed.

Lemma most_highlighted_never_returns_witness :
  highlightSelectionMode most_highlighted = JStr "most-highlighted" /\
  filterHighlights 0 most_highlighted (map snd (map_to_list (highlights db_one))) = Ok [sel_rec "a"] /\
  [sel_rec "a"] <> [] /\ string_ids [sel_rec "a"] /\ length [sel_rec "a"] < 2 /\
  selectHighlights 1000 0 2 most_highlighted db_one (fun _ => 0%Q) 0 = None.
Proof.
  assert (Hf : filterHighlights 0 most_highlighted (map snd (map_to_list (highlights db_one)))
               = Ok [sel_rec "a"]) by reflexivity.
  assert (Hids : string_ids [sel_rec "a"]) by (repeat constructor; eexists; reflexivity).
  split; [reflexivity|]. split; [exact Hf|]. split; [discriminate|]. split; [exact Hids|].
  split; [simpl; lia|].
  apply (most_highlighted_never_returns 1000 0 2 most_highlighted db_one (fun _ => 0%Q) 0
           [sel_rec "a"] eq_refl Hf); [discriminate|exact Hids|simpl; lia].
Defined.

(** C4 (code bug): in the default mode (no [highlightSelectionMode]), when
    [n] highlights pass the filters and each is scored without an error,
    [selectHighlights] returns [min(count, (min(2 count, n) + 1) / 2)]
    highlights, which is less than [count] although [n >= count] as soon
    as [count >= 2]; e.g. 3 highlights and [count = 3] give 2. *)
Theorem default_selection_returns_half (fuel : nat) (now : Z) (count : nat)
    (st : settings) (d : db) (rnd : nat -> Q) (k : nat) (l : list obj)
    (Hmode : truthy (highlightSelectionMode st) = false)
    (Hf : filterHighlights now st (map snd (map_to_list (highlights d))) = Ok l)
    (Hne : l <> [])
    (Hr : forall j, (0 <= rnd j)%Q /\ (rnd j < 1)%Q)
    (Hs : Forall (fun h => exists b, sr_base h now = Ok b) l) :
  exists sel, selectHighlights fuel now count st d rnd k = Some (mkSel "success" sel) /\
    length sel = Nat.min count ((Nat.min (count * 2) (length l) + 1) / 2).
Proof.
  rewrite (selectHighlights_filtered fuel now count st d rnd k l Hf Hne).
  unfold js_or. rewrite Hmode.
  destruct (sr_select_spec now l count rnd k Hr Hs)
    as (scored & k1 & sel & k' & _ & _ & E & _ & Hlen).
  exists sel. cbn -[selectBySpacedRepetition]. unfold mbind, M_bind. rewrite E.
  split; [reflexivity|exact Hlen].
Qed.

Lemma default_selection_returns_half_witness :
  truthy (highlightSelectionMode no_prefs) = false /\
  filterHighlights 0 no_prefs (map snd (map_to_list (highlights db_three)))
    = Ok [sel_rec "c"; sel_rec "a"; sel_rec "b"] /\
  [sel_rec "c"; sel_rec "a"; sel_rec "b"] <> [] /\
  (forall j : nat, (0 <= (fun _ => 0%Q) j)%Q /\ ((fun _ => 0%Q) j < 1)%Q) /\
  Forall (fun h => exists b, sr_base h 0 = Ok b) [sel_rec "c"; sel_rec "a"; sel_rec "b"] /\
  (exists sel, selectHighlights 1000 0 3 no_prefs db_three (fun _ => 0%Q) 0
                 = Some (mkSel "success" sel) /\ length sel = 2).
Proof.
  assert (Hf : filterHighlights 0 no_prefs (map snd (map_to_list (highlights db_three)))
               = Ok [sel_rec "c"; sel_rec "a"; sel_rec "b"]) by reflexivity.
  assert (Hr : forall j : nat, (0 <= (fun _ => 0%Q) j)%Q /\ ((fun _ => 0%Q) j < 1)%Q).
  { intros j. split; unfold Qle, Qlt; simpl; lia. }
  assert (Hs : Forall (fun h => exists b, sr_base h 0 = Ok b) [sel_rec "c"; sel_rec "a"; sel_rec "b"])
    by (repeat constructor; eexists; reflexivity).
  split; [reflexivity|]. split; [exact Hf|]. split; [discriminate|].
  split; [exact Hr|]. split; [exact Hs|].
  destruct (default_selection_returns_half 1000 0 3 no_prefs db_three (fun _ => 0%Q) 0
              [sel_rec "c"; sel_rec "a"; sel_rec "b"] eq_refl Hf ltac:(discriminate) Hr Hs)
    as [sel [E Hlen]].
  exists sel. split; [exact E|]. rewrite Hlen. reflexivity.
Defined.

(** C6 (code bug): for [n] scored highlights and [Math.random()] in [0,1),
    [selectBySpacedRepetition] returns a sub-multiset of the top
    [min(2 count, n)] ranked candidates, of length
    [min(count, (min(2 count, n) + 1) / 2)], not [min(count, n)]: the loop
    bound [Math.min(count, candidatesCopy.length)] is re-read after every
    [splice]. *)
Theorem sr_selection_draws_half (now : Z) (hs : list obj) (count : nat)
    (rnd : nat -> Q) (k : nat)
    (Hr : forall j, (0 <= rnd j)%Q /\ (rnd j < 1)%Q)
    (Hs : Forall (fun h => exists b, sr_base h now = Ok b) hs) :
  exists scored k1 sel k',
    mapM (sr_scored now) hs rnd k = Ok (scored, k1) /\
    selectBySpacedRepetition now hs count rnd k = Ok (sel, k') /\
    sel ⊆+ take (Nat.min (count * 2) (length hs))
                (sort_by (by_score_desc "spacedRepetitionScore") scored) /\
    length sel = Nat.min count ((Nat.min (count * 2) (length hs) + 1) / 2).
Proof.
  destruct (sr_select_spec now hs count rnd k Hr Hs)
    as (scored & k1 & sel & k' & Hm & _ & E & Hsub & Hlen).
  exists scored, k1, sel, k'. auto.
Qed.

Lemma sr_selection_draws_half_witness :
  (forall j : nat, (0 <= (fun _ => 0%Q) j)%Q /\ ((fun _ => 0%Q) j < 1)%Q) /\
  Forall (fun h => exists b, sr_base h 0 = Ok b) five /\
  (exists scored k1 sel k',
    mapM (sr_scored 0) five (fun _ => 0%Q) 0 = Ok (scored, k1) /\
    selectBySpacedRepetition 0 five 5 (fun _ => 0%Q) 0 = Ok (sel, k') /\
    sel ⊆+ take (Nat.min (5 * 2) (length five))
                (sort_by (by_score_desc "spacedRepetitionScore") scored) /\
    length sel = 3).
Proof.
  assert (Hr : forall j : nat, (0 <= (fun _ => 0%Q) j)%Q /\ ((fun _ => 0%Q) j < 1)%Q).
  { intros j. split; unfold Qle, Qlt; simpl; lia. }
  assert (Hs : Forall (fun h => exists b, sr_base h 0 = Ok b) five)
    by (repeat constructor; eexists; reflexivity).
  split; [exact Hr|]. split; [exact Hs|].
  destruct (sr_selection_draws_half 0 five 5 (fun _ => 0%Q) 0 Hr Hs)
    as (scored & k1 & sel & k' & Hm & E & Hsub & Hlen).
  exists scored, k1, sel, k'. split; [exact Hm|]. split; [exact E|]. split; [exact Hsub|].
  rewrite Hlen. reflexivity.
Defined.

End SelectClaims.

(* ------------------------------------------------------------------ *)
(** ** Further properties of the store, the selector, the statistics and the parser *)

Module StoreMoreFacts.
Import Js Aux Db Snapshot Query DbMore Shapes.

Lemma fmap_map {A B} (f : A -> B) (l : list A) : f <$> l = map f l.
Proof. induction l as [|x r IH]; simpl; [done|]. by rewrite <- IH. Qed.

Lemma get_union_r (u h : obj) f : u !! f = None -> get (u ∪ h) f = get h f.
Proof. intros Hu. unfold get. by rewrite (lookup_union_r _ _ _ Hu). Qed.

(** A record holding every field of [fs] is left as it is by defaults
    that only set fields of [fs]. *)
Lemma union_complete (b D : obj) (fs : list string) :
  Forall (fun f => is_Some (b !! f)) fs -> (forall f, f ∉ fs -> D !! f = None) -> b ∪ D = b.
Proof.
  intros Hb HD. apply map_eq. intros f. rewrite lookup_union.
  destruct (b !! f) eqn:E.
  - by destruct (D !! f).
  - assert (Hf : f ∉ fs).
    { intros Hin. rewrite Forall_forall in Hb. destruct (Hb f Hin) as [x Hx]. congruence. }
    by rewrite (HD f Hf).
Qed.

Lemma addBook_complete now (b : obj) k st hs :
  get b "asin" = JStr k -> Forall (fun f => is_Some (b !! f)) book_fields ->
  addBook now b (mkDb st hs) = Ok (mkDb (<[k := b]> st) hs).
Proof.
  intros Hk Hb. unfold addBook.
  rewrite (union_complete b _ book_fields Hb).
  - unfold put. rewrite Hk. done.
  - intros f Hf. unfold book_fields in Hf.
    assert (H : "asin" <> f /\ "title" <> f /\ "author" <> f /\ "coverUrl" <> f /\
                "lastUpdated" <> f) by (repeat split; intros <-; apply Hf; set_solver).
    destruct H as (?&?&?&?&?). by simplify_map_eq.
Qed.

Lemma highlightData_complete now uuid (h : obj) :
  Forall (fun f => is_Some (h !! f)) highlight_fields -> highlightData now uuid h = h.
Proof.
  intros Hh. unfold highlightData. apply (union_complete h _ highlight_fields Hh).
  intros f Hf. unfold highlight_fields in Hf.
  assert (H : "id" <> f /\ "bookAsin" <> f /\ "text" <> f /\ "location" <> f /\
              "page" <> f /\ "dateHighlighted" <> f /\ "dateAdded" <> f /\ "color" <> f /\
              "note" <> f /\ "tags" <> f /\ "lastSentInEmail" <> f)
    by (repeat split; intros <-; apply Hf; set_solver).
  destruct H as (?&?&?&?&?&?&?&?&?&?&?). by simplify_map_eq.
Qed.

Lemma foldl_insert_list_to_map (l : list (string * obj)) (st : gmap string obj) :
  NoDup (map fst l) ->
  foldl (fun st kb => <[kb.1 := kb.2]> st) st l = list_to_map l ∪ st.
Proof.
  revert st. induction l as [|[k b] r IH]; intros st Hnd; simpl.
  - by rewrite (left_id_L ∅ (∪)).
  - inversion Hnd as [|? ? Hk Hr]; subst. rewrite IH by done.
    rewrite <- insert_union_r.
    + by rewrite insert_union_l.
    + apply not_elem_of_list_to_map_1. by rewrite fmap_map.
Qed.

Lemma import_books_fresh o s now (l : list (string * obj)) c st hs :
  NoDup (map fst l) ->
  Forall (fun kb => get kb.2 "asin" = JStr kb.1 /\
                    Forall (fun f => is_Some (kb.2 !! f)) book_fields) l ->
  (forall k, k ∈ map fst l -> st !! k = None) ->
  import_books o s now (map snd l) c (mkDb st hs) =
    (mkCounts (imported c + length l) (skipped c) (errors c),
     mkDb (foldl (fun st kb => <[kb.1 := kb.2]> st) st l) hs).
Proof.
  revert c st. induction l as [|[k b] r IH]; intros c st Hnd Hwf Hfresh; simpl.
  - destruct c; simpl. by rewrite Nat.add_0_r.
  - inversion Hnd as [|? ? Hk Hr]; subst. inversion Hwf as [|? ? [Hid Hb] Hwr]; subst.
    simpl in Hid.
    unfold import_one. unfold getBook, store_get. simpl. rewrite Hid.
    rewrite (Hfresh k) by (apply elem_of_cons; by left). simpl.
    rewrite (addBook_complete _ _ _ _ _ Hid Hb).
    rewrite IH; [| done | done |].
    + unfold count_imported. simpl. by rewrite Nat.add_succ_r.
    + intros k' Hk'. assert (k' <> k) by (intros ->; contradiction).
      rewrite lookup_insert_ne by done. apply Hfresh. apply elem_of_cons; by right.
Qed.

Lemma import_highlights_fresh o s now uuid i (l : list (string * obj)) c st bs :
  NoDup (map fst l) ->
  Forall (fun kh => get kh.2 "id" = JStr kh.1 /\
                    Forall (fun f => is_Some (kh.2 !! f)) highlight_fields) l ->
  (forall k, k ∈ map fst l -> st !! k = None) ->
  import_highlights o s now uuid i (map snd l) c (mkDb bs st) =
    (mkCounts (imported c + length l) (skipped c) (errors c),
     mkDb bs (foldl (fun st kb => <[kb.1 := kb.2]> st) st l)).
Proof.
  revert c st i. induction l as [|[k h] r IH]; intros c st i Hnd Hwf Hfresh; simpl.
  - destruct c; simpl. by rewrite Nat.add_0_r.
  - inversion Hnd as [|? ? Hk Hr]; subst. inversion Hwf as [|? ? [Hid Hh] Hwr]; subst.
    simpl in Hid.
    unfold import_one. unfold getHighlight, store_get. simpl. rewrite Hid.
    rewrite (Hfresh k) by (apply elem_of_cons; by left). simpl.
    unfold addHighlight. rewrite (highlightData_complete _ _ _ Hh).
    cbn [snd]. unfold put. rewrite Hid. simpl.
    rewrite IH; [| done | done |].
    + unfold count_imported. simpl. by rewrite Nat.add_succ_r.
    + intros k' Hk'. assert (k' <> k) by (intros ->; contradiction).
      rewrite lookup_insert_ne by done. apply Hfresh. apply elem_of_cons; by right.
Qed.

Lemma map_to_list_wf (m : gmap string obj) (P : string -> obj -> Prop) :
  map_Forall P m -> Forall (fun kb => P kb.1 kb.2) (map_to_list m).
Proof.
  intros Hm. apply Forall_forall. intros [k b] Hin.
  apply elem_of_map_to_list in Hin. by apply Hm.
Qed.

Lemma import_one_total o s lk add c d :
  total (import_one o s lk add c d).1 = S (total c).
Proof.
  unfold import_one, total.
  destruct (lk d) as [ex|e]; simpl; [|lia].
  destruct (bool_decide (is_Some ex) && negb o && s); simpl; [lia|].
  destruct (add d); simpl; lia.
Qed.

Lemma import_books_total o s now l c d :
  total (import_books o s now l c d).1 = total c + length l.
Proof.
  revert c d. induction l as [|b r IH]; intros c d; simpl; [lia|].
  pose proof (import_one_total o s (getBook (get b "asin")) (addBook now b) c d) as H.
  destruct (import_one _ _ _ _ c d) as [c' d'] eqn:E. simpl in H.
  rewrite IH. lia.
Qed.

Lemma import_highlights_total o s now uuid i l c d :
  total (import_highlights o s now uuid i l c d).1 = total c + length l.
Proof.
  revert c d i. induction l as [|h r IH]; intros c d i; simpl; [lia|].
  pose proof (import_one_total o s (getHighlight (get h "id")) (addHighlight now (uuid i) h) c d) as H.
  destruct (import_one _ _ _ _ c d) as [c' d'] eqn:E. simpl in H.
  rewrite IH. lia.
Qed.

Lemma import_one_no_skip o o' lk add c d :
  import_one o false lk add c d = import_one o' false lk add c d.
Proof.
  unfold import_one. destruct (lk d); [|done].
  by rewrite !andb_false_r.
Qed.

Lemma import_books_no_skip o o' now l c d :
  import_books o false now l c d = import_books o' false now l c d.
Proof.
  revert c d. induction l as [|b r IH]; intros c d; simpl; [done|].
  rewrite (import_one_no_skip o o'). destruct (import_one _ _ _ _ c d). apply IH.
Qed.

Lemma import_highlights_no_skip o o' now uuid i l c d :
  import_highlights o false now uuid i l c d = import_highlights o' false now uuid i l c d.
Proof.
  revert c d i. induction l as [|b r IH]; intros c d i; simpl; [done|].
  rewrite (import_one_no_skip o o'). destruct (import_one _ _ _ _ c d). apply IH.
Qed.

(** The puts of [bulkUpdateHighlights], for records that have a string id. *)
Definition put_merged (updates : obj) (st : gmap string obj) (h : obj) : gmap string obj :=
  match get h "id" with JStr k => <[k := updates ∪ h]> st | _ => st end.

Lemma bulk_puts_ok (found : list obj) updates st :
  updates !! "id" = None -> Forall (fun h => exists k, get h "id" = JStr k) found ->
  bulk_puts found updates st =
    Ok (map (fun h => updates ∪ h) found, foldl (put_merged updates) st found).
Proof.
  intros Hu. revert st. induction found as [|h r IH]; intros st Hf; simpl; [done|].
  inversion Hf as [|? ? [k Hk] Hr]; subst.
  assert (Hs : put_merged updates st h = <[k := updates ∪ h]> st)
    by (unfold put_merged; by rewrite Hk).
  rewrite Hs. unfold put. rewrite (get_union_r _ _ _ Hu), Hk. simpl.
  rewrite IH by done. done.
Qed.

Lemma bulk_lookup (hd : gmap string obj) updates (ids : list string) st k :
  map_Forall (fun k h => get h "id" = JStr k) hd ->
  foldl (put_merged updates) st (omap (fun id => hd !! id) ids) !! k =
    if decide (k ∈ ids) then
      match hd !! k with Some h => Some (updates ∪ h) | None => st !! k end
    else st !! k.
Proof.
  intros Hc. revert st. induction ids as [|x r IH]; intros st; simpl.
  - destruct (decide (k ∈ [])) as [Hin|]; [inversion Hin|done].
  - destruct (hd !! x) as [h|] eqn:Ex; simpl.
    + rewrite IH. unfold put_merged. rewrite (Hc x h Ex).
      destruct (decide (k ∈ r)) as [Hr|Hr];
        destruct (decide (k ∈ x :: r)) as [Hxr|Hxr].
      * destruct (hd !! k) eqn:Ek; [done|].
        rewrite lookup_insert_ne; [done|]. intros ->. congruence.
      * exfalso. apply Hxr. apply elem_of_cons; by right.
      * destruct (decide (x = k)) as [->|Hne].
        -- rewrite Ex. by rewrite lookup_insert_eq.
        -- exfalso. apply elem_of_cons in Hxr. destruct Hxr; [congruence|done].
      * rewrite lookup_insert_ne; [done|]. intros ->. apply Hxr. apply elem_of_cons; by left.
    + rewrite IH.
      destruct (decide (k ∈ r)) as [Hr|Hr];
        destruct (decide (k ∈ x :: r)) as [Hxr|Hxr]; try done.
      * exfalso. apply Hxr. apply elem_of_cons; by right.
      * destruct (decide (x = k)) as [->|Hne].
        -- by rewrite Ex.
        -- exfalso. apply elem_of_cons in Hxr. destruct Hxr; [congruence|done].
Qed.

Lemma omap_found_ids (hd : gmap string obj) (ids : list string) :
  map_Forall (fun k h => get h "id" = JStr k) hd ->
  Forall (fun h => exists k, get h "id" = JStr k) (omap (fun id => hd !! id) ids).
Proof.
  intros Hc. induction ids as [|x r IH]; simpl; [constructor|].
  destruct (hd !! x) eqn:Ex; [|done]. constructor; [|done]. exists x. by apply (Hc x).
Qed.

Lemma map_omap_merge (hd : gmap string obj) updates (ids : list string) :
  map (fun h => updates ∪ h) (omap (fun id => hd !! id) ids) =
    omap (fun id => (fun h => updates ∪ h) <$> hd !! id) ids.
Proof.
  induction ids as [|x r IH]; simpl; [done|].
  destruct (hd !! x); simpl; [f_equal|]; exact IH.
Qed.

(** [deleteHighlight] over a list of records with string ids. *)
Lemma delete_each_ok (l : list obj) n d :
  Forall (fun h => exists k, get h "id" = JStr k) l ->
  delete_each l n d =
    Ok (n + length l, mkDb (books d)
          (foldl (fun st id => delete id st) (highlights d)
                 (map (fun h => to_string (get h "id")) l))).
Proof.
  revert n d. induction l as [|h r IH]; intros n d Hl; simpl.
  - rewrite Nat.add_0_r. by destruct d.
  - inversion Hl as [|? ? [k Hk] Hr]; subst.
    unfold deleteHighlight, store_delete. rewrite Hk. simpl.
    rewrite IH by done. simpl. by rewrite Nat.add_succ_r.
Qed.

Lemma map_snd_filter {K} (P : obj -> bool) (l : list (K * obj)) :
  map snd (List.filter (fun kh => P kh.2) l) = List.filter P (map snd l).
Proof.
  induction l as [|[k h] r IH]; simpl; [done|]. destruct (P h); simpl; by rewrite IH.
Qed.

Lemma insert_r_ok {A} (cmp : A -> A -> result Q) (x : A) (l : list A) :
  (forall y, y ∈ l -> exists q, cmp x y = Ok q) ->
  exists l', insert_r cmp x l = Ok l' /\ l' ≡ₚ x :: l.
Proof.
  induction l as [|y r IH]; intros Hc; simpl; [by eexists|].
  destruct (Hc y) as [q Hq]; [apply elem_of_cons; by left|]. rewrite Hq. simpl.
  destruct (Qlt_le_dec q 0); [by eexists|].
  destruct IH as [r' [Hr' Hp]].
  { intros z Hz. apply Hc. apply elem_of_cons; by right. }
  rewrite Hr'. simpl. eexists; split; [done|].
  rewrite Hp. by constructor.
Qed.

Lemma sort_r_go_ok {A} (cmp : A -> A -> result Q) (L acc l : list A) :
  (forall x y, x ∈ L -> y ∈ L -> exists q, cmp x y = Ok q) ->
  (forall x, x ∈ acc -> x ∈ L) -> (forall x, x ∈ l -> x ∈ L) ->
  exists l', sort_r_go cmp acc l = Ok l' /\ l' ≡ₚ l ++ acc.
Proof.
  intros Hc. revert acc. induction l as [|x r IH]; intros acc Hacc Hl; simpl; [by eexists|].
  destruct (insert_r_ok cmp x acc) as [a' [Ha' Hp]].
  { intros y Hy. apply Hc; [apply Hl; apply elem_of_cons; by left|by apply Hacc]. }
  rewrite Ha'. simpl.
  destruct (IH a') as [l' [Hl' Hp']].
  - intros y Hy. rewrite Hp in Hy. apply elem_of_cons in Hy as [->|Hy].
    + apply Hl. apply elem_of_cons; by left.
    + by apply Hacc.
  - intros y Hy. apply Hl. apply elem_of_cons; by right.
  - exists l'. split; [done|]. rewrite Hp', Hp. by rewrite Permutation_middle.
Qed.

Lemma by_book_cmp_ok localeCompare sortBy (a b : obj) :
  (exists s, get a "location" = JStr s) -> (exists s, get b "location" = JStr s) ->
  (exists s, get a "color" = JStr s) ->
  exists q, by_book_cmp localeCompare sortBy a b = Ok q.
Proof.
  intros [la Ha] [lb Hb] [ca Hca]. unfold by_book_cmp.
  destruct (String.eqb sortBy "location").
  { unfold location_cmp. rewrite Ha, Hb. simpl. by eexists. }
  destruct (String.eqb sortBy "dateAdded"); [by eexists|].
  destruct (String.eqb sortBy "color"); [|by eexists].
  rewrite Hca. by eexists.
Qed.

Lemma in_values (m : gmap string obj) h :
  In h (map snd (map_to_list m)) <-> exists k, m !! k = Some h.
Proof.
  rewrite in_map_iff. split.
  - intros [[k h'] [Eq Hin]]. simpl in Eq. subst. exists k.
    apply elem_of_map_to_list. by apply list_elem_of_In.
  - intros [k Hk]. exists (k, h). split; [done|].
    apply list_elem_of_In. by apply elem_of_map_to_list.
Qed.

Lemma strict_eq_str v s : strict_eq v (JStr s) = true -> v = JStr s.
Proof.
  destruct v; simpl; try discriminate. intros E. apply String.eqb_eq in E. by subst.
Qed.

End StoreMoreFacts.

Module StoreExtras.
Import Js Aux Db Snapshot Query DbMore AuxFacts DbFacts Shapes StoreMoreFacts.

(** [updateHighlight] fails on a missing id; on a record stored under its own id, with updates that carry no [id], it stores [{...highlight, ...updates}] under the same key and changes nothing else. *)
Lemma updateHighlight_merge (id : string) (updates : obj) (d : db) :
  (highlights d !! id = None -> exists e, updateHighlight id updates d = Err e) /\
  (forall h, highlights d !! id = Some h -> get h "id" = JStr id -> updates !! "id" = None ->
   exists d', updateHighlight id updates d = Ok d' /\ books d' = books d /\
     highlights d' !! id = Some (updates ∪ h) /\
     forall k, k <> id -> highlights d' !! k = highlights d !! k).
Proof.
  split.
  - intros Hn. unfold updateHighlight. rewrite Hn. by eexists.
  - intros h Hh Hid Hu. unfold updateHighlight. rewrite Hh. unfold put.
    rewrite (get_union_r _ _ _ Hu), Hid. simpl.
    eexists; split; [done|]. simpl. split; [done|]. split.
    + by rewrite lookup_insert_eq.
    + intros k Hk. by rewrite lookup_insert_ne.
Qed.

(** Updates that carry another id [k] make [updateHighlight] store the merged record under [k] (its keyPath) and leave the old record under [id]. *)
Lemma updateHighlight_new_id (id k : string) (updates h : obj) (d : db) :
  highlights d !! id = Some h -> updates !! "id" = Some (JStr k) -> k <> id ->
  exists d', updateHighlight id updates d = Ok d' /\
    highlights d' !! id = Some h /\ highlights d' !! k = Some (updates ∪ h).
Proof.
  intros Hh Hu Hk. unfold updateHighlight. rewrite Hh. unfold put.
  assert (E : get (updates ∪ h) "id" = JStr k).
  { unfold get. by rewrite (lookup_union_Some_l _ _ _ _ Hu). }
  rewrite E. simpl. eexists; split; [done|]. simpl. split.
  - by rewrite lookup_insert_ne.
  - by rewrite lookup_insert_eq.
Qed.

Lemma updateHighlight_new_id_witness :
  let h : obj := {[ "id" := JStr "a" ]} in
  let d := mkDb ∅ {[ "a" := h ]} in
  let u : obj := {[ "id" := JStr "b" ]} in
  (d.(highlights) !! "a" = Some h /\ u !! "id" = Some (JStr "b") /\ "b" <> "a") /\
  exists d', updateHighlight "a" u d = Ok d' /\
    highlights d' !! "a" = Some h /\ highlights d' !! "b" = Some (u ∪ h).
Proof.
  intros h d u. split; [split; [reflexivity|split; [reflexivity|discriminate]]|].
  apply (updateHighlight_new_id "a" "b" u h d); [reflexivity|reflexivity|discriminate].
Defined.

(** [updateBook] fails on a missing book; otherwise it stores under the same asin a record whose [lastUpdated] is [now] and whose other fields come from the updates, else from the book. *)
Lemma updateBook_spec now (a : string) (updates : obj) (d : db) :
  (books d !! a = None -> exists e, updateBook now (JStr a) updates d = Err e) /\
  (forall b, books d !! a = Some b -> get b "asin" = JStr a -> updates !! "asin" = None ->
   exists r, updateBook now (JStr a) updates d = Ok (mkDb (<[a := r]> (books d)) (highlights d)) /\
     get r "lastUpdated" = JNum now /\
     forall f, f <> "lastUpdated" ->
       get r f = match updates !! f with Some v => v | None => get b f end).
Proof.
  split.
  - intros Hn. unfold updateBook, getBook, store_get. simpl. rewrite Hn. simpl. by eexists.
  - intros b Hb Ha Hu. unfold updateBook, getBook, store_get. simpl. rewrite Hb. simpl.
    exists (<["lastUpdated" := JNum now]> (updates ∪ b)). unfold put.
    assert (E : get (<["lastUpdated" := JNum now]> (updates ∪ b)) "asin" = JStr a).
    { unfold get. rewrite lookup_insert_ne by discriminate.
      rewrite (lookup_union_r _ _ _ Hu). exact Ha. }
    rewrite E. simpl. split; [done|]. split.
    + unfold get. by rewrite lookup_insert_eq.
    + intros f Hf. unfold get. rewrite lookup_insert_ne by done. rewrite lookup_union.
      destruct (updates !! f), (b !! f); reflexivity.
Qed.

(** [deleteHighlight] and [deleteBook] always succeed: afterwards the key reads as absent, other keys and the other store are unchanged, and deleting an absent key changes nothing. *)
Lemma delete_spec (k : string) (d : db) :
  (exists d', deleteHighlight (JStr k) d = Ok d' /\ books d' = books d /\
     getHighlight (JStr k) d' = Ok None /\
     (forall k', k' <> k -> highlights d' !! k' = highlights d !! k') /\
     (highlights d !! k = None -> d' = d)) /\
  (exists d', deleteBook (JStr k) d = Ok d' /\ highlights d' = highlights d /\
     getBook (JStr k) d' = Ok None /\
     (forall k', k' <> k -> books d' !! k' = books d !! k') /\
     (books d !! k = None -> d' = d)).
Proof.
  split.
  - eexists. split; [reflexivity|]. simpl. split; [done|]. split.
    + unfold getHighlight, store_get. simpl. by rewrite lookup_delete_eq.
    + split.
      * intros k' Hk'. by rewrite lookup_delete_ne.
      * intros Hn. destruct d as [bs hs]. simpl in *. by rewrite delete_id.
  - eexists. split; [reflexivity|]. simpl. split; [done|]. split.
    + unfold getBook, store_get. simpl. by rewrite lookup_delete_eq.
    + split.
      * intros k' Hk'. by rewrite lookup_delete_ne.
      * intros Hn. destruct d as [bs hs]. simpl in *. by rewrite delete_id.
Qed.

(** On a store whose records sit under their own ids, [bulkUpdateHighlights] returns the merged records of the ids found, in the order of [ids], and merges the updates into exactly those records. *)
Lemma bulkUpdateHighlights_spec (ids : list string) (updates : obj) (d : db) :
  map_Forall (fun k h => get h "id" = JStr k) (highlights d) -> updates !! "id" = None ->
  exists d', bulkUpdateHighlights ids updates d =
      Ok (omap (fun id => (fun h => updates ∪ h) <$> highlights d !! id) ids, d') /\
    books d' = books d /\
    forall k, highlights d' !! k =
      if decide (k ∈ ids) then (fun h => updates ∪ h) <$> highlights d !! k
      else highlights d !! k.
Proof.
  intros Hc Hu. unfold bulkUpdateHighlights. destruct ids as [|x r].
  - exists d. split; [done|]. split; [done|]. intros k.
    destruct (decide (k ∈ [])) as [Hin|]; [inversion Hin|done].
  - rewrite (bulk_puts_ok _ _ _ Hu (omap_found_ids _ (x :: r) Hc)).
    rewrite map_omap_merge. simpl.
    eexists; split; [reflexivity|]. split; [done|]. intros k. simpl.
    rewrite (bulk_lookup _ _ (x :: r) _ k Hc).
    destruct (decide (k ∈ x :: r)); [|done].
    destruct (highlights d !! k) eqn:E; simpl; [done|]. done.
Qed.

Lemma bulkUpdateHighlights_spec_witness :
  let h : obj := {[ "id" := JStr "a" ]} in
  let d := mkDb ∅ {[ "a" := h ]} in
  let u : obj := {[ "color" := JStr "blue" ]} in
  (map_Forall (fun k h => get h "id" = JStr k) (highlights d) /\ u !! "id" = None) /\
  exists d', bulkUpdateHighlights ["a"; "a"; "z"] u d =
      Ok (omap (fun id => (fun h => u ∪ h) <$> highlights d !! id) ["a"; "a"; "z"], d') /\
    books d' = books d /\
    forall k, highlights d' !! k =
      if decide (k ∈ ["a"; "a"; "z"]) then (fun h => u ∪ h) <$> highlights d !! k
      else highlights d !! k.
Proof.
  intros h d u. split; [split; [apply map_Forall_singleton; reflexivity|reflexivity]|].
  apply (bulkUpdateHighlights_spec ["a"; "a"; "z"] u d);
    [apply map_Forall_singleton; reflexivity|reflexivity].
Defined.

(** Every book and every highlight of the snapshot is counted once by [importData]: imported, skipped and errors add up to the length of each array. *)
Lemma importData_counts o s now uuid (snap : snapshot) (d : db) :
  total (books_res (importData o s now uuid snap d).1) = length (default [] (data_books snap)) /\
  total (highlights_res (importData o s now uuid snap d).1) =
    length (default [] (data_highlights snap)).
Proof.
  unfold importData.
  destruct (data_books snap) as [lb|]; destruct (data_highlights snap) as [lh|]; simpl.
  all: repeat match goal with
    | |- context [import_books ?o ?s ?n ?l ?c ?d] =>
        pose proof (import_books_total o s n l c d);
        destruct (import_books o s n l c d) eqn:?
    | |- context [import_highlights ?o ?s ?n ?u ?i ?l ?c ?d] =>
        pose proof (import_highlights_total o s n u i l c d);
        destruct (import_highlights o s n u i l c d) eqn:?
    end; simpl in *; unfold total in *; simpl in *; lia.
Qed.

(** Without [skipDuplicates], the [overwrite] flag of [importData] makes no difference. *)
Lemma importData_no_skip_overwrite now uuid (snap : snapshot) (d : db) :
  importData true false now uuid snap d = importData false false now uuid snap d.
Proof.
  unfold importData. destruct (data_books snap) as [lb|].
  - rewrite (import_books_no_skip true false).
    destruct (import_books false false now lb zero_counts d) as [cb d1].
    destruct (data_highlights snap) as [lh|]; [|done].
    by rewrite (import_highlights_no_skip true false).
  - destruct (data_highlights snap) as [lh|]; [|done].
    by rewrite (import_highlights_no_skip true false).
Qed.

(** Importing the export of a well-formed store into an empty store gives back the same store, with every record counted as imported. *)
Lemma export_import_roundtrip o s now uuid (date : string) (d : db) :
  well_formed d ->
  importData o s now uuid (exportAllData date d) (mkDb ∅ ∅) =
    (mkResults (mkCounts (size (books d)) 0 0) (mkCounts (size (highlights d)) 0 0), d).
Proof.
  intros [Hb Hh]. unfold importData, exportAllData. cbn [data_books data_highlights].
  rewrite (import_books_fresh o s now (map_to_list (books d)) zero_counts ∅ ∅).
  2: { rewrite <- fmap_map. apply NoDup_fst_map_to_list. }
  2: { apply (map_to_list_wf _ _ Hb). }
  2: { intros k _. apply lookup_empty. }
  rewrite (import_highlights_fresh o s now uuid 0 (map_to_list (highlights d)) zero_counts ∅).
  2: { rewrite <- fmap_map. apply NoDup_fst_map_to_list. }
  2: { apply (map_to_list_wf _ _ Hh). }
  2: { intros k _. apply lookup_empty. }
  rewrite !foldl_insert_list_to_map by (rewrite <- fmap_map; apply NoDup_fst_map_to_list).
  rewrite !list_to_map_to_list, !(right_id_L ∅ (∪)), !length_map_to_list.
  destruct d. reflexivity.
Qed.

Lemma export_import_roundtrip_witness :
  let b : obj := {[ "asin" := JStr "B1" ]} ∪ {[ "title" := JStr "T" ]} ∪
                 {[ "author" := JStr "A" ]} ∪ {[ "coverUrl" := JStr "" ]} ∪
                 {[ "lastUpdated" := JNum 5 ]} in
  let h : obj := {[ "id" := JStr "h1" ]} ∪ {[ "bookAsin" := JStr "B1" ]} ∪
                 {[ "text" := JStr "x" ]} ∪ {[ "location" := JStr "" ]} ∪
                 {[ "page" := JStr "" ]} ∪ {[ "dateHighlighted" := JNum 1 ]} ∪
                 {[ "dateAdded" := JNum 2 ]} ∪ {[ "color" := JStr "yellow" ]} ∪
                 {[ "note" := JStr "" ]} ∪ {[ "tags" := JArr [] ]} ∪
                 {[ "lastSentInEmail" := JNull ]} in
  let d := mkDb {[ "B1" := b ]} {[ "h1" := h ]} in
  well_formed d /\
  importData false true 9 (fun _ => "u") (exportAllData "now" d) (mkDb ∅ ∅) =
    (mkResults (mkCounts (size (books d)) 0 0) (mkCounts (size (highlights d)) 0 0), d).
Proof.
  intros b h d.
  assert (W : well_formed d).
  { split; apply map_Forall_singleton; (split; [reflexivity|]);
      repeat (constructor; [eexists; reflexivity|]); constructor. }
  split; [exact W|]. apply export_import_roundtrip. exact W.
Defined.

(** The orphan clean-up of [cleanup] removes exactly the highlights whose [bookAsin] matches no stored book's [asin], reports their number and keeps the books. *)
Lemma cleanupOrphans_spec (d : db) :
  map_Forall (fun k h => get h "id" = JStr k) (highlights d) ->
  exists d', cleanupOrphans d = Ok (length (orphanedHighlights d), d') /\ books d' = books d /\
    forall k h, highlights d' !! k = Some h <->
      highlights d !! k = Some h /\
      exists a b, books d !! a = Some b /\
                  same_value_zero (get b "asin") (get h "bookAsin") = true.
Proof.
  intros Hc.
  assert (Hids : Forall (fun h => exists k, get h "id" = JStr k) (orphanedHighlights d)).
  { apply Forall_forall. intros h Hin. apply list_elem_of_In in Hin.
    unfold orphanedHighlights in Hin. apply filter_In in Hin as [Hin _].
    apply in_values in Hin as [k Hk]. exists k. by apply (Hc k). }
  unfold cleanupOrphans. rewrite (delete_each_ok _ 0 d Hids). simpl.
  eexists; split; [reflexivity|]. split; [done|]. intros k h. simpl.
  rewrite foldl_delete_lookup.
  set (asins := map (fun b => get b "asin") (map snd (map_to_list (books d)))).
  destruct (decide (k ∈ map (fun h => to_string (get h "id")) (orphanedHighlights d)))
    as [Hin|Hnin].
  - split; [discriminate|]. intros [Hk [a [b [Ha Hs]]]]. exfalso.
    apply list_elem_of_In, in_map_iff in Hin as [h' [Eid Hin]].
    unfold orphanedHighlights in Hin. apply filter_In in Hin as [Hin Hneg].
    apply in_values in Hin as [k' Hk'].
    rewrite (Hc k' h' Hk') in Eid. simpl in Eid. subst k'.
    rewrite Hk in Hk'. injection Hk' as <-.
    apply negb_true_iff in Hneg. fold asins in Hneg.
    assert (Hex : existsb (fun a => same_value_zero a (get h "bookAsin")) asins = true).
    { apply existsb_exists. exists (get b "asin"). split; [|done].
      apply (in_map (fun b => get b "asin")). apply in_values. by exists a. }
    congruence.
  - split; [intros Hk; split; [done|]|intros [Hk _]; done].
    destruct (existsb (fun a => same_value_zero a (get h "bookAsin")) asins) eqn:E.
    + apply existsb_exists in E as [x [Hx Hs]].
      apply in_map_iff in Hx as [b [<- Hb]]. apply in_values in Hb as [a Ha].
      by exists a, b.
    + exfalso. apply Hnin. apply list_elem_of_In, in_map_iff.
      exists h. split; [by rewrite (Hc k h Hk)|].
      unfold orphanedHighlights. apply filter_In. split.
      * apply in_values. by exists k.
      * fold asins. by rewrite E.
Qed.

Lemma cleanupOrphans_spec_witness :
  let h1 : obj := {[ "id" := JStr "h1" ]} ∪ {[ "bookAsin" := JStr "B1" ]} in
  let h2 : obj := {[ "id" := JStr "h2" ]} ∪ {[ "bookAsin" := JStr "B2" ]} in
  let d := mkDb {[ "B1" := {[ "asin" := JStr "B1" ]} ]} (<[ "h1" := h1 ]> {[ "h2" := h2 ]}) in
  map_Forall (fun k h => get h "id" = JStr k) (highlights d) /\
  exists d', cleanupOrphans d = Ok (length (orphanedHighlights d), d') /\ books d' = books d /\
    forall k h, highlights d' !! k = Some h <->
      highlights d !! k = Some h /\
      exists a b, books d !! a = Some b /\
                  same_value_zero (get b "asin") (get h "bookAsin") = true.
Proof.
  intros h1 h2 d.
  assert (W : map_Forall (fun k h => get h "id" = JStr k) (highlights d)).
  { apply map_Forall_insert_2; [reflexivity|]. apply map_Forall_singleton. reflexivity. }
  split; [exact W|]. apply cleanupOrphans_spec. exact W.
Defined.

(** Whatever the collation of [localeCompare], when the book's highlights have string locations and colours, [getHighlightsByBook] succeeds and returns a permutation of the highlights whose [bookAsin] is the asin. *)
Lemma getHighlightsByBook_perm (localeCompare : string -> string -> Z)
    (asin sortBy : string) (d : db) :
  (forall k h, highlights d !! k = Some h -> get h "bookAsin" = JStr asin ->
     (exists s, get h "location" = JStr s) /\ (exists s, get h "color" = JStr s)) ->
  exists l, getHighlightsByBook localeCompare asin sortBy d = Ok l /\
    l ≡ₚ List.filter (fun h => strict_eq (get h "bookAsin") (JStr asin))
           (map snd (map_to_list (highlights d))).
Proof.
  intros H. unfold getHighlightsByBook, sort_r.
  set (F := List.filter (fun h => strict_eq (get h "bookAsin") (JStr asin))
              (map snd (map_to_list (highlights d)))).
  assert (HL : book_cursor asin d ≡ₚ F).
  { unfold book_cursor, F. rewrite sort_by_perm.
    apply Permutation_refl'.
    apply (map_snd_filter (fun h => strict_eq (get h "bookAsin") (JStr asin))). }
  assert (Hm : forall x, x ∈ F -> (exists s, get x "location" = JStr s) /\
                                  (exists s, get x "color" = JStr s)).
  { intros x Hx. apply list_elem_of_In in Hx. unfold F in Hx.
    apply filter_In in Hx as [Hx Ha]. apply in_values in Hx as [k Hk].
    apply (H k); [done|]. by apply strict_eq_str. }
  destruct (sort_r_go_ok (by_book_cmp localeCompare sortBy) F [] (book_cursor asin d)) as [l [Hl Hp]].
  - intros x y Hx Hy. destruct (Hm x Hx) as [Hxl Hxc]. destruct (Hm y Hy) as [Hyl _].
    by apply by_book_cmp_ok.
  - intros x Hx. inversion Hx.
  - intros x Hx. by rewrite <- HL.
  - exists l. split; [done|]. rewrite Hp, app_nil_r. exact HL.
Qed.

Lemma getHighlightsByBook_perm_witness :
  let h1 : obj := {[ "bookAsin" := JStr "B1" ]} ∪ {[ "location" := JStr "Page 3" ]} ∪
                  {[ "color" := JStr "yellow" ]} in
  let h2 : obj := {[ "bookAsin" := JStr "B1" ]} ∪ {[ "location" := JStr "Page 1" ]} ∪
                  {[ "color" := JStr "blue" ]} in
  let d := mkDb ∅ (<[ "a" := h1 ]> {[ "b" := h2 ]}) in
  (forall k h, highlights d !! k = Some h -> get h "bookAsin" = JStr "B1" ->
     (exists s, get h "location" = JStr s) /\ (exists s, get h "color" = JStr s)) /\
  exists l, getHighlightsByBook codeUnitCompare "B1" "location" d = Ok l /\
    l ≡ₚ List.filter (fun h => strict_eq (get h "bookAsin") (JStr "B1"))
           (map snd (map_to_list (highlights d))).
Proof.
  intros h1 h2 d.
  assert (W : forall k h, highlights d !! k = Some h -> get h "bookAsin" = JStr "B1" ->
     (exists s, get h "location" = JStr s) /\ (exists s, get h "color" = JStr s)).
  { intros k h Hk _. simpl in Hk. apply lookup_insert_Some in Hk as [[_ <-]|[_ Hk]].
    - split; eexists; reflexivity.
    - apply lookup_singleton_Some in Hk as [_ <-]. split; eexists; reflexivity. }
  split; [exact W|]. apply getHighlightsByBook_perm. exact W.
Defined.

End StoreExtras.

Module SelectMoreFacts.
Import Js Aux Db Query Selector DbMore AuxFacts ShownClaims PickFacts StoreMoreFacts.

(** Insertion sort orders by a key when the comparator is the key difference. *)
Lemma insert_by_sorted {A} (cmp : A -> A -> Q) (key : A -> Q) (x : A) (l : list A) :
  (forall y, y ∈ l -> (cmp x y == key x - key y)%Q) ->
  StronglySorted (fun a b => (key a <= key b)%Q) l ->
  StronglySorted (fun a b => (key a <= key b)%Q) (insert_by cmp x l).
Proof.
  induction l as [|y r IH]; intros Hc Hs; simpl.
  - repeat constructor.
  - inversion Hs as [|? ? Hr Hy]; subst.
    assert (Hxy : (cmp x y == key x - key y)%Q) by (apply Hc; apply elem_of_cons; by left).
    destruct (Qlt_le_dec (cmp x y) 0) as [Hlt|Hle].
    + constructor; [exact Hs|]. constructor.
      * lra.
      * rewrite Forall_forall in Hy |- *. intros z Hz. specialize (Hy z Hz). lra.
    + constructor.
      * apply IH; [|exact Hr]. intros z Hz. apply Hc. apply elem_of_cons; by right.
      * apply Forall_forall. intros z Hz.
        apply elem_of_insert_by in Hz as [->|Hz].
        -- lra.
        -- rewrite Forall_forall in Hy. by apply Hy.
Qed.

Lemma sort_by_sorted {A} (cmp : A -> A -> Q) (key : A -> Q) (l : list A) :
  (forall a b, a ∈ l -> b ∈ l -> (cmp a b == key a - key b)%Q) ->
  StronglySorted (fun a b => (key a <= key b)%Q) (sort_by cmp l).
Proof.
  intros Hc. unfold sort_by.
  assert (G : forall pre acc, acc ⊆ pre -> (forall a b, a ∈ pre -> b ∈ pre -> (cmp a b == key a - key b)%Q) ->
     forall rest, rest ⊆ pre ->
     StronglySorted (fun a b => (key a <= key b)%Q) acc ->
     StronglySorted (fun a b => (key a <= key b)%Q) (fold_left (fun acc x => insert_by cmp x acc) rest acc)).
  { intros pre acc Hacc Hp rest. revert acc Hacc.
    induction rest as [|x r IH]; intros acc Hacc Hrest Hs; simpl; [exact Hs|].
    apply IH.
    - intros z Hz. apply elem_of_insert_by in Hz as [->|Hz].
      + apply Hrest. apply elem_of_cons; by left.
      + by apply Hacc.
    - intros z Hz. apply Hrest. apply elem_of_cons; by right.
    - apply insert_by_sorted; [|exact Hs]. intros y Hy. apply Hp; [|by apply Hacc].
      apply Hrest. apply elem_of_cons; by left. }
  apply (G l); [set_solver|exact Hc|done|constructor].
Qed.

Lemma take_drop_sorted {A} (R : A -> A -> Prop) (l : list A) n :
  StronglySorted R l ->
  StronglySorted R (take n l) /\ forall a b, a ∈ take n l -> b ∈ drop n l -> R a b.
Proof.
  intros Hs. rewrite <- (take_drop n l) in Hs.
  induction (take n l) as [|x r IH]; simpl in *.
  - split; [constructor|]. intros a b Ha. inversion Ha.
  - inversion Hs as [|? ? Hr Hx]; subst. destruct (IH Hr) as [IH1 IH2]. split.
    + constructor; [exact IH1|]. apply Forall_app in Hx. apply Hx.
    + intros a b Ha Hb. apply elem_of_cons in Ha as [->|Ha]; [|by apply IH2].
      apply Forall_app in Hx as [_ Hx]. rewrite Forall_forall in Hx. by apply Hx.
Qed.

Lemma insert_m_ok {A} (cmp : A -> A -> M Q) (rnd : nat -> Q) (x : A) (l : list A) :
  (forall a b k, exists q k', cmp a b rnd k = Ok (q, k')) ->
  forall k, exists l' k', insert_m cmp x l rnd k = Ok (l', k') /\ l' ≡ₚ x :: l.
Proof.
  intros Hc. induction l as [|y r IH]; intros k.
  - exists [x], k. split; reflexivity.
  - destruct (Hc x y k) as (q & k1 & Hq). cbn [insert_m].
    unfold mbind at 1, M_bind at 1. rewrite Hq.
    destruct (Qlt_le_dec q 0).
    + exists (x :: y :: r), k1. split; reflexivity.
    + destruct (IH k1) as (r' & k' & Hr & Hp). unfold mbind, M_bind. rewrite Hr.
      exists (y :: r'), k'. split; [reflexivity|]. rewrite Hp. by constructor.
Qed.

Lemma sort_m_go_ok {A} (cmp : A -> A -> M Q) (rnd : nat -> Q) :
  (forall a b k, exists q k', cmp a b rnd k = Ok (q, k')) ->
  forall l acc k, exists l' k', sort_m_go cmp acc l rnd k = Ok (l', k') /\ l' ≡ₚ l ++ acc.
Proof.
  intros Hc. induction l as [|x r IH]; intros acc k.
  - exists acc, k. split; reflexivity.
  - destruct (insert_m_ok cmp rnd x acc Hc k) as (a' & k1 & Ha & Hp).
    cbn [sort_m_go]. unfold mbind at 1, M_bind at 1. rewrite Ha.
    destruct (IH a' k1) as (l' & k' & Hl & Hp'). exists l', k'. split; [exact Hl|].
    rewrite Hp', Hp. simpl. symmetry. apply Permutation_middle.
Qed.

Lemma take_perm_submseteq {A} (l l' : list A) n : l' ≡ₚ l -> take n l' ⊆+ l.
Proof.
  intros Hp. rewrite <- Hp. apply sublist_submseteq. apply sublist_take.
Qed.

Lemma weighted_ok now (h : obj) b rnd k :
  note_nonblank h = Ok b -> exists y k', calculateWeightedScore h now rnd k = Ok (y, k').
Proof.
  intros Hb. unfold calculateWeightedScore, calculateSpacedRepetitionScore, sr_base.
  unfold mbind, M_bind, lift, random. rewrite Hb. simpl.
  do 2 eexists. reflexivity.
Qed.

Lemma sublist_filter {A} (p : A -> bool) (l : list A) : sublist (List.filter p l) l.
Proof.
  induction l as [|x r IH]; simpl; [constructor|].
  destruct (p x); [by apply sublist_skip|by apply sublist_cons].
Qed.

Lemma filter_r_spec {A} (p : A -> result bool) (l l' : list A) :
  filter_r p l = Ok l' -> sublist l' l /\ forall x, x ∈ l' <-> x ∈ l /\ p x = Ok true.
Proof.
  revert l'. induction l as [|x r IH]; intros l' H; simpl in H.
  - injection H as <-. split; [constructor|]. intros y. split; [intros Hy; inversion Hy|].
    intros [Hy _]. inversion Hy.
  - destruct (p x) as [b|e] eqn:Ep; simpl in H; [|discriminate].
    destruct (filter_r p r) as [r'|e] eqn:Er; simpl in H; [|discriminate].
    destruct (IH r' eq_refl) as [Hs Hm]. injection H as <-. destruct b.
    + split; [by apply sublist_skip|]. intros y. rewrite !elem_of_cons, Hm.
      split; [intros [->|?]; [auto|tauto]|intros [[->|?] ?]; tauto].
    + split; [by apply sublist_cons|]. intros y. rewrite elem_of_cons, Hm.
      split; [tauto|]. intros [[->|?] ?]; [congruence|tauto].
Qed.

Lemma filter_elem {A} (p : A -> bool) (l : list A) x :
  x ∈ List.filter p l <-> x ∈ l /\ p x = true.
Proof. rewrite !list_elem_of_In. apply filter_In. Qed.

(** The [markHighlightsAsShown] loop on a store whose records sit under
    their own ids. *)
Lemma mark_loop_spec now (ids : list string) (d : db) :
  map_Forall (fun k h => get h "id" = JStr k) (highlights d) ->
  (mark_loop now ids d).1 = true /\ books (mark_loop now ids d).2 = books d /\
  map_Forall (fun k h => get h "id" = JStr k) (highlights (mark_loop now ids d).2) /\
  (forall k, highlights d !! k = None -> highlights (mark_loop now ids d).2 !! k = None) /\
  forall k h n, highlights d !! k = Some h -> ts_value h = JNum n ->
    exists h', highlights (mark_loop now ids d).2 !! k = Some h' /\
      ts_value h' = JNum (n + Z.of_nat (count_occ String.string_dec ids k)) /\
      (k ∈ ids -> get h' "lastShown" = JNum now) /\ (k ∉ ids -> h' = h).
Proof.
  revert d. induction ids as [|id r IH]; intros d Hc.
  - simpl. split; [done|]. split; [done|]. split; [done|]. split; [done|].
    intros k h n Hk Hn. exists h. split; [done|]. split; [by rewrite Z.add_0_r|].
    split; [intros Hin; inversion Hin|done].
  - cbn [mark_loop]. unfold getHighlight, store_get.
    destruct (highlights d !! id) as [h0|] eqn:Eid.
    + set (u := <["lastShown" := JNum now]>
                  ({[ "timesShown" := plus_num (js_or (get h0 "timesShown") (JNum 0)) 1 ]} : obj)).
      assert (Hu : get (u ∪ h0) "id" = JStr id).
      { rewrite get_union_r; [by apply (Hc id)|].
        unfold u. rewrite lookup_insert_ne by discriminate. by rewrite lookup_singleton_ne. }
      unfold updateHighlight. rewrite Eid. unfold put. rewrite Hu. cbn [mbind result_bind].
      set (d1 := mkDb (books d) (<[id := u ∪ h0]> (highlights d))).
      assert (Hc1 : map_Forall (fun k h => get h "id" = JStr k) (highlights d1)).
      { apply map_Forall_insert_2; [exact Hu|exact Hc]. }
      destruct (IH d1 Hc1) as (H1 & H2 & H3 & H4 & H5).
      split; [exact H1|]. split; [exact H2|]. split; [exact H3|]. split.
      { intros k Hk. apply H4. simpl. rewrite lookup_insert_ne; [done|]. intros ->. congruence. }
      intros k h n Hk Hn. destruct (decide (id = k)) as [<-|Hne].
      * rewrite Eid in Hk. injection Hk as <-.
        assert (Ht : ts_value (u ∪ h0) = JNum (n + 1)).
        { unfold ts_value in *. unfold get at 1. rewrite lookup_union_Some_l with (x := JNum (n + 1)).
          - unfold js_or. simpl. destruct (Z.eqb_spec (n + 1) 0) as [E|E]; simpl;
              [rewrite E|]; reflexivity.
          - unfold u. rewrite lookup_insert_ne by discriminate. rewrite lookup_singleton_eq.
            by rewrite Hn. }
        destruct (H5 id (u ∪ h0) (n + 1)%Z) as (h' & Hh' & Ht' & Hl' & He');
          [simpl; by rewrite lookup_insert_eq|exact Ht|].
        exists h'. split; [exact Hh'|]. split.
        { rewrite Ht'. cbn [count_occ]. destruct (String.string_dec id id); [|done]. f_equal. lia. }
        split; [|intros Hn'; exfalso; apply Hn'; apply elem_of_cons; by left].
        intros _. destruct (decide (id ∈ r)) as [Hr|Hr]; [by apply Hl'|].
        rewrite (He' Hr). unfold get. rewrite lookup_union_Some_l with (x := JNum now); [done|].
        unfold u. by rewrite lookup_insert_eq.
      * destruct (H5 k h n) as (h' & Hh' & Ht' & Hl' & He');
          [simpl; by rewrite lookup_insert_ne|exact Hn|].
        exists h'. split; [exact Hh'|]. split.
        { rewrite Ht'. cbn [count_occ]. destruct (String.string_dec id k); [done|]. done. }
        split.
        { intros Hin. apply Hl'. apply elem_of_cons in Hin as [->|Hin]; [done|exact Hin]. }
        intros Hnin. apply He'. intros Hin. apply Hnin. apply elem_of_cons; by right.
    + destruct (IH d Hc) as (H1 & H2 & H3 & H4 & H5).
      split; [exact H1|]. split; [exact H2|]. split; [exact H3|]. split; [exact H4|].
      intros k h n Hk Hn. destruct (H5 k h n Hk Hn) as (h' & Hh' & Ht' & Hl' & He').
      assert (id <> k) by (intros ->; congruence).
      exists h'. split; [exact Hh'|]. split.
      { rewrite Ht'. cbn [count_occ]. destruct (String.string_dec id k); [done|]. done. }
      split.
      { intros Hin. apply Hl'. apply elem_of_cons in Hin as [->|Hin]; [done|exact Hin]. }
      intros Hnin. apply He'. intros Hin. apply Hnin. apply elem_of_cons; by right.
Qed.

Lemma bind_ok {A B} (m : M A) (f : A -> M B) rnd k a k' :
  m rnd k = Ok (a, k') -> (x ← m; f x) rnd k = f a rnd k'.
Proof.
  intros H.
  change ((x ← m; f x) rnd k) with
    (match m rnd k with Ok (a, k') => f a rnd k' | Err e => Err e end).
  by rewrite H.
Qed.

Lemma SS_app {A} (R : A -> A -> Prop) (l1 l2 : list A) :
  StronglySorted R (l1 ++ l2) -> forall a b, a ∈ l1 -> b ∈ l2 -> R a b.
Proof.
  induction l1 as [|x r IH]; intros Hs a b Ha Hb; simpl in *; [inversion Ha|].
  inversion Hs as [|? ? Hr Hx]; subst.
  apply elem_of_cons in Ha as [->|Ha]; [|by apply IH].
  rewrite Forall_forall in Hx. apply Hx. apply elem_of_app. by right.
Qed.

Lemma sublist_elem_of {A} (k l : list A) x : l `sublist_of` k -> x ∈ l -> x ∈ k.
Proof. intros Hs Hx. eapply elem_of_submseteq; [exact Hx|by apply sublist_submseteq]. Qed.

Lemma SS_mono {A} (R R' : A -> A -> Prop) (P : A -> Prop) (l : list A) :
  Forall P l -> (forall a b, P a -> P b -> R a b -> R' a b) ->
  StronglySorted R l -> StronglySorted R' l.
Proof.
  intros HP HR. induction l as [|x r IH]; intros Hs; [constructor|].
  inversion Hs as [|? ? Hr Hx]; subst. inversion HP as [|? ? Px Pr]; subst.
  constructor; [by apply IH|].
  rewrite Forall_forall in Hx, Pr |- *. intros y Hy. apply HR; auto.
Qed.

(** The date as a number ([0] stands for NaN, which the lemmas rule out). *)
Definition date_key (h : obj) : Q :=
  match dateHighlighted h with Some q => q | None => 0%Q end.

Definition num_key (v : jsval) : Q :=
  match to_num v with Some q => q | None => 0%Q end.

Lemma ole_key (a b : obj) :
  (exists q, dateHighlighted a = Some q) -> (exists q, dateHighlighted b = Some q) ->
  (date_key a <= date_key b)%Q -> ole (dateHighlighted a) (dateHighlighted b) = true.
Proof.
  intros [x Hx] [y Hy]. unfold date_key. rewrite Hx, Hy. simpl.
  intros H. by apply Qle_bool_iff.
Qed.

Lemma foldl_add_shift (a : Z) (l : list Z) : foldl Z.add a l = (a + foldl Z.add 0 l)%Z.
Proof.
  revert a. induction l as [|x r IH]; intros a; simpl; [lia|].
  rewrite (IH (a + x)%Z). symmetry. rewrite IH. lia.
Qed.

Lemma bump_sum k (l : list (string * Z)) :
  foldl Z.add 0%Z (map snd (bump k l)) = (1 + foldl Z.add 0 (map snd l))%Z.
Proof.
  induction l as [|[k' c] r IH]; simpl; [done|].
  destruct (String.eqb k k'); simpl.
  - rewrite (foldl_add_shift (c + 1)), (foldl_add_shift c). lia.
  - rewrite (foldl_add_shift c), IH, (foldl_add_shift c). lia.
Qed.

Lemma bump_keys k (l : list (string * Z)) :
  map fst (bump k l) = if decide (k ∈ map fst l) then map fst l else app (map fst l) [k].
Proof.
  induction l as [|[k' c] r IH]; simpl.
  - destruct (decide (k ∈ [])) as [Hin|]; [inversion Hin|done].
  - destruct (String.eqb_spec k k') as [->|Hne]; simpl.
    + destruct (decide (k' ∈ k' :: map fst r)) as [|Hn]; [done|].
      exfalso. apply Hn. apply elem_of_cons; by left.
    + rewrite IH. destruct (decide (k ∈ map fst r)) as [Hr|Hr];
        destruct (decide (k ∈ k' :: map fst r)) as [Hkr|Hkr]; try done.
      * exfalso. apply Hkr. apply elem_of_cons; by right.
      * apply elem_of_cons in Hkr as [->|?]; [done|contradiction].
Qed.

Lemma counts_fold (hs : list obj) (acc : list (string * Z)) :
  NoDup (map fst acc) ->
  let res := foldl (fun acc h => bump (to_string (get h "bookAsin")) acc) acc hs in
  NoDup (map fst res) /\
  (forall a, a ∈ map fst res <-> a ∈ map fst acc \/
                                  exists h, h ∈ hs /\ to_string (get h "bookAsin") = a) /\
  foldl Z.add 0%Z (map snd res) = (foldl Z.add 0 (map snd acc) + Z.of_nat (length hs))%Z /\
  (length res <= length acc + length hs)%nat.
Proof.
  revert acc. induction hs as [|h r IH]; intros acc Hnd; simpl.
  - split; [done|]. split; [|split; [lia|lia]].
    intros a. split; [auto|]. intros [?|[h [Hh _]]]; [done|inversion Hh].
  - set (k := to_string (get h "bookAsin")).
    assert (Hk : NoDup (map fst (bump k acc))).
    { rewrite bump_keys. destruct (decide (k ∈ map fst acc)) as [|Hn]; [done|].
      apply NoDup_app. split; [done|]. split; [|apply NoDup_singleton].
      intros x Hx Hx'. apply list_elem_of_singleton in Hx'. subst. contradiction. }
    destruct (IH (bump k acc) Hk) as (H1 & H2 & H3 & H4).
    split; [exact H1|]. split; [|split].
    + intros a. rewrite H2, bump_keys.
      destruct (decide (k ∈ map fst acc)) as [Hin|Hn].
      * split.
        -- intros [Ha|[h' [Hh' Ha]]]; [by left|]. right. exists h'. split; [|done].
           apply elem_of_cons; by right.
        -- intros [Ha|[h' [Hh' Ha]]]; [by left|].
           apply elem_of_cons in Hh' as [->|Hh']; [left; by subst|].
           right. by exists h'.
      * rewrite elem_of_app, list_elem_of_singleton. split.
        -- intros [[Ha| ->]|[h' [Hh' Ha]]]; [by left|right; exists h; split; [apply elem_of_cons; by left|done]|].
           right. exists h'. split; [|done]. apply elem_of_cons; by right.
        -- intros [Ha|[h' [Hh' Ha]]]; [by left; left|].
           apply elem_of_cons in Hh' as [->|Hh']; [left; right; by subst|].
           right. by exists h'.
    + rewrite H3, bump_sum. lia.
    + assert (Hl : length (bump k acc) <= S (length acc)).
      { rewrite <- (length_map fst (bump k acc)), bump_keys, <- (length_map fst acc).
        destruct (decide _); [lia|]. rewrite length_app. simpl. lia. }
      lia.
Qed.

Lemma max_entry_spec (l : list (string * Z)) m b :
  let '(m', b') := max_entry l m b in
  (m <= m')%Z /\ (forall e, e ∈ l -> (e.2 <= m')%Z) /\
  ((m' = m /\ b' = b) \/ (exists a, b' = Some a /\ (a, m') ∈ l /\ (m < m')%Z)).
Proof.
  revert m b. induction l as [|[a c] r IH]; intros m b; simpl.
  - split; [lia|]. split; [intros e He; inversion He|]. by left.
  - destruct (Z.ltb_spec m c) as [Hlt|Hle].
    + specialize (IH c (Some a)). destruct (max_entry r c (Some a)) as [m' b'].
      destruct IH as (H1 & H2 & H3). split; [lia|]. split.
      * intros e He. apply elem_of_cons in He as [->|He]; [simpl; lia|by apply H2].
      * right. destruct H3 as [[-> ->]|(a' & -> & Ha' & Hlt')].
        -- exists a. split; [done|]. split; [apply elem_of_cons; by left|lia].
        -- exists a'. split; [done|]. split; [apply elem_of_cons; by right|lia].
    + specialize (IH m b). destruct (max_entry r m b) as [m' b'].
      destruct IH as (H1 & H2 & H3). split; [lia|]. split.
      * intros e He. apply elem_of_cons in He as [->|He]; [simpl; lia|by apply H2].
      * destruct H3 as [H3|(a' & -> & Ha' & Hlt')]; [by left|].
        right. exists a'. split; [done|]. split; [apply elem_of_cons; by right|lia].
Qed.

End SelectMoreFacts.

Module SelectExtras.
Import Js Aux Db Query Selector DbMore AuxFacts ShownClaims PickFacts StoreMoreFacts SelectMoreFacts.

(** On a store whose records sit under their own ids, [markHighlightsAsShown] raises each record's [timesShown] by the number of times its id occurs in [ids], sets [lastShown] of the listed ones and leaves the others and the books alone. *)
Lemma markHighlightsAsShown_counts now (ids : list string) (d : db) :
  map_Forall (fun k h => get h "id" = JStr k) (highlights d) ->
  (markHighlightsAsShown now ids d).1 = "success" /\
  books (markHighlightsAsShown now ids d).2 = books d /\
  (forall k, highlights d !! k = None -> highlights (markHighlightsAsShown now ids d).2 !! k = None) /\
  forall k h n, highlights d !! k = Some h -> ts_value h = JNum n ->
    exists h', highlights (markHighlightsAsShown now ids d).2 !! k = Some h' /\
      ts_value h' = JNum (n + Z.of_nat (count_occ String.string_dec ids k)) /\
      (k ∈ ids -> get h' "lastShown" = JNum now) /\ (k ∉ ids -> h' = h).
Proof.
  intros Hc. unfold markHighlightsAsShown.
  destruct (mark_loop_spec now ids d Hc) as (H1 & H2 & _ & H4 & H5).
  destruct (mark_loop now ids d) as [ok d']. simpl in *. subst ok. auto.
Qed.

Lemma markHighlightsAsShown_counts_witness :
  let d := mkDb ∅ {[ "a" := ({[ "id" := JStr "a" ]} ∪ {[ "timesShown" := JNum 2 ]} : obj) ]} in
  map_Forall (fun k h => get h "id" = JStr k) (highlights d) /\
  ((markHighlightsAsShown 7 ["a"; "a"; "z"] d).1 = "success" /\
   books (markHighlightsAsShown 7 ["a"; "a"; "z"] d).2 = books d /\
   (forall k, highlights d !! k = None ->
      highlights (markHighlightsAsShown 7 ["a"; "a"; "z"] d).2 !! k = None) /\
   forall k h n, highlights d !! k = Some h -> ts_value h = JNum n ->
     exists h', highlights (markHighlightsAsShown 7 ["a"; "a"; "z"] d).2 !! k = Some h' /\
       ts_value h' = JNum (n + Z.of_nat (count_occ String.string_dec ["a"; "a"; "z"] k)) /\
       (k ∈ ["a"; "a"; "z"] -> get h' "lastShown" = JNum 7) /\
       (k ∉ ["a"; "a"; "z"] -> h' = h)).
Proof.
  intros d. assert (W : map_Forall (fun k h => get h "id" = JStr k) (highlights d)).
  { apply map_Forall_singleton. reflexivity. }
  split; [exact W|]. apply (markHighlightsAsShown_counts 7 ["a"; "a"; "z"] d W).
Defined.

(** The random, oldest-first, newest-first and (on notes that pass the check) weighted modes of [selectByAlgorithm] succeed with [min count (length hs)] highlights, taken from [hs] in the first three modes. *)
Lemma selectByAlgorithm_length fuel now (hs : list obj) count mode rnd k :
  mode ∈ [JStr "random"; JStr "oldest-first"; JStr "newest-first"; JStr "weighted-smart"] ->
  (mode = JStr "weighted-smart" -> Forall (fun h => exists b, note_nonblank h = Ok b) hs) ->
  exists sel k', selectByAlgorithm fuel now hs count mode rnd k = Ok (Some sel, k') /\
    length sel = Nat.min count (length hs) /\
    (mode <> JStr "weighted-smart" -> sel ⊆+ hs).
Proof.
  intros Hm Hw.
  repeat (apply elem_of_cons in Hm as [->|Hm]; [|]); [| | | |inversion Hm].
  - cbn [selectByAlgorithm]. unfold selectRandomly.
    destruct (sort_m_go_ok (A := obj) (fun _ _ => (r ← random; mret (r - (1 # 2))%Q) : M Q) rnd)
      with (l := hs) (acc := @nil obj) (k := k) as (l' & k' & Hl & Hp).
    { intros a b k0. do 2 eexists. reflexivity. }
    rewrite app_nil_r in Hp.
    exists (take count l'), k'.
    assert (H2 : (shuffled ← sort_m_go (fun _ _ => (r ← random; mret (r - (1 # 2))%Q) : M Q) [] hs;
                  mret (take count shuffled)) rnd k = Ok (take count l', k'))
      by (rewrite (bind_ok _ _ _ _ _ _ Hl); reflexivity).
    rewrite (bind_ok _ _ _ _ _ _ H2). split; [reflexivity|].
    split; [by rewrite length_take, Hp|]. intros _. by apply take_perm_submseteq.
  - cbn [selectByAlgorithm]. unfold selectOldestFirst.
    eexists _, k. split; [reflexivity|]. split.
    + by rewrite length_take, (Permutation_length (sort_by_perm _ _)).
    + intros _. apply take_perm_submseteq, sort_by_perm.
  - cbn [selectByAlgorithm]. unfold selectNewestFirst.
    eexists _, k. split; [reflexivity|]. split.
    + by rewrite length_take, (Permutation_length (sort_by_perm _ _)).
    + intros _. apply take_perm_submseteq, sort_by_perm.
  - specialize (Hw eq_refl). cbn [selectByAlgorithm]. unfold selectByWeightedScore.
    destruct (mapM_ok (fun h => s ← calculateWeightedScore h now;
                                mret (<["weightedScore" := of_num s]> h)) hs rnd)
      with (k := k) as (ys & k1 & Hys & Hlen).
    { intros x k0 Hx. rewrite Forall_forall in Hw. destruct (Hw x Hx) as [b Hb].
      destruct (weighted_ok now x b rnd k0 Hb) as (y & k' & Hy).
      rewrite (bind_ok _ _ _ _ _ _ Hy). do 2 eexists. reflexivity. }
    exists (take count (sort_by (by_score_desc "weightedScore") ys)), k1.
    assert (H2 : (scored ← mapM (fun h => s ← calculateWeightedScore h now;
                                mret (<["weightedScore" := of_num s]> h)) hs;
                  mret (take count (sort_by (by_score_desc "weightedScore") scored))) rnd k =
                 Ok (take count (sort_by (by_score_desc "weightedScore") ys), k1))
      by (rewrite (bind_ok _ _ _ _ _ _ Hys); reflexivity).
    rewrite (bind_ok _ _ _ _ _ _ H2). split; [reflexivity|]. split.
    + by rewrite length_take, (Permutation_length (sort_by_perm _ _)), Hlen.
    + intros Hne. by contradiction Hne.
Qed.

Lemma selectByAlgorithm_length_witness :
  (JStr "random" ∈ [JStr "random"; JStr "oldest-first"; JStr "newest-first"; JStr "weighted-smart"] /\
   (JStr "random" = JStr "weighted-smart" ->
      Forall (fun h => exists b, note_nonblank h = Ok b) [∅; ∅; ∅])) /\
  exists sel k', selectByAlgorithm 0 0 [∅; ∅; ∅] 2 (JStr "random") (fun _ => 0%Q) 0 =
      Ok (Some sel, k') /\
    length sel = Nat.min 2 (length [∅; ∅; ∅ : obj]) /\
    (JStr "random" <> JStr "weighted-smart" -> sel ⊆+ [∅; ∅; ∅]).
Proof.
  assert (W1 : JStr "random" ∈ [JStr "random"; JStr "oldest-first"; JStr "newest-first";
                                JStr "weighted-smart"]) by (apply elem_of_cons; by left).
  assert (W2 : JStr "random" = JStr "weighted-smart" ->
      Forall (fun h => exists b, note_nonblank h = Ok b) [∅; ∅; ∅ : obj]) by discriminate.
  split; [split; [exact W1|exact W2]|].
  apply (selectByAlgorithm_length 0 0 [∅; ∅; ∅] 2 (JStr "random") (fun _ => 0%Q) 0 W1 W2).
Defined.

(** With numeric dates, [selectOldestFirst] returns highlights in ascending date order, none later than the ones it leaves out; [selectNewestFirst] the same in descending order. *)
Lemma selectOldestNewest_order (hs : list obj) count :
  Forall (fun h => exists q, dateHighlighted h = Some q) hs ->
  (exists rest, selectOldestFirst hs count ++ rest ≡ₚ hs /\
    StronglySorted (fun a b => ole (dateHighlighted a) (dateHighlighted b) = true)
      (selectOldestFirst hs count) /\
    forall a b, a ∈ selectOldestFirst hs count -> b ∈ rest ->
      ole (dateHighlighted a) (dateHighlighted b) = true) /\
  (exists rest, selectNewestFirst hs count ++ rest ≡ₚ hs /\
    StronglySorted (fun a b => ole (dateHighlighted b) (dateHighlighted a) = true)
      (selectNewestFirst hs count) /\
    forall a b, a ∈ selectNewestFirst hs count -> b ∈ rest ->
      ole (dateHighlighted b) (dateHighlighted a) = true).
Proof.
  intros Hd. rewrite Forall_forall in Hd. split.
  - set (sorted := sort_by (fun a b => num_diff (dateHighlighted a) (dateHighlighted b)) hs).
    assert (Hs : StronglySorted (fun a b => (date_key a <= date_key b)%Q) sorted).
    { apply sort_by_sorted. intros a b Ha Hb.
      destruct (Hd a Ha) as [x Hx]. destruct (Hd b Hb) as [y Hy].
      unfold date_key. rewrite Hx, Hy. reflexivity. }
    assert (Hp : sorted ≡ₚ hs) by apply sort_by_perm.
    assert (HP : forall x, x ∈ sorted -> exists q, dateHighlighted x = Some q).
    { intros x Hx. apply Hd. by rewrite <- Hp. }
    destruct (take_drop_sorted _ sorted count Hs) as [Ht Htd].
    exists (drop count sorted). unfold selectOldestFirst. fold sorted.
    split; [by rewrite take_drop|]. split.
    + apply (SS_mono (fun a b => (date_key a <= date_key b)%Q) _ (fun x => exists q, dateHighlighted x = Some q)); [| |exact Ht].
      * apply Forall_forall. intros x Hx. apply HP.
        apply (sublist_elem_of _ (take count sorted)); [apply sublist_take|done].
      * intros a b Ha Hb. by apply ole_key.
    + intros a b Ha Hb. apply ole_key; [| |by apply Htd].
      * apply HP. apply (sublist_elem_of _ (take count sorted)); [apply sublist_take|done].
      * apply HP. apply (sublist_elem_of _ (drop count sorted)); [apply sublist_drop|done].
  - set (sorted := sort_by (fun a b => num_diff (dateHighlighted b) (dateHighlighted a)) hs).
    assert (Hs : StronglySorted (fun a b => ((- date_key a) <= (- date_key b))%Q) sorted).
    { apply sort_by_sorted. intros a b Ha Hb.
      destruct (Hd a Ha) as [x Hx]. destruct (Hd b Hb) as [y Hy].
      unfold date_key. rewrite Hx, Hy. simpl. ring. }
    assert (Hp : sorted ≡ₚ hs) by apply sort_by_perm.
    assert (HP : forall x, x ∈ sorted -> exists q, dateHighlighted x = Some q).
    { intros x Hx. apply Hd. by rewrite <- Hp. }
    destruct (take_drop_sorted _ sorted count Hs) as [Ht Htd].
    exists (drop count sorted). unfold selectNewestFirst. fold sorted.
    split; [by rewrite take_drop|]. split.
    + apply (SS_mono (fun a b => ((- date_key a) <= (- date_key b))%Q) _ (fun x => exists q, dateHighlighted x = Some q)); [| |exact Ht].
      * apply Forall_forall. intros x Hx. apply HP.
        apply (sublist_elem_of _ (take count sorted)); [apply sublist_take|done].
      * intros a b Ha Hb Hab. apply ole_key; [done|done|]. apply Qopp_le_compat in Hab.
        by rewrite !Qopp_involutive in Hab.
    + intros a b Ha Hb. pose proof (Htd a b Ha Hb) as Hab.
      apply ole_key.
      * apply HP. apply (sublist_elem_of _ (drop count sorted)); [apply sublist_drop|done].
      * apply HP. apply (sublist_elem_of _ (take count sorted)); [apply sublist_take|done].
      * apply Qopp_le_compat in Hab. by rewrite !Qopp_involutive in Hab.
Qed.

Lemma selectOldestNewest_order_witness :
  let hs : list obj := [{[ "dateHighlighted" := JNum 5 ]}; {[ "dateHighlighted" := JNum 3 ]};
                        {[ "dateHighlighted" := JNum 9 ]}] in
  Forall (fun h => exists q, dateHighlighted h = Some q) hs /\
  (exists rest, selectOldestFirst hs 2 ++ rest ≡ₚ hs /\
    StronglySorted (fun a b => ole (dateHighlighted a) (dateHighlighted b) = true)
      (selectOldestFirst hs 2) /\
    forall a b, a ∈ selectOldestFirst hs 2 -> b ∈ rest ->
      ole (dateHighlighted a) (dateHighlighted b) = true) /\
  (exists rest, selectNewestFirst hs 2 ++ rest ≡ₚ hs /\
    StronglySorted (fun a b => ole (dateHighlighted b) (dateHighlighted a) = true)
      (selectNewestFirst hs 2) /\
    forall a b, a ∈ selectNewestFirst hs 2 -> b ∈ rest ->
      ole (dateHighlighted b) (dateHighlighted a) = true).
Proof.
  intros hs. assert (Hw0 : Forall (fun h => exists q, dateHighlighted h = Some q) hs)
    by (repeat constructor; eexists; reflexivity).
  split; [exact Hw0|]. apply (selectOldestNewest_order hs 2 Hw0).
Defined.

End SelectExtras.

Module StatsFacts.
Import Js Aux Db Query Selector DbMore AuxFacts StoreMoreFacts SelectMoreFacts.

Lemma time_stats_cons (hs sync : list obj) : hs <> [] ->
  calculateTimeStats hs sync =
  let sorted := sort_by (fun a b => num_diff (to_num a) (to_num b))
                  (List.filter truthy (map (fun h => get h "dateHighlighted") hs)) in
  let oldest := match sorted with [] => JUndef | x :: _ => x end in
  let newest := match last sorted with Some x => x | None => JUndef end in
  let spanDays := span_of (match to_num newest, to_num oldest with
                           | Some n, Some o => Some ((n - o) / inject_Z 86400000)%Q
                           | _, _ => None end) in
  mkTimeStats oldest newest spanDays
    (match spanDays with
     | Some s => Some (inject_Z (js_round (inject_Z (Z.of_nat (length hs)) / s * 10)) / 10)%Q
     | None => None end)
    (match sync with [] => JStr "never_synced" | s :: _ => get s "status" end)
    (Some (length sync)).
Proof. destruct hs; [done|reflexivity]. Qed.

Lemma SS_head {A} (R : A -> A -> Prop) x (r : list A) z :
  StronglySorted R (x :: r) -> z ∈ x :: r -> z = x \/ R x z.
Proof.
  intros Hs Hz. inversion Hs as [|? ? _ Hx]; subst.
  apply elem_of_cons in Hz as [->|Hz]; [by left|right].
  rewrite Forall_forall in Hx. by apply Hx.
Qed.

Lemma SS_last {A} (R : A -> A -> Prop) (l : list A) y z :
  StronglySorted R (app l [y]) -> z ∈ app l [y] -> z = y \/ R z y.
Proof.
  intros Hs Hz. apply elem_of_app in Hz as [Hz|Hz].
  - right. apply (SS_app R l [y] Hs); [done|]. apply elem_of_cons; by left.
  - apply list_elem_of_singleton in Hz. by left.
Qed.

(** The count [bookHighlightCounts[a]], [0] for a missing key. *)
Fixpoint count_of (a : string) (l : list (string * Z)) : Z :=
  match l with
  | [] => 0%Z
  | (k, c) :: r => if String.eqb k a then c else count_of a r
  end.

Definition book_count (a : string) (hs : list obj) : nat :=
  length (List.filter (fun h => String.eqb (to_string (get h "bookAsin")) a) hs).

Lemma count_of_bump a k l :
  count_of a (bump k l) = (count_of a l + if String.eqb k a then 1 else 0)%Z.
Proof.
  induction l as [|[k' c] r IH]; simpl.
  - destruct (String.eqb k a); lia.
  - destruct (String.eqb_spec k k') as [->|Hne]; simpl.
    + destruct (String.eqb k' a); lia.
    + destruct (String.eqb_spec k' a) as [->|Hka]; [|exact IH].
      destruct (String.eqb_spec k a); [congruence|lia].
Qed.

Lemma count_of_fold (hs : list obj) acc a :
  count_of a (foldl (fun acc h => bump (to_string (get h "bookAsin")) acc) acc hs) =
  (count_of a acc + Z.of_nat (book_count a hs))%Z.
Proof.
  unfold book_count. revert acc. induction hs as [|h r IH]; intros acc; simpl; [lia|].
  rewrite IH, count_of_bump.
  destruct (String.eqb (to_string (get h "bookAsin")) a); simpl; lia.
Qed.

Lemma count_of_in a c l : NoDup (map fst l) -> (a, c) ∈ l -> count_of a l = c.
Proof.
  induction l as [|[k c'] r IH]; intros Hnd Hin; [inversion Hin|].
  simpl in Hnd |- *. apply NoDup_cons in Hnd as [Hk Hnd].
  apply elem_of_cons in Hin as [E|Hin].
  - injection E as -> ->. by rewrite String.eqb_refl.
  - destruct (String.eqb_spec k a) as [->|]; [|by apply IH].
    exfalso. apply Hk. apply list_elem_of_In, in_map_iff. exists (a, c).
    split; [done|]. by apply list_elem_of_In.
Qed.

Lemma count_of_key a l : a ∈ map fst l -> (a, count_of a l) ∈ l.
Proof.
  induction l as [|[k c] r IH]; intros Ha; simpl in *; [inversion Ha|].
  destruct (String.eqb_spec k a) as [->|Hne]; [apply elem_of_cons; by left|].
  apply elem_of_cons in Ha as [->|Ha]; [done|]. apply elem_of_cons. right. by apply IH.
Qed.

Lemma count_of_notkey a l : a ∉ map fst l -> count_of a l = 0%Z.
Proof.
  induction l as [|[k c] r IH]; intros Ha; simpl in *; [done|].
  destruct (String.eqb_spec k a) as [->|Hne].
  - exfalso. apply Ha. apply elem_of_cons; by left.
  - apply IH. intros H. apply Ha. apply elem_of_cons; by right.
Qed.

Lemma find_most_spec (books : list obj) entries r :
  findMostHighlightedBook books entries = Some r ->
  (0 < mb_count r)%Z /\ (forall e, e ∈ entries -> (e.2 <= mb_count r)%Z) /\
  exists a b, (a, mb_count r) ∈ entries /\ In b books /\ get b "asin" = JStr a /\
    mb_asin r = JStr a /\ mb_title r = get b "title" /\ mb_author r = get b "author".
Proof.
  unfold findMostHighlightedBook. pose proof (max_entry_spec entries 0 None) as Hm.
  destruct (max_entry entries 0 None) as [m [a|]]; [|discriminate].
  destruct (truthy (JStr a)); [|discriminate].
  destruct (List.find (fun b => strict_eq (get b "asin") (JStr a)) books) as [b|] eqn:Ef;
    [|discriminate].
  intros E. injection E as <-. simpl.
  destruct Hm as (_ & H2 & [[_ ?]|(a' & Ea & Ha & Hlt)]); [discriminate|].
  injection Ea as <-. apply find_some in Ef as [Hb Eb]. apply strict_eq_str in Eb.
  split; [done|]. split; [done|]. exists a, b. by rewrite Eb.
Qed.

End StatsFacts.

Module StatsExtras.
Import Js Aux Db Query Selector DbMore AuxFacts StoreMoreFacts SelectMoreFacts StatsFacts.

(** When some highlight has a truthy date and the truthy dates are integers, [calculateTimeStats] reports the least and the greatest of them as oldest and newest, a span of at least one day and at least their distance in days, and the rounded average per day. *)
Lemma calculateTimeStats_range (hs sync : list obj) h0 :
  h0 ∈ hs -> truthy (get h0 "dateHighlighted") = true ->
  Forall (fun h => truthy (get h "dateHighlighted") = true ->
                   exists n, get h "dateHighlighted" = JNum n) hs ->
  exists o n s,
    oldestHighlight (calculateTimeStats hs sync) = JNum o /\
    newestHighlight (calculateTimeStats hs sync) = JNum n /\
    (exists h, h ∈ hs /\ get h "dateHighlighted" = JNum o) /\
    (exists h, h ∈ hs /\ get h "dateHighlighted" = JNum n) /\
    (forall h m, h ∈ hs -> get h "dateHighlighted" = JNum m -> m <> 0%Z -> (o <= m <= n)%Z) /\
    highlightingSpan (calculateTimeStats hs sync) = Some s /\
    (1 <= s)%Q /\ ((inject_Z n - inject_Z o) / inject_Z 86400000 <= s)%Q /\
    averageHighlightsPerDay (calculateTimeStats hs sync) =
      Some (inject_Z (js_round (inject_Z (Z.of_nat (length hs)) / s * 10)) / 10)%Q.
Proof.
  intros Hh0 Ht0 Hall. rewrite Forall_forall in Hall.
  rewrite time_stats_cons by (intros ->; inversion Hh0). cbv zeta.
  set (dates := List.filter truthy (map (fun h => get h "dateHighlighted") hs)).
  assert (Hd : forall v, v ∈ dates -> exists h n, h ∈ hs /\ get h "dateHighlighted" = v /\
                                              v = JNum n /\ n <> 0%Z).
  { intros v Hv. apply filter_elem in Hv as [Hv Ht].
    apply list_elem_of_In, in_map_iff in Hv as [h [Eh Hh]]. apply list_elem_of_In in Hh.
    subst v. destruct (Hall h Hh Ht) as [n En]. exists h, n. split; [done|]. split; [done|].
    split; [done|]. rewrite En in Ht. simpl in Ht. intros ->. discriminate. }
  assert (Hv0 : get h0 "dateHighlighted" ∈ dates).
  { apply filter_elem. split; [|done]. apply list_elem_of_In, in_map_iff.
    exists h0. split; [done|]. by apply list_elem_of_In. }
  assert (Hc : forall a b, a ∈ dates -> b ∈ dates ->
     (num_diff (to_num a) (to_num b) == num_key a - num_key b)%Q).
  { intros a b Ha Hb. destruct (Hd a Ha) as (? & ? & _ & _ & -> & _).
    destruct (Hd b Hb) as (? & ? & _ & _ & -> & _). reflexivity. }
  pose proof (sort_by_perm (fun a b => num_diff (to_num a) (to_num b)) dates) as Hp.
  pose proof (sort_by_sorted _ num_key dates Hc) as Hs.
  set (sorted := sort_by (fun a b => num_diff (to_num a) (to_num b)) dates) in *.
  clearbody sorted.
  assert (Hin : forall v, v ∈ sorted <-> v ∈ dates) by (intros v; by rewrite Hp).
  destruct sorted as [|x r].
  { apply Hin in Hv0. inversion Hv0. }
  destruct (last (x :: r)) as [y|] eqn:El; [|apply last_None in El; discriminate].
  apply last_Some in El as [l' El].
  assert (Hy : y ∈ x :: r) by (rewrite El; apply elem_of_app; right; apply elem_of_cons; by left).
  destruct (Hd x (proj1 (Hin x) (proj2 (elem_of_cons r x x) (or_introl eq_refl)))) as (hx & o & Hhx & Ex & -> & _).
  destruct (Hd y (proj1 (Hin y) Hy)) as (hy & n & Hhy & Ey & -> & _).
  simpl.
  set (s := Qmax 1 (inject_Z (Qceiling ((inject_Z n - inject_Z o) / inject_Z 86400000)))).
  exists o, n, s. split; [done|]. split; [done|].
  split; [by exists hx|]. split; [by exists hy|]. split.
  - intros h m Hh Hm Hm0.
    assert (Hv : JNum m ∈ JNum o :: r).
    { apply Hin, filter_elem. split.
      - apply list_elem_of_In, in_map_iff. exists h. split; [done|]. by apply list_elem_of_In.
      - simpl. by apply negb_true_iff, Z.eqb_neq. }
    split.
    + destruct (SS_head _ _ _ _ Hs Hv) as [E|Hle]; [injection E as ->; lia|].
      unfold num_key in Hle. simpl in Hle. by rewrite Zle_Qle.
    + rewrite El in Hs, Hv. destruct (SS_last _ _ _ _ Hs Hv) as [E|Hle]; [injection E as ->; lia|].
      unfold num_key in Hle. simpl in Hle. by rewrite Zle_Qle.
  - split; [reflexivity|]. split; [apply Q.le_max_l|]. split; [|reflexivity].
    eapply Qle_trans; [apply Qle_ceiling|apply Q.le_max_r].
Qed.

Lemma calculateTimeStats_range_witness :
  let hs : list obj := [{[ "dateHighlighted" := JNum 172800000 ]}; ∅;
                        {[ "dateHighlighted" := JNum 86400000 ]}] in
  ({[ "dateHighlighted" := JNum 172800000 ]} ∈ hs /\
   truthy (get {[ "dateHighlighted" := JNum 172800000 ]} "dateHighlighted") = true /\
   Forall (fun h => truthy (get h "dateHighlighted") = true ->
                    exists n, get h "dateHighlighted" = JNum n) hs) /\
  exists o n s,
    oldestHighlight (calculateTimeStats hs []) = JNum o /\
    newestHighlight (calculateTimeStats hs []) = JNum n /\
    (exists h, h ∈ hs /\ get h "dateHighlighted" = JNum o) /\
    (exists h, h ∈ hs /\ get h "dateHighlighted" = JNum n) /\
    (forall h m, h ∈ hs -> get h "dateHighlighted" = JNum m -> m <> 0%Z -> (o <= m <= n)%Z) /\
    highlightingSpan (calculateTimeStats hs []) = Some s /\
    (1 <= s)%Q /\ ((inject_Z n - inject_Z o) / inject_Z 86400000 <= s)%Q /\
    averageHighlightsPerDay (calculateTimeStats hs []) =
      Some (inject_Z (js_round (inject_Z (Z.of_nat (length hs)) / s * 10)) / 10)%Q.
Proof.
  intros hs.
  assert (H1 : {[ "dateHighlighted" := JNum 172800000 ]} ∈ hs) by (apply elem_of_cons; by left).
  assert (H2 : truthy (get {[ "dateHighlighted" := JNum 172800000 ]} "dateHighlighted") = true)
    by reflexivity.
  assert (H3 : Forall (fun h => truthy (get h "dateHighlighted") = true ->
                    exists n, get h "dateHighlighted" = JNum n) hs)
    by ((repeat constructor); intros Ht;
        first [eexists; reflexivity|vm_compute in Ht; discriminate]).
  split; [split; [exact H1|split; [exact H2|exact H3]]|].
  exact (calculateTimeStats_range hs [] _ H1 H2 H3).
Defined.

(** With highlights but no truthy date, [oldest] and [newest] are [undefined] and the span and the average are NaN. *)
Lemma calculateTimeStats_no_dates (hs sync : list obj) :
  hs <> [] -> Forall (fun h => truthy (get h "dateHighlighted") = false) hs ->
  oldestHighlight (calculateTimeStats hs sync) = JUndef /\
  newestHighlight (calculateTimeStats hs sync) = JUndef /\
  highlightingSpan (calculateTimeStats hs sync) = None /\
  averageHighlightsPerDay (calculateTimeStats hs sync) = None /\
  totalSyncs (calculateTimeStats hs sync) = Some (length sync).
Proof.
  intros Hne Hall. rewrite time_stats_cons by done. cbv zeta.
  assert (E : List.filter truthy (map (fun h => get h "dateHighlighted") hs) = []).
  { induction hs as [|h r IH]; [done|]. inversion Hall as [|? ? Hh Hr]; subst. simpl.
    rewrite Hh. destruct r as [|h' r]; [done|]. by apply IH. }
  rewrite E. repeat split.
Qed.

Lemma calculateTimeStats_no_dates_witness :
  ([∅; {[ "dateHighlighted" := JNum 0 ]}] <> ([] : list obj) /\
   Forall (fun h => truthy (get h "dateHighlighted") = false)
     [∅; {[ "dateHighlighted" := JNum 0 ]}]) /\
  oldestHighlight (calculateTimeStats [∅; {[ "dateHighlighted" := JNum 0 ]}] []) = JUndef /\
  newestHighlight (calculateTimeStats [∅; {[ "dateHighlighted" := JNum 0 ]}] []) = JUndef /\
  highlightingSpan (calculateTimeStats [∅; {[ "dateHighlighted" := JNum 0 ]}] []) = None /\
  averageHighlightsPerDay (calculateTimeStats [∅; {[ "dateHighlighted" := JNum 0 ]}] []) = None /\
  totalSyncs (calculateTimeStats [∅; {[ "dateHighlighted" := JNum 0 ]}] []) = Some (length (@nil obj)).
Proof.
  assert (H1 : [∅; {[ "dateHighlighted" := JNum 0 ]}] <> ([] : list obj)) by discriminate.
  assert (H2 : Forall (fun h => truthy (get h "dateHighlighted") = false)
     [∅; {[ "dateHighlighted" := JNum 0 ]}]) by (repeat constructor).
  split; [split; [exact H1|exact H2]|].
  exact (calculateTimeStats_no_dates _ [] H1 H2).
Defined.

(** For a non-empty list, [calculateBookStats] counts the distinct [bookAsin] strings (between 1 and the number of highlights) and reports the number of highlights per such book, rounded to one decimal, as the average. *)
Lemma calculateBookStats_average (books hs : list obj) :
  hs <> [] ->
  exists keys, NoDup keys /\
    (forall a, a ∈ keys <-> exists h, h ∈ hs /\ to_string (get h "bookAsin") = a) /\
    booksWithHighlights (calculateBookStats books hs) = length keys /\
    (1 <= length keys <= length hs)%nat /\
    averageHighlightsPerBook (calculateBookStats books hs) =
      (inject_Z (js_round (inject_Z (Z.of_nat (length hs)) / inject_Z (Z.of_nat (length keys)) * 10))
       / 10)%Q /\
    booksWithoutHighlights (calculateBookStats books hs) =
      (Z.of_nat (length books) - Z.of_nat (length keys))%Z.
Proof.
  intros Hne. destruct (counts_fold hs [] (NoDup_nil_2)) as (H1 & H2 & H3 & H4).
  exists (map fst (bookHighlightCounts hs)).
  assert (Hk : forall a, a ∈ map fst (bookHighlightCounts hs) <->
                    exists h, h ∈ hs /\ to_string (get h "bookAsin") = a).
  { intros a. unfold bookHighlightCounts. rewrite H2. split; [intros [Ha|Ha]; [inversion Ha|done]|by right]. }
  assert (Hpos : (1 <= length (bookHighlightCounts hs))%nat).
  { destruct hs as [|h r]; [done|].
    assert (Hin : to_string (get h "bookAsin") ∈ map fst (bookHighlightCounts (h :: r))).
    { apply Hk. exists h. split; [apply elem_of_cons; by left|done]. }
    destruct (bookHighlightCounts (h :: r)); [inversion Hin|simpl; lia]. }
  split; [exact H1|]. split; [exact Hk|]. rewrite length_map.
  split; [reflexivity|]. split; [simpl in H4; unfold bookHighlightCounts in *; lia|].
  split; [|reflexivity].
  unfold calculateBookStats. cbn [averageHighlightsPerBook]. rewrite length_map.
  destruct (Nat.ltb_spec 0 (length (bookHighlightCounts hs))) as [_|]; [|lia].
  unfold bookHighlightCounts in *. rewrite H3. simpl. by rewrite Z.add_0_l.
Qed.

Lemma calculateBookStats_average_witness :
  let hs : list obj := [{[ "bookAsin" := JStr "B1" ]}; {[ "bookAsin" := JStr "B2" ]};
                        {[ "bookAsin" := JStr "B1" ]}] in
  hs <> [] /\
  exists keys, NoDup keys /\
    (forall a, a ∈ keys <-> exists h, h ∈ hs /\ to_string (get h "bookAsin") = a) /\
    booksWithHighlights (calculateBookStats [] hs) = length keys /\
    (1 <= length keys <= length hs)%nat /\
    averageHighlightsPerBook (calculateBookStats [] hs) =
      (inject_Z (js_round (inject_Z (Z.of_nat (length hs)) / inject_Z (Z.of_nat (length keys)) * 10))
       / 10)%Q /\
    booksWithoutHighlights (calculateBookStats [] hs) =
      (Z.of_nat (length (@nil obj)) - Z.of_nat (length keys))%Z.
Proof.
  intros hs. assert (H : hs <> []) by discriminate.
  split; [exact H|]. exact (calculateBookStats_average [] hs H).
Defined.

(** A book reported by [calculateBookStats] as most highlighted is a stored book with that asin; its count is the number of highlights of the book, positive and at least that of any other asin. *)
Lemma mostHighlightedBook_spec (books hs : list obj) r :
  mostHighlightedBook (calculateBookStats books hs) = Some r ->
  exists a b, mb_asin r = JStr a /\ In b books /\ get b "asin" = JStr a /\
    mb_title r = get b "title" /\ mb_author r = get b "author" /\
    mb_count r = Z.of_nat (book_count a hs) /\ (0 < mb_count r)%Z /\
    forall a', (Z.of_nat (book_count a' hs) <= mb_count r)%Z.
Proof.
  simpl. intros Hr. destruct (find_most_spec _ _ _ Hr) as (Hpos & Hmax & a & b & Ha & Hb & Eb & Hrest).
  destruct (counts_fold hs [] (NoDup_nil_2)) as (Hnd & _).
  fold (bookHighlightCounts hs) in Hnd.
  assert (Hc : forall a', count_of a' (bookHighlightCounts hs) = Z.of_nat (book_count a' hs)).
  { intros a'. unfold bookHighlightCounts. by rewrite count_of_fold. }
  exists a, b. destruct Hrest as (E1 & E2 & E3). split; [done|]. split; [done|].
  split; [done|]. split; [done|]. split; [done|]. split.
  - by rewrite <- Hc, (count_of_in _ _ _ Hnd Ha).
  - split; [done|]. intros a'. rewrite <- Hc.
    destruct (decide (a' ∈ map fst (bookHighlightCounts hs))) as [Hin|Hn].
    + apply (Hmax (a', _)). by apply count_of_key.
    + rewrite count_of_notkey by done. lia.
Qed.

Lemma mostHighlightedBook_spec_witness :
  let books : list obj := [{[ "asin" := JStr "B2" ]}; {[ "asin" := JStr "B1" ]}] in
  let hs : list obj := [{[ "bookAsin" := JStr "B1" ]}; {[ "bookAsin" := JStr "B2" ]};
                        {[ "bookAsin" := JStr "B1" ]}] in
  let r := mkMostBook (JStr "B1") JUndef JUndef 2 in
  mostHighlightedBook (calculateBookStats books hs) = Some r /\
  exists a b, mb_asin r = JStr a /\ In b books /\ get b "asin" = JStr a /\
    mb_title r = get b "title" /\ mb_author r = get b "author" /\
    mb_count r = Z.of_nat (book_count a hs) /\ (0 < mb_count r)%Z /\
    forall a', (Z.of_nat (book_count a' hs) <= mb_count r)%Z.
Proof.
  intros books hs r.
  assert (H : mostHighlightedBook (calculateBookStats books hs) = Some r) by reflexivity.
  split; [exact H|]. exact (mostHighlightedBook_spec books hs r H).
Defined.

(** A successful [filterHighlights] keeps, in their order, exactly the highlights that pass every active filter: preferred books, preferred colours, minimum age and required tags. *)
Lemma filterHighlights_spec now (st : settings) (hs l : list obj) :
  filterHighlights now st hs = Ok l ->
  sublist l hs /\
  forall h, h ∈ l <-> h ∈ hs /\
    (preferredBooks st = [] \/ arr_includes (preferredBooks st) (get h "bookAsin") = true) /\
    (preferredColors st = [] \/ arr_includes (preferredColors st) (get h "color") = true) /\
    (ogt (to_num (js_or (minHighlightAge st) (JNum 0))) (cst 0) = true ->
       ole (dateHighlighted h)
         (oadd (cst (inject_Z now))
           (omul (cst (-1)) (omul (to_num (js_or (minHighlightAge st) (JNum 0))) (cst day_ms))))
       = true) /\
    (requiredTags st = [] \/ tags_ok (requiredTags st) h = Ok true).
Proof.
  unfold filterHighlights. cbv zeta.
  destruct st as [pb pc minAge req mode].
  cbn [preferredBooks preferredColors minHighlightAge requiredTags].
  set (minA := to_num (js_or minAge (JNum 0))).
  set (minDate := oadd (cst (inject_Z now)) (omul (cst (-1)) (omul minA (cst day_ms)))).
  set (f1 := match pb with [] => hs | b :: bs => List.filter (fun h => arr_includes (b :: bs) (get h "bookAsin")) hs end).
  assert (S1 : sublist f1 hs /\ forall h, h ∈ f1 <-> h ∈ hs /\
                 (pb = [] \/ arr_includes pb (get h "bookAsin") = true)).
  { subst f1. destruct pb as [|b bs].
    - split; [done|]. intros h. tauto.
    - split; [apply sublist_filter|]. intros h. rewrite filter_elem.
      split; [intros [? ?]; split; [done|by right]|intros [? [?|?]]; [discriminate|done]]. }
  set (f2 := match pc with [] => f1 | c :: cs => List.filter (fun h => arr_includes (c :: cs) (get h "color")) f1 end).
  assert (S2 : sublist f2 f1 /\ forall h, h ∈ f2 <-> h ∈ f1 /\
                 (pc = [] \/ arr_includes pc (get h "color") = true)).
  { subst f2. destruct pc as [|c cs].
    - split; [done|]. intros h. tauto.
    - split; [apply sublist_filter|]. intros h. rewrite filter_elem.
      split; [intros [? ?]; split; [done|by right]|intros [? [?|?]]; [discriminate|done]]. }
  set (f3 := if ogt minA (cst 0) then List.filter (fun h => ole (dateHighlighted h) minDate) f2 else f2).
  assert (S3 : sublist f3 f2 /\ forall h, h ∈ f3 <-> h ∈ f2 /\
                 (ogt minA (cst 0) = true -> ole (dateHighlighted h) minDate = true)).
  { subst f3. destruct (ogt minA (cst 0)).
    - split; [apply sublist_filter|]. intros h. rewrite filter_elem. tauto.
    - split; [done|]. intros h. split; [intros ?; split; [done|discriminate]|intros [? _]; done]. }
  assert (S4 : match req with [] => Ok f3 | t :: ts => filter_r (tags_ok (t :: ts)) f3 end = Ok l ->
     sublist l f3 /\ forall h, h ∈ l <-> h ∈ f3 /\ (req = [] \/ tags_ok req h = Ok true)).
  { destruct req as [|t ts].
    - intros E. injection E as <-. split; [done|]. intros h. tauto.
    - intros E. destruct (filter_r_spec _ _ _ E) as [Hs Hm]. split; [done|].
      intros h. rewrite Hm. split; [intros [? ?]; split; [done|by right]|intros [? [?|?]]; [discriminate|done]]. }
  intros E. destruct (S4 E) as [Hs4 Hm4].
  destruct S1 as [Hs1 Hm1], S2 as [Hs2 Hm2], S3 as [Hs3 Hm3].
  split.
  - by rewrite Hs4, Hs3, Hs2.
  - intros h. rewrite Hm4, Hm3, Hm2, Hm1. tauto.
Qed.

Lemma filterHighlights_spec_witness :
  let st := mkSettings [JStr "B1"] [JStr "yellow"] (JNum 1) [JStr "idea"] JUndef in
  let h1 : obj := <["bookAsin" := JStr "B1"]> (<["color" := JStr "yellow"]>
                  (<["dateHighlighted" := JNum 0]> {[ "tags" := JArr [JStr "idea"] ]})) in
  let h2 : obj := <["bookAsin" := JStr "B2"]> h1 in
  filterHighlights 172800000 st [h1; h2] = Ok [h1] /\
  (sublist [h1] [h1; h2] /\
   forall h, h ∈ [h1] <-> h ∈ [h1; h2] /\
    (preferredBooks st = [] \/ arr_includes (preferredBooks st) (get h "bookAsin") = true) /\
    (preferredColors st = [] \/ arr_includes (preferredColors st) (get h "color") = true) /\
    (ogt (to_num (js_or (minHighlightAge st) (JNum 0))) (cst 0) = true ->
       ole (dateHighlighted h)
         (oadd (cst (inject_Z 172800000))
           (omul (cst (-1)) (omul (to_num (js_or (minHighlightAge st) (JNum 0))) (cst day_ms))))
       = true) /\
    (requiredTags st = [] \/ tags_ok (requiredTags st) h = Ok true)).
Proof.
  intros st h1 h2.
  assert (H : filterHighlights 172800000 st [h1; h2] = Ok [h1]) by (vm_compute; reflexivity).
  split; [exact H|]. exact (filterHighlights_spec 172800000 st [h1; h2] [h1] H).
Defined.

(** [searchHighlights] returns the stored highlights that match the lower-cased query (all of them, never failing, for a falsy query), sorted newest first when all dates are numbers. *)
Lemma searchHighlights_spec (q : jsval) (d : db) :
  (truthy q = false -> exists l, searchHighlights q d = Ok l) /\
  forall l, searchHighlights q d = Ok l ->
    (forall h, h ∈ l <-> (exists k, highlights d !! k = Some h) /\
       (truthy q = true -> exists t, q = JStr t /\ Query.matches_term (lower t) h = Ok true)) /\
    (truthy q = false -> l ≡ₚ map snd (map_to_list (highlights d))) /\
    (map_Forall (fun _ h => exists x, to_num (get h "dateHighlighted") = Some x) (highlights d) ->
     StronglySorted (fun a b => (num_key (get b "dateHighlighted") <= num_key (get a "dateHighlighted"))%Q) l).
Proof.
  set (all := map snd (map_to_list (highlights d))).
  set (cmp := fun a b : obj => num_diff (to_num (get b "dateHighlighted")) (to_num (get a "dateHighlighted"))).
  assert (Hall : forall h, h ∈ all <-> exists k, highlights d !! k = Some h).
  { intros h. rewrite list_elem_of_In. apply in_values. }
  assert (Hsort : forall f, f ⊆ all ->
     map_Forall (fun _ h => exists x, to_num (get h "dateHighlighted") = Some x) (highlights d) ->
     StronglySorted (fun a b => (num_key (get b "dateHighlighted") <= num_key (get a "dateHighlighted"))%Q)
       (sort_by cmp f)).
  { intros f Hf Hd.
    assert (Hn : forall a, a ∈ f -> exists x, to_num (get a "dateHighlighted") = Some x).
    { intros a Ha. apply Hf, Hall in Ha as [k Hk]. exact (Hd k a Hk). }
    apply (SS_mono (fun a b => ((- num_key (get a "dateHighlighted")) <= (- num_key (get b "dateHighlighted")))%Q)
             _ (fun _ => True)).
    - apply Forall_forall. done.
    - intros a b _ _ Hab. lra.
    - apply sort_by_sorted. intros a b Ha Hb.
      destruct (Hn a Ha) as [x Hx]. destruct (Hn b Hb) as [y Hy].
      unfold cmp, num_key. rewrite Hx, Hy. simpl. ring. }
  unfold searchHighlights. fold all. fold cmp.
  destruct (truthy q) eqn:Eq.
  - split; [discriminate|]. intros l E.
    destruct (toLowerCase q) as [t|e] eqn:Et; simpl in E; [|discriminate].
    destruct (filter_r (Query.matches_term t) all) as [f|e] eqn:Ef; simpl in E; [|discriminate].
    injection E as <-. destruct (filter_r_spec _ _ _ Ef) as [Hs Hm].
    assert (Hq : exists t', q = JStr t' /\ t = lower t').
    { destruct q; try discriminate Et. injection Et as <-. by eexists. }
    destruct Hq as [t' [-> ->]].
    split; [|split; [discriminate|]].
    + intros h. rewrite (sort_by_perm cmp f), Hm, Hall. split.
      * intros [Hk Hmt]. split; [done|]. intros _. by exists t'.
      * intros [Hk Hmt]. split; [done|]. destruct (Hmt eq_refl) as (t'' & E' & Hmt').
        injection E' as <-. exact Hmt'.
    + apply Hsort. intros h Hh. apply Hm in Hh. apply Hh.
  - split; [intros _; by eexists|]. intros l E. simpl in E. injection E as <-.
    split; [|split].
    + intros h. rewrite (sort_by_perm cmp all), Hall. split; [|tauto].
      intros Hk. split; [done|discriminate].
    + intros _. apply sort_by_perm.
    + apply Hsort. done.
Qed.

End StatsExtras.

Module ParserFacts.
Import Js Query Selector DbMore Parser SelectMoreFacts.

Definition str_all (p : Ascii.ascii -> bool) (s : string) : bool :=
  forallb p (String.list_ascii_of_string s).

Lemma to_int32_range z : (- 2 ^ 31 <= to_int32 z < 2 ^ 31)%Z.
Proof. unfold to_int32. pose proof (Z.mod_pos_bound (z + 2 ^ 31) (2 ^ 32)). lia. Qed.

Lemma hash_fold_range (l : list Ascii.ascii) h :
  (- 2 ^ 31 <= h < 2 ^ 31)%Z -> (- 2 ^ 31 <= foldl hash_step h l < 2 ^ 31)%Z.
Proof.
  revert h. induction l as [|c r IH]; intros h Hh; simpl; [done|].
  apply IH. unfold hash_step. apply to_int32_range.
Qed.

Lemma digit_char_alnum k : (0 <= k < 36)%Z -> is_alnum_lower (digit_char k) = true.
Proof.
  intros Hk. rewrite <- (Z2Nat.id k) by lia.
  assert (Hm : (Z.to_nat k < 36)%nat) by lia. revert Hm. generalize (Z.to_nat k). intros m Hm.
  do 36 (destruct m as [|m]; [reflexivity|]). lia.
Qed.

Lemma radix36_go_all fuel n acc :
  str_all is_alnum_lower acc = true -> str_all is_alnum_lower (radix36_go fuel n acc) = true.
Proof.
  revert n acc. induction fuel as [|f IH]; intros n acc Ha; simpl; [done|].
  assert (Hacc : str_all is_alnum_lower (String (digit_char (n mod 36)) acc) = true).
  { unfold str_all. simpl. rewrite digit_char_alnum; [exact Ha|].
    apply Z.mod_pos_bound. lia. }
  destruct (Z.ltb n 36); [exact Hacc|]. by apply IH.
Qed.

Lemma upper_char_ok c : is_alnum_lower c = true -> is_upper_or_digit (upper_char c) = true.
Proof.
  destruct c as [[] [] [] [] [] [] [] []]; vm_compute; intros H; first [reflexivity|discriminate H].
Qed.

Lemma upper_all s : str_all is_alnum_lower s = true -> str_all is_upper_or_digit (upper s) = true.
Proof.
  unfold str_all. induction s as [|c r IH]; simpl; [done|].
  intros H. apply andb_prop in H as [H1 H2]. by rewrite upper_char_ok, IH.
Qed.

Lemma list_ascii_app (a b : string) :
  String.list_ascii_of_string (String.append a b) =
  app (String.list_ascii_of_string a) (String.list_ascii_of_string b).
Proof. induction a as [|c r IH]; simpl; [done|]. by rewrite IH. Qed.

Lemma length_app_str (a b : string) :
  String.length (String.append a b) = (String.length a + String.length b)%nat.
Proof. induction a as [|c r IH]; simpl; [done|]. by rewrite IH. Qed.

Lemma zeros_ok m :
  String.length (String.string_of_list_ascii (repeat (Ascii.ascii_of_nat 48) m)) = m /\
  str_all is_upper_or_digit (String.string_of_list_ascii (repeat (Ascii.ascii_of_nat 48) m)) = true.
Proof.
  unfold str_all. induction m as [|m [IH1 IH2]]; simpl; [done|]. by rewrite IH1, IH2.
Qed.

Lemma padStart9_ok s :
  str_all is_upper_or_digit s = true ->
  (9 <= String.length (padStart9 s))%nat /\ str_all is_upper_or_digit (padStart9 s) = true.
Proof.
  intros Hs. unfold padStart9. destruct (Nat.leb_spec 9 (String.length s)) as [Hl|Hl]; [done|].
  destruct (zeros_ok (9 - String.length s)) as [Z1 Z2].
  rewrite length_app_str, Z1. split; [lia|].
  unfold str_all in *. by rewrite list_ascii_app, forallb_app, Z2, Hs.
Qed.

Lemma substring_prefix p n s :
  (n <= String.length s)%nat -> str_all p s = true ->
  String.length (String.substring 0 n s) = n /\ str_all p (String.substring 0 n s) = true.
Proof.
  unfold str_all. revert n. induction s as [|c r IH]; intros n Hn Hs.
  - simpl in Hn. assert (n = 0)%nat as -> by lia. done.
  - destruct n as [|n]; [done|]. simpl in Hn, Hs |- *. apply andb_prop in Hs as [H1 H2].
    destruct (IH n ltac:(lia) H2) as [E1 E2]. by rewrite E1, H1, E2.
Qed.

Lemma cut_underscore_id s : str_all is_upper_or_digit s = true -> cut_underscore s = s.
Proof.
  unfold str_all. induction s as [|c r IH]; simpl; [done|].
  intros H. apply andb_prop in H as [H1 H2].
  destruct (Ascii.eqb_spec c (Ascii.ascii_of_nat 95)) as [->|Hne].
  - discriminate H1.
  - simpl. by rewrite IH.
Qed.

(** The parts of [/\b(alt|...)\b/.source] that [extractTags] keeps. *)
Lemma tag_names :
  map (fun p => tag_name p.1) tagPatterns = ["important"; "quote"; "idea"; "todo"; "question"].
Proof. vm_compute. reflexivity. Qed.

Lemma str_all_impl (p q : Ascii.ascii -> bool) s :
  (forall c, p c = true -> q c = true) -> str_all p s = true -> str_all q s = true.
Proof.
  unfold str_all. intros Hpq. induction s as [|c r IH]; simpl; [done|].
  intros H. apply andb_prop in H as [H1 H2]. by rewrite Hpq, IH.
Qed.

(** **** [cleanText] *)

Lemma is_space_32 : is_space (Ascii.ascii_of_nat 32) = true.
Proof. reflexivity. Qed.

Lemma collapse_idem b s : collapse_go b (collapse_go b s) = collapse_go b s.
Proof.
  revert b. induction s as [|c r IH]; intros b; simpl; [done|].
  destruct (is_space c) eqn:Ec.
  - destruct b; [apply IH|]. simpl. by rewrite IH.
  - simpl. rewrite Ec. by rewrite IH.
Qed.

(** The last character, if any, is not white space. *)
Fixpoint end_ok (s : string) : bool :=
  match s with
  | EmptyString => true
  | String c r => match r with EmptyString => negb (is_space c) | _ => end_ok r end
  end.

Definition head_ok (s : string) : bool :=
  match s with EmptyString => true | String c _ => negb (is_space c) end.

Lemma end_ok_cons c r : r <> EmptyString -> end_ok (String c r) = end_ok r.
Proof. by destruct r. Qed.

Lemma trim_end_ok s : end_ok (trim_end s) = true.
Proof.
  induction s as [|c r IH]; simpl; [done|].
  destruct (is_space c && String.eqb (trim_end r) "") eqn:E; [done|].
  destruct (trim_end r) eqn:Er; [|exact IH].
  simpl. destruct (is_space c); [discriminate|done].
Qed.

Lemma trim_end_id s : end_ok s = true -> trim_end s = s.
Proof.
  induction s as [|c r IH]; simpl; [done|]. intros H.
  destruct r as [|d r'].
  - simpl. destruct (is_space c); [discriminate|done].
  - rewrite IH by exact H. simpl. by rewrite andb_false_r.
Qed.

Lemma skip_head s : head_ok (skip_spaces s) = true.
Proof.
  induction s as [|c r IH]; simpl; [done|].
  destruct (is_space c) eqn:E; [exact IH|]. simpl. by rewrite E.
Qed.

Lemma trim_end_head s : head_ok s = true -> head_ok (trim_end s) = true.
Proof.
  destruct s as [|c r]; [done|]. intros H. simpl in H.
  destruct (is_space c) eqn:E; [discriminate|]. simpl. rewrite E. simpl. by rewrite E.
Qed.

Lemma skip_id s : head_ok s = true -> skip_spaces s = s.
Proof.
  destruct s as [|c r]; simpl; [done|]. intros H. by destruct (is_space c).
Qed.

Lemma collapse_head b s : head_ok s = true -> head_ok (collapse_go b s) = true.
Proof.
  destruct s as [|c r]; simpl; [done|]. intros H.
  destruct (is_space c) eqn:E; [discriminate|]. simpl. by rewrite E.
Qed.

Lemma collapse_nonempty b r :
  r <> EmptyString -> end_ok r = true -> collapse_go b r <> EmptyString.
Proof.
  revert b. induction r as [|c r IH]; intros b Hne He; [done|]. simpl.
  destruct (is_space c) eqn:Ec.
  - destruct r as [|d r']; [simpl in He; rewrite Ec in He; discriminate|].
    assert (Hr : collapse_go true (String d r') <> EmptyString) by (apply IH; done).
    destruct b; [exact Hr|discriminate].
  - discriminate.
Qed.

Lemma collapse_end b s : end_ok s = true -> end_ok (collapse_go b s) = true.
Proof.
  revert b. induction s as [|c r IH]; intros b He; [done|].
  destruct r as [|d r'].
  - simpl in He |- *. destruct (is_space c) eqn:Ec; [discriminate|]. simpl. by rewrite Ec.
  - rewrite end_ok_cons in He by discriminate.
    remember (String d r') as r eqn:Er.
    assert (Hne : r <> EmptyString) by (subst; discriminate). clear Er.
    pose proof (collapse_nonempty true r Hne He) as Hnt.
    pose proof (collapse_nonempty false r Hne He) as Hnf.
    cbn [collapse_go].
    destruct (is_space c).
    + destruct b; [by apply IH|]. rewrite end_ok_cons by exact Hnt. by apply IH.
    + rewrite end_ok_cons by exact Hnf. by apply IH.
Qed.

(** **** [extractPageNumber] *)

Definition no_char (n : nat) (s : string) : bool :=
  str_all (fun d => negb (Ascii.eqb (lower_char d) (Ascii.ascii_of_nat n))) s.

Definition digits_ok (ds : string) : Prop := ds <> EmptyString /\ str_all is_digit ds = true.

Lemma digits_all s : str_all is_digit (digits s) = true.
Proof.
  unfold str_all. induction s as [|c r IH]; simpl; [done|].
  destruct (is_digit c) eqn:E; simpl; [by rewrite E, IH|done].
Qed.

Lemma space_digits_ok s ds : space_digits s = Some ds -> digits_ok ds.
Proof.
  unfold space_digits. destruct (digits (skip_spaces s)) eqn:E; [discriminate|].
  intros H. injection H as <-. split; [discriminate|]. rewrite <- E. apply digits_all.
Qed.

Lemma bind_sd_ok (o : option string) ds : (o ≫= space_digits) = Some ds -> digits_ok ds.
Proof. destruct o; simpl; [apply space_digits_ok|discriminate]. Qed.

Lemma match_at_ok s ds : match_at s = Some ds -> digits_ok ds.
Proof.
  unfold match_at.
  destruct (lit_ci "page" s ≫= space_digits) eqn:E1; [intros H; injection H as <-; by eapply bind_sd_ok|].
  destruct (lit_ci "p." s ≫= space_digits) eqn:E2; [intros H; injection H as <-; by eapply bind_sd_ok|].
  apply bind_sd_ok.
Qed.

Lemma loc_match_at_ok s ds : loc_match_at s = Some ds -> digits_ok ds.
Proof.
  unfold loc_match_at.
  destruct (lit_ci "location" s ≫= space_digits) eqn:E1; [intros H; injection H as <-; by eapply bind_sd_ok|].
  destruct (lit_ci "loc." s ≫= space_digits) eqn:E2; [intros H; injection H as <-; by eapply bind_sd_ok|].
  apply bind_sd_ok.
Qed.

Lemma page_ok s ds : Query.extractPageNumber s = Some ds -> digits_ok ds.
Proof.
  induction s as [|c r IH]; simpl; [discriminate|].
  destruct (match_at (String c r)) eqn:E; [intros H; injection H as <-; by eapply match_at_ok|].
  exact IH.
Qed.

Lemma loc_ok s ds : extractLocationNumber s = Some ds -> digits_ok ds.
Proof.
  induction s as [|c r IH]; simpl; [discriminate|].
  destruct (loc_match_at (String c r)) eqn:E; [intros H; injection H as <-; by eapply loc_match_at_ok|].
  exact IH.
Qed.

Lemma page_none s : no_char 112 s = true -> Query.extractPageNumber s = None.
Proof.
  unfold no_char, str_all. induction s as [|d r IH]; [reflexivity|].
  simpl. intros H. apply andb_prop in H as [Hd Hr].
  unfold match_at. cbn [lit_ci].
  destruct (Ascii.eqb (lower_char _) (lower_char d)) eqn:E.
  - apply Ascii.eqb_eq in E. rewrite <- E in Hd. vm_compute in Hd. discriminate.
  - simpl. by apply IH.
Qed.

Lemma loc_none s : no_char 108 s = true -> extractLocationNumber s = None.
Proof.
  unfold no_char, str_all. induction s as [|d r IH]; [reflexivity|].
  simpl. intros H. apply andb_prop in H as [Hd Hr].
  unfold loc_match_at. cbn [lit_ci].
  destruct (Ascii.eqb (lower_char _) (lower_char d)) eqn:E.
  - apply Ascii.eqb_eq in E. rewrite <- E in Hd. vm_compute in Hd. discriminate.
  - simpl. by apply IH.
Qed.

Lemma digit_no_pl c :
  is_digit c = true ->
  negb (Ascii.eqb (lower_char c) (Ascii.ascii_of_nat 112)) = true /\
  negb (Ascii.eqb (lower_char c) (Ascii.ascii_of_nat 108)) = true.
Proof.
  destruct c as [[] [] [] [] [] [] [] []]; vm_compute; intros H; first [split; reflexivity|discriminate H].
Qed.

Lemma digits_no_pl ds : str_all is_digit ds = true -> no_char 112 ds = true /\ no_char 108 ds = true.
Proof.
  intros H. split; (eapply str_all_impl; [|exact H]); intros c Hc; apply (digit_no_pl c Hc).
Qed.

(** **** [generateUUID] *)

(** A lower-case hexadecimal digit, as [toString(16)] prints it. *)
Definition is_hex (c : Ascii.ascii) : bool :=
  let n := Ascii.nat_of_ascii c in is_digit c || ((97 <=? n)%nat && (n <=? 102)%nat).

(** [s] fits the template [t]: a hexadecimal digit for each ['x'], one of
    [8], [9], [a], [b] for each ['y'], the template's own character
    elsewhere. *)
Fixpoint fits (t s : string) : bool :=
  match t, s with
  | EmptyString, EmptyString => true
  | String c t', String d s' =>
      (if Ascii.eqb c (Ascii.ascii_of_nat 120) then is_hex d
       else if Ascii.eqb c (Ascii.ascii_of_nat 121) then
         existsb (Ascii.eqb d) (map Ascii.ascii_of_nat [56; 57; 97; 98])
       else Ascii.eqb c d) && fits t' s'
  | _, _ => false
  end.

(** The number of ['x'] and ['y'] in [t], one [Math.random()] call each. *)
Fixpoint count_xy (t : string) : nat :=
  match t with
  | EmptyString => 0
  | String c r =>
      (if Ascii.eqb c (Ascii.ascii_of_nat 120) || Ascii.eqb c (Ascii.ascii_of_nat 121)
       then 1 else 0) + count_xy r
  end.

Lemma fits_length t s : fits t s = true -> String.length s = String.length t.
Proof.
  revert s. induction t as [|c t IH]; intros [|d s] H; simpl in *; try done.
  apply andb_prop in H as [_ H]. by rewrite (IH s H).
Qed.

Lemma or_zero_range (q : Q) : (0 <= q < 1)%Q -> (0 <= or_zero (q * 16) < 16)%Z.
Proof.
  intros [H0 H1]. unfold or_zero.
  assert (Hle : Qle_bool 0 (q * 16) = true) by (apply Qle_bool_iff; lra).
  rewrite Hle.
  pose proof (Qfloor_le (q * 16)) as Hf1. pose proof (Qlt_floor (q * 16)) as Hf2.
  rewrite inject_Z_plus in Hf2.
  remember (Qfloor (q * 16)) as f eqn:Ef.
  assert (Hb : (0 <= f < 16)%Z).
  { split.
    - apply Z.lt_succ_r. rewrite Zlt_Qlt. unfold Z.succ. rewrite inject_Z_plus.
      change (inject_Z 1) with 1%Q in *. change (inject_Z 0) with 0%Q. lra.
    - rewrite Zlt_Qlt. change (inject_Z 16) with 16%Q. lra. }
  unfold to_int32. rewrite Z.mod_small by lia. lia.
Qed.

Lemma hex_ok m :
  (0 <= m < 16)%Z ->
  (exists d, hex_string m = String d EmptyString /\ is_hex d = true) /\
  (exists d, hex_string (Z.lor (Z.land m 3) 8) = String d EmptyString /\
     existsb (Ascii.eqb d) (map Ascii.ascii_of_nat [56; 57; 97; 98]) = true).
Proof.
  intros Hm. rewrite <- (Z2Nat.id m) by lia.
  assert (Hn : (Z.to_nat m < 16)%nat) by lia. revert Hn. generalize (Z.to_nat m). intros n Hn.
  do 16 (destruct n as [|n]; [split; eexists; split; reflexivity|]). lia.
Qed.

Lemma uuid_fill_ok (t : string) (rnd : nat -> Q) k :
  (forall i, (0 <= rnd i < 1)%Q) ->
  exists s, uuid_fill t rnd k = Ok (s, (k + count_xy t)%nat) /\ fits t s = true.
Proof.
  intros Hr. revert k. induction t as [|c t IH]; intros k.
  - exists EmptyString. split; [by rewrite Nat.add_0_r|done].
  - cbn [uuid_fill count_xy].
    destruct (Ascii.eqb c (Ascii.ascii_of_nat 120)) eqn:Ex;
      [|destruct (Ascii.eqb c (Ascii.ascii_of_nat 121)) eqn:Ey]; simpl.
    + destruct (IH (S k)) as (s & Hs & Hf).
      destruct (hex_ok _ (or_zero_range _ (Hr k))) as [(d & Hd & Hx) _].
      exists (String d s). split.
      * rewrite (bind_ok _ _ _ _ (rnd k) (S k) eq_refl). simpl.
        rewrite (bind_ok _ _ _ _ _ _ Hs). rewrite Hd. unfold mret, M_ret. simpl.
        by rewrite Nat.add_succ_r.
      * simpl. rewrite Ex, Hx. exact Hf.
    + destruct (IH (S k)) as (s & Hs & Hf).
      destruct (hex_ok _ (or_zero_range _ (Hr k))) as [_ (d & Hd & Hy)].
      exists (String d s). split.
      * rewrite (bind_ok _ _ _ _ (rnd k) (S k) eq_refl). simpl.
        rewrite (bind_ok _ _ _ _ _ _ Hs). rewrite Hd. unfold mret, M_ret. simpl.
        by rewrite Nat.add_succ_r.
      * cbn [fits]. rewrite Ex, Ey. apply andb_true_intro. split; [exact Hy|exact Hf].
    + destruct (IH k) as (s & Hs & Hf).
      exists (String c s). split.
      * rewrite (bind_ok _ _ _ _ _ _ Hs). reflexivity.
      * simpl. rewrite Ex, Ey, Ascii.eqb_refl. exact Hf.
Qed.

End ParserFacts.

Module ParserExtras.
Import Js Query Selector DbMore Parser ParserFacts.

(** [simpleHash] is between 0 and 2^31. *)
Lemma simpleHash_range (s : string) : (0 <= simpleHash s <= 2 ^ 31)%Z.
Proof.
  unfold simpleHash. pose proof (hash_fold_range (String.list_ascii_of_string s) 0) as H.
  lia.
Qed.

(** [isValidASIN] accepts every pseudo-ASIN that [generatePseudoASIN] builds. *)
Lemma generatePseudoASIN_valid (title : string) : isValidASIN (generatePseudoASIN title) = true.
Proof.
  unfold generatePseudoASIN.
  set (r := String.substring 0 9 (padStart9 (upper (radix36 (simpleHash (lower title)))))).
  assert (Hr : String.length r = 9%nat /\ str_all is_upper_or_digit r = true).
  { destruct (padStart9_ok (upper (radix36 (simpleHash (lower title))))) as [P1 P2].
    { apply upper_all. unfold radix36. by apply radix36_go_all. }
    by apply substring_prefix. }
  destruct Hr as [Hl Ha].
  replace (Ascii.ascii_of_nat 66) with (Ascii.Ascii false true false false false false true false)
    by reflexivity.
  unfold isValidASIN, strip_book. simpl. rewrite cut_underscore_id by done.
  simpl. rewrite Hl. exact Ha.
Qed.

(** [extractTags] returns some of the names important, quote, idea, todo, question, in that order and each at most once. *)
Lemma extractTags_sublist (text note : jsval) :
  sublist (extractTags text note) ["important"; "quote"; "idea"; "todo"; "question"].
Proof.
  rewrite <- tag_names. unfold extractTags.
  generalize tagPatterns. intros l. induction l as [|x r IH]; simpl; [constructor|].
  destruct (regex_test _ _); simpl; [by apply sublist_skip|by apply sublist_cons].
Qed.

(** [cleanText] is idempotent: cleaning its result again gives the same string. *)
Lemma cleanText_idem (v : jsval) s : cleanText v = Ok s -> cleanText (JStr s) = Ok s.
Proof.
  unfold cleanText. destruct (truthy v) eqn:Tv; simpl.
  2: { intros E. injection E as <-. reflexivity. }
  destruct v; try discriminate. intros E. injection E as <-.
  set (t := trim s0).
  assert (Ht : head_ok t = true /\ end_ok t = true).
  { split; [apply trim_end_head, skip_head|apply trim_end_ok]. }
  destruct Ht as [Hh He].
  destruct (String.eqb_spec (collapse_go false t) "") as [E|E]; simpl; [by rewrite E|].
  destruct (String.eqb (collapse_go false t) "") eqn:E'; [apply String.eqb_eq in E'; contradiction|].
  simpl. unfold trim.
  rewrite skip_id by (apply collapse_head; exact Hh).
  rewrite trim_end_id by (apply collapse_end; exact He).
  by rewrite collapse_idem.
Qed.

Lemma cleanText_idem_witness :
  cleanText (JStr "  a    b  ") = Ok "a b" /\ cleanText (JStr "a b") = Ok "a b".
Proof.
  assert (H : cleanText (JStr "  a    b  ") = Ok "a b") by reflexivity.
  split; [exact H|]. exact (cleanText_idem _ _ H).
Defined.

(** The parser's [extractPageNumber] is idempotent on the strings it returns. *)
Lemma extractPageNumber_idem (v : jsval) s :
  Parser.extractPageNumber v = Ok s -> Parser.extractPageNumber (JStr s) = Ok s.
Proof.
  unfold Parser.extractPageNumber. destruct (truthy v) eqn:Tv; simpl.
  2: { intros E. injection E as <-. reflexivity. }
  intros E. destruct v as [| | | | | |x|]; try discriminate E.
  assert (Htr : forall p, p <> EmptyString -> negb (String.eqb p "") = true).
  { intros p Hp. destruct p; [contradiction|reflexivity]. }
  destruct (Query.extractPageNumber x) as [p|] eqn:Ep.
  - injection E as <-. destruct (page_ok _ _ Ep) as [Hne Hd].
    destruct (digits_no_pl _ Hd) as [Hp Hl].
    rewrite (Htr p Hne). simpl. by rewrite page_none, loc_none.
  - destruct (extractLocationNumber x) as [l|] eqn:El.
    + injection E as <-. destruct (loc_ok _ _ El) as [Hne Hd].
      destruct (digits_no_pl _ Hd) as [Hp Hl].
      assert (Hm : loc_match_at ("loc:" +:+ l) = None) by (unfold loc_match_at; simpl; reflexivity).
      assert (HL : extractLocationNumber ("loc:" +:+ l) = None).
      { change (extractLocationNumber ("loc:" +:+ l)) with
          (match loc_match_at ("loc:" +:+ l) with
           | Some ds => Some ds
           | None => extractLocationNumber ("oc:" +:+ l)
           end).
        rewrite Hm. apply loc_none. unfold no_char, str_all in *.
        rewrite list_ascii_app, forallb_app, Hl. reflexivity. }
      assert (HP : Query.extractPageNumber ("loc:" +:+ l) = None).
      { apply page_none. unfold no_char, str_all in *.
        rewrite list_ascii_app, forallb_app, Hp. reflexivity. }
      rewrite HP, HL. reflexivity.
    + injection E as <-. simpl in Tv. rewrite Tv. simpl. by rewrite Ep, El.
Qed.

Lemma extractPageNumber_idem_witness :
  Parser.extractPageNumber (JStr "Location 1234") = Ok "loc:1234" /\
  Parser.extractPageNumber (JStr "loc:1234") = Ok "loc:1234".
Proof.
  assert (H : Parser.extractPageNumber (JStr "Location 1234") = Ok "loc:1234") by reflexivity.
  split; [exact H|]. exact (extractPageNumber_idem _ _ H).
Defined.

(** With [Math.random()] in [0,1), [generateUUID] makes 31 calls and returns a 36-character string that fits the template [xxxxxxxx-xxxx-4xxx-yxxx-xxxxxxxxxxxx]. *)
Lemma generateUUID_format (rnd : nat -> Q) k :
  (forall i, (0 <= rnd i < 1)%Q) ->
  exists s, generateUUID rnd k = Ok (s, (k + 31)%nat) /\ String.length s = 36%nat /\
            fits uuid_template s = true.
Proof.
  intros Hr. destruct (uuid_fill_ok uuid_template rnd k Hr) as (s & Hs & Hf).
  exists s. split; [exact Hs|]. split; [|exact Hf].
  rewrite (fits_length _ _ Hf). reflexivity.
Qed.

Lemma generateUUID_format_witness :
  (forall i, (0 <= (fun _ : nat => 1 # 2) i < 1)%Q) /\
  exists s, generateUUID (fun _ => 1 # 2) 0 = Ok (s, (0 + 31)%nat) /\ String.length s = 36%nat /\
            fits uuid_template s = true.
Proof.
  assert (H : forall i, (0 <= (fun _ : nat => 1 # 2) i < 1)%Q) by (intros i; simpl; split; lra).
  split; [exact H|]. exact (generateUUID_format _ 0 H).
Defined.

End ParserExtras.
